(** * Movie browser: cache, storage and state containers

    A shallow embedding of the cache service ([CacheService]), the storage
    service ([StorageService]) and the two reducers ([favoritesReducer],
    [movieReducer]) together with the favourites provider callbacks, and the
    properties of the specification that concern them.

    Conventions of the embedding.
    - AsyncStorage is a finite map from keys to JSON documents.  A stored
      string is represented by the document it parses to; numbers are
      integers (milliseconds, identifiers, page numbers).
    - An [async] function is a computation over a [World]: the storage, the
      clock read by [Date.now()], and a schedule saying which AsyncStorage
      calls reject.  A computation returns a value, throws, or leaves the
      typed fragment (a stored document does not have the shape its
      TypeScript annotation asserts).
    - The clock does not move inside one operation; [elapse] moves it
      between operations. *)

From Stdlib Require Import ZArith Lia Ascii String.
From stdpp Require Import base option list gmap strings sorting pretty.

Open Scope string_scope.
Open Scope Z_scope.

(** ** JSON documents *)

#[warnings="-register-all"]
Inductive json : Type :=
| JNull
| JBool (b : bool)
| JNum (n : Z)
| JStr (s : string)
| JArr (items : list json)
| JObj (fields : list (string * json)).

(** An object is the list of its properties in enumeration order; a parsed
    document has no two properties of the same name.  *)

(** Property read [o[k]]: [None] stands for [undefined]. *)
Fixpoint obj_get (k : string) (o : list (string * json)) : option json :=
  match o with
  | [] => None
  | (k', v) :: o' => if String.eqb k' k then Some v else obj_get k o'
  end.

(** Property write [o[k] = v]: an existing property keeps its place, a new
    one is added last (the engine lists integer-like names first; no
    statement below depends on the place of a property). *)
Fixpoint obj_set (k : string) (v : json) (o : list (string * json))
  : list (string * json) :=
  match o with
  | [] => [(k, v)]
  | (k', v') :: o' =>
      if String.eqb k' k then (k, v) :: o' else (k', v') :: obj_set k v o'
  end.

(** [delete o[k]]. *)
Fixpoint obj_delete (k : string) (o : list (string * json))
  : list (string * json) :=
  match o with
  | [] => []
  | (k', v') :: o' =>
      if String.eqb k' k then obj_delete k o' else (k', v') :: obj_delete k o'
  end.

(** [Object.keys(o)]. *)
Definition obj_keys (o : list (string * json)) : list string := map fst o.

(** ** Worlds and asynchronous computations *)

Inductive Err : Type :=
| StorageFailure
| Error (message : string).

Inductive outcome (A : Type) : Type :=
| Ok (a : A)
| Throw (e : Err)
| Untyped.
Arguments Ok {A} a.
Arguments Throw {A} e.
Arguments Untyped {A}.

Record World : Type := mkWorld {
  storage : gmap string json;
  clock : Z;
  faults : list bool;
}.

Definition M (A : Type) : Type := World → outcome A * World.

Definition ret {A} (a : A) : M A := fun w => (Ok a, w).

Definition bind {A B} (m : M A) (f : A → M B) : M B :=
  fun w =>
    match m w with
    | (Ok a, w') => f a w'
    | (Throw e, w') => (Throw e, w')
    | (Untyped, w') => (Untyped, w')
    end.

Definition throw {A} (e : Err) : M A := fun w => (Throw e, w).

(** A document that does not have the annotated type. *)
Definition untyped {A} : M A := fun w => (Untyped, w).

(** [try { m } catch (error) { h error }]. *)
Definition try_catch {A} (m : M A) (h : Err → M A) : M A :=
  fun w =>
    match m w with
    | (Throw e, w') => h e w'
    | r => r
    end.

Notation "'let*' x ':=' m 'in' k" := (bind m (fun x => k))
  (at level 10, x name, m at level 100, k at level 200, only parsing).

(** [for (const x of l) { await f x }]. *)
Fixpoint for_of {A} (l : list A) (f : A → M unit) : M unit :=
  match l with
  | [] => ret tt
  | x :: l' => let* _ := f x in for_of l' f
  end.

(** Every AsyncStorage call consumes one entry of the schedule; [true]
    makes the call reject without touching the storage.  An exhausted
    schedule means no further failure. *)
Definition io : M unit :=
  fun w =>
    match faults w with
    | [] => (Ok tt, w)
    | false :: fs => (Ok tt, mkWorld (storage w) (clock w) fs)
    | true :: fs => (Throw StorageFailure, mkWorld (storage w) (clock w) fs)
    end.

Definition Date_now : M Z := fun w => (Ok (clock w), w).

Definition elapse (d : Z) (w : World) : World :=
  mkWorld (storage w) (clock w + d) (faults w).

Module AsyncStorage.

Definition getItem (key : string) : M (option json) :=
  let* _ := io in fun w => (Ok (storage w !! key), w).

Definition setItem (key : string) (value : json) : M unit :=
  let* _ := io in
  fun w => (Ok tt, mkWorld (<[key := value]> (storage w)) (clock w) (faults w)).

Definition removeItem (key : string) : M unit :=
  let* _ := io in
  fun w => (Ok tt, mkWorld (delete key (storage w)) (clock w) (faults w)).

(** [getAllKeys()]: the keys of the storage; the order in which the store
    lists them is left open and no statement depends on it. *)
Definition getAllKeys : M (list string) :=
  let* _ := io in fun w => (Ok (map fst (map_to_list (storage w))), w).

Definition multiRemove (keys : list string) : M unit :=
  let* _ := io in
  fun w => (Ok tt, mkWorld (foldr delete (storage w) keys) (clock w) (faults w)).

End AsyncStorage.

(** ** Movies (types/movie.ts)

    The fields kept are the ones the favourites provider reads ([id],
    [title], [overview], [release_date], [genre_ids]) and the nullable
    poster reference; the fractional fields ([vote_average], [popularity])
    and the remaining display fields travel unchanged through every
    operation below and are left out. *)

Record Movie : Type := mkMovie {
  id : Z;
  title : string;
  poster_path : option string;
  overview : string;
  release_date : string;
  genre_ids : list Z;
}.

Record Genre : Type := mkGenre {
  genre_id : Z;
  genre_name : string;
}.

Definition as_num (j : json) : option Z :=
  match j with JNum n => Some n | _ => None end.

Definition as_str (j : json) : option string :=
  match j with JStr s => Some s | _ => None end.

Definition as_nullable_str (j : json) : option (option string) :=
  match j with JNull => Some None | JStr s => Some (Some s) | _ => None end.

Definition as_arr (j : json) : option (list json) :=
  match j with JArr l => Some l | _ => None end.

Definition as_obj (j : json) : option (list (string * json)) :=
  match j with JObj o => Some o | _ => None end.

Fixpoint decode_list {A} (f : json → option A) (l : list json)
  : option (list A) :=
  match l with
  | [] => Some []
  | j :: l' => x ← f j; xs ← decode_list f l'; Some (x :: xs)
  end.

(** [JSON.stringify] of a movie, and the typed reading of [JSON.parse]. *)
Definition movie_to_json (m : Movie) : json :=
  JObj [ ("id", JNum (id m));
         ("title", JStr (title m));
         ("poster_path", from_option JStr JNull (poster_path m));
         ("overview", JStr (overview m));
         ("release_date", JStr (release_date m));
         ("genre_ids", JArr (map JNum (genre_ids m))) ].

Definition movie_of_json (j : json) : option Movie :=
  o ← as_obj j;
  i ← obj_get "id" o ≫= as_num;
  t ← obj_get "title" o ≫= as_str;
  p ← obj_get "poster_path" o ≫= as_nullable_str;
  ov ← obj_get "overview" o ≫= as_str;
  r ← obj_get "release_date" o ≫= as_str;
  gs ← obj_get "genre_ids" o ≫= as_arr;
  g ← decode_list as_num gs;
  Some (mkMovie i t p ov r g).

Definition movies_to_json (l : list Movie) : json :=
  JArr (map movie_to_json l).

Definition movies_of_json (j : json) : option (list Movie) :=
  as_arr j ≫= decode_list movie_of_json.

Definition strings_to_json (l : list string) : json := JArr (map JStr l).

Definition strings_of_json (j : json) : option (list string) :=
  as_arr j ≫= decode_list as_str.

(** [l.some(x => x.id === i)]. *)
Definition some_id (i : Z) (l : list Movie) : bool :=
  existsb (fun x => id x =? i) l.

(** [l.filter(x => x.id !== i)]. *)
Definition filter_id_ne (i : Z) (l : list Movie) : list Movie :=
  List.filter (fun x => negb (id x =? i)) l.

(** [UserPreferences] (types/movie.ts). *)
Inductive Theme : Type := light | dark | system.

Record UserPreferences : Type := mkUserPreferences {
  theme : Theme;
  favoriteGenres : list Z;
  language : string;
}.

Definition theme_to_json (t : Theme) : json :=
  match t with
  | light => JStr "light"
  | dark => JStr "dark"
  | system => JStr "system"
  end.

Definition theme_of_json (j : json) : option Theme :=
  match j with
  | JStr s =>
      if String.eqb s "light" then Some light
      else if String.eqb s "dark" then Some dark
      else if String.eqb s "system" then Some system
      else None
  | _ => None
  end.

Definition preferences_to_json (p : UserPreferences) : json :=
  JObj [ ("theme", theme_to_json (theme p));
         ("favoriteGenres", JArr (map JNum (favoriteGenres p)));
         ("language", JStr (language p)) ].

Definition preferences_of_json (j : json) : option UserPreferences :=
  o ← as_obj j;
  t ← obj_get "theme" o ≫= theme_of_json;
  gs ← obj_get "favoriteGenres" o ≫= as_arr;
  g ← decode_list as_num gs;
  l ← obj_get "language" o ≫= as_str;
  Some (mkUserPreferences t g l).

(** [key.startsWith(p)] and [s.includes(sub)]. *)
Definition startsWith (p s : string) : bool := String.prefix p s.

Definition includes (sub s : string) : bool :=
  match String.index 0 sub s with Some _ => true | None => false end.

(** [`${n}`] for an integer [n] (decimal notation, the notation the engine
    uses for every integer below [1e21] in absolute value). *)
Definition number_to_string (n : Z) : string := pretty n.

Definition genre_to_json (g : Genre) : json :=
  JObj [("id", JNum (genre_id g)); ("name", JStr (genre_name g))].

Definition genre_of_json (j : json) : option Genre :=
  o ← as_obj j;
  i ← obj_get "id" o ≫= as_num;
  n ← obj_get "name" o ≫= as_str;
  Some (mkGenre i n).

Definition genres_to_json (l : list Genre) : json := JArr (map genre_to_json l).

Definition genres_of_json (j : json) : option (list Genre) :=
  as_arr j ≫= decode_list genre_of_json.

(** ** CacheService (services/cacheService.ts) *)

Module CacheService.

Record CacheItem : Type := mkCacheItem {
  data : json;
  timestamp : Z;
  expiresIn : option Z;
}.

Record CacheConfig : Type := mkCacheConfig {
  defaultExpirationTime : Z;
  maxCacheSize : Z;
  cleanupInterval : Z;
}.

(** The configuration the constructor builds when given none; the exported
    singleton [cacheService] is built this way. *)
Definition default_config : CacheConfig :=
  mkCacheConfig (30 * 60 * 1000) 1000 (60 * 60 * 1000).

Module KEYS.
Definition POPULAR_MOVIES : string := "cache_popular_movies".
Definition TOP_RATED_MOVIES : string := "cache_top_rated_movies".
Definition NOW_PLAYING_MOVIES : string := "cache_now_playing_movies".
Definition UPCOMING_MOVIES : string := "cache_upcoming_movies".
Definition MOVIE_DETAILS : string := "cache_movie_details_".
Definition MOVIE_CREDITS : string := "cache_movie_credits_".
Definition SEARCH_RESULTS : string := "cache_search_results_".
Definition GENRES : string := "cache_genres".
Definition USER_PREFERENCES : string := "cache_user_preferences".
Definition FAVORITES : string := "cache_favorites".
Definition RECENTLY_VIEWED : string := "cache_recently_viewed".
Definition CACHE_METADATA : string := "cache_metadata".
End KEYS.

(** [JSON.stringify(cacheItem)]; an [undefined] [expiresIn] is not written. *)
Definition item_to_json (c : CacheItem) : json :=
  JObj (("data", data c) :: ("timestamp", JNum (timestamp c)) ::
        match expiresIn c with
        | Some e => [("expiresIn", JNum e)]
        | None => []
        end).

(** [JSON.parse(cached)] read at type [CacheItem<T>]. *)
Definition item_of_json (j : json) : option CacheItem :=
  o ← as_obj j;
  d ← obj_get "data" o;
  ts ← obj_get "timestamp" o ≫= as_num;
  match obj_get "expiresIn" o with
  | None => Some (mkCacheItem d ts None)
  | Some (JNum e) => Some (mkCacheItem d ts (Some e))
  | Some _ => None
  end.

(** [expiresIn || this.config.defaultExpirationTime]: an absent or zero
    argument is falsy. *)
Definition or_default (expiresIn : option Z) (default : Z) : Z :=
  match expiresIn with
  | Some e => if e =? 0 then default else e
  | None => default
  end.

Definition isCacheExpired (cacheItem : CacheItem) : M bool :=
  match expiresIn cacheItem with
  | None => ret false
  | Some e =>
      if e =? 0 then ret false
      else let* now := Date_now in ret (now - timestamp cacheItem >? e)
  end.

Definition getCacheMetadata : M (list (string * json)) :=
  try_catch
    (let* metadata := AsyncStorage.getItem KEYS.CACHE_METADATA in
     match metadata with
     | Some (JObj o) => ret o
     | Some _ => untyped
     | None => ret []
     end)
    (fun _ => ret []).

Definition updateCacheMetadata (key : string) : M unit :=
  try_catch
    (let* metadata := getCacheMetadata in
     let* now := Date_now in
     AsyncStorage.setItem KEYS.CACHE_METADATA
       (JObj (obj_set key (JNum now) metadata)))
    (fun _ => ret tt).

Definition removeCacheMetadata (key : string) : M unit :=
  try_catch
    (let* metadata := getCacheMetadata in
     AsyncStorage.setItem KEYS.CACHE_METADATA
       (JObj (obj_delete key metadata)))
    (fun _ => ret tt).

Section WithConfig.
Variable config : CacheConfig.

Definition set (key : string) (data : json) (expiresIn : option Z) : M unit :=
  try_catch
    (let* now := Date_now in
     let cacheItem :=
       mkCacheItem data now
         (Some (or_default expiresIn (defaultExpirationTime config))) in
     let* _ := AsyncStorage.setItem key (item_to_json cacheItem) in
     updateCacheMetadata key)
    (fun _ => ret tt).

Definition remove (key : string) : M unit :=
  try_catch
    (let* _ := AsyncStorage.removeItem key in
     removeCacheMetadata key)
    (fun _ => ret tt).

Definition get (key : string) : M (option json) :=
  try_catch
    (let* cached := AsyncStorage.getItem key in
     match cached with
     | None => ret None
     | Some doc =>
         match item_of_json doc with
         | None => untyped
         | Some cacheItem =>
             let* expired := isCacheExpired cacheItem in
             if expired then
               let* _ := remove key in ret None
             else ret (Some (data cacheItem))
         end
     end)
    (fun _ => ret None).

(** [Object.entries(metadata)] read at type [[string, number][]]. *)
Fixpoint entries_of (o : list (string * json)) : option (list (string * Z)) :=
  match o with
  | [] => Some []
  | (k, JNum n) :: o' => es ← entries_of o'; Some ((k, n) :: es)
  | _ => None
  end.

(** [entries.sort(([, a], [, b]) => a - b)]: the sort is stable, so an entry
    goes after the entries that compare equal to it. *)
Fixpoint insert_entry (e : string * Z) (l : list (string * Z))
  : list (string * Z) :=
  match l with
  | [] => [e]
  | e' :: l' =>
      if e.2 <? e'.2 then e :: e' :: l' else e' :: insert_entry e l'
  end.

Definition sort_entries (l : list (string * Z)) : list (string * Z) :=
  foldl (fun acc e => insert_entry e acc) [] l.

Definition enforceCacheSize : M unit :=
  try_catch
    (let* metadata := getCacheMetadata in
     if Z.of_nat (length metadata) >? maxCacheSize config then
       match entries_of metadata with
       | None => untyped
       | Some entries =>
           let sorted := sort_entries entries in
           let toRemove :=
             take (Z.to_nat (Z.of_nat (length entries) - maxCacheSize config))
                  sorted in
           for_of toRemove (fun e => remove e.1)
       end
     else ret tt)
    (fun _ => ret tt).

Definition cleanupExpiredItems : M unit :=
  try_catch
    (let* metadata := getCacheMetadata in
     let keys := obj_keys metadata in
     let* _ :=
       for_of keys (fun key =>
         let* cached := AsyncStorage.getItem key in
         match cached with
         | None => ret tt
         | Some doc =>
             match item_of_json doc with
             | None => untyped
             | Some cacheItem =>
                 let* expired := isCacheExpired cacheItem in
                 if expired then remove key else ret tt
             end
         end) in
     enforceCacheSize)
    (fun _ => ret tt).

(** The typed result of [get<Movie[]>]. *)
Definition get_movies (key : string) : M (option (list Movie)) :=
  let* r := get key in
  match r with
  | None => ret None
  | Some j =>
      match movies_of_json j with
      | Some l => ret (Some l)
      | None => untyped
      end
  end.

Definition cacheFavorites (favorites : list Movie) : M unit :=
  set KEYS.FAVORITES (movies_to_json favorites) None.

Definition getCachedFavorites : M (option (list Movie)) :=
  get_movies KEYS.FAVORITES.

Definition cacheRecentlyViewed (movies : list Movie) : M unit :=
  set KEYS.RECENTLY_VIEWED (movies_to_json movies) None.

Definition getCachedRecentlyViewed : M (option (list Movie)) :=
  get_movies KEYS.RECENTLY_VIEWED.

End WithConfig.

Definition clear : M unit :=
  try_catch
    (let* keys := AsyncStorage.getAllKeys in
     let cacheKeys := List.filter (fun key => startsWith "cache_" key) keys in
     let* _ := AsyncStorage.multiRemove cacheKeys in
     AsyncStorage.removeItem KEYS.CACHE_METADATA)
    (fun _ => ret tt).

Inductive Category : Type := popular | top_rated | now_playing | upcoming.

Definition keyMap (category : Category) : string :=
  match category with
  | popular => KEYS.POPULAR_MOVIES
  | top_rated => KEYS.TOP_RATED_MOVIES
  | now_playing => KEYS.NOW_PLAYING_MOVIES
  | upcoming => KEYS.UPCOMING_MOVIES
  end.

Definition getCachedMovieList (category : Category) : M (option (list Movie)) :=
  get_movies (keyMap category).

(** [MovieDetails] and [MovieCredits] are carried as JSON documents. *)
Definition getCachedMovieDetails (movieId : Z) : M (option json) :=
  get (KEYS.MOVIE_DETAILS ++ number_to_string movieId).

Definition getCachedMovieCredits (movieId : Z) : M (option json) :=
  get (KEYS.MOVIE_CREDITS ++ number_to_string movieId).

Definition getCachedGenres : M (option (list Genre)) :=
  let* r := get KEYS.GENRES in
  match r with
  | None => ret None
  | Some j =>
      match genres_of_json j with
      | Some l => ret (Some l)
      | None => untyped
      end
  end.

Definition getCachedUserPreferences : M (option json) :=
  get KEYS.USER_PREFERENCES.

Section Wrappers.
Variable config : CacheConfig.

Definition cacheMovieList (category : Category) (movies : list Movie) : M unit :=
  set config (keyMap category) (movies_to_json movies) (Some (15 * 60 * 1000)).

Definition cacheMovieDetails (movieId : Z) (details : json) : M unit :=
  set config (KEYS.MOVIE_DETAILS ++ number_to_string movieId) details
    (Some (60 * 60 * 1000)).

Definition cacheMovieCredits (movieId : Z) (credits : json) : M unit :=
  set config (KEYS.MOVIE_CREDITS ++ number_to_string movieId) credits
    (Some (60 * 60 * 1000)).

Definition cacheGenres (genres : list Genre) : M unit :=
  set config KEYS.GENRES (genres_to_json genres) (Some (24 * 60 * 60 * 1000)).

Definition cacheUserPreferences (preferences : json) : M unit :=
  set config KEYS.USER_PREFERENCES preferences None.

End Wrappers.

End CacheService.

(** The haptic service catches its own failures and touches neither the
    storage nor the clock. *)
Module haptic.
Definition favoriteToggle (isFavorite : bool) : M unit := ret tt.
Definition errorOccurred : M unit := ret tt.
Definition actionCompleted : M unit := ret tt.
End haptic.

(** ** String primitives of the host

    [String.prototype.toLowerCase] and [String.prototype.trim] are supplied
    by the JavaScript engine; the development is parametric in them. *)

Class StringPrims : Type := {
  toLowerCase : string → string;
  trim : string → string;
}.

(** The search-result wrappers of the cache service; the key is built from
    the lower-cased query. *)
Module SearchResultsCache.
Section WithStringPrims.
Context `{StringPrims}.
Variable config : CacheService.CacheConfig.

Definition cacheSearchResults (query : string) (results : list Movie) : M unit :=
  CacheService.set config
    (CacheService.KEYS.SEARCH_RESULTS ++ toLowerCase query)
    (movies_to_json results) (Some (10 * 60 * 1000)).

Definition getCachedSearchResults (query : string) : M (option (list Movie)) :=
  CacheService.get_movies
    (CacheService.KEYS.SEARCH_RESULTS ++ toLowerCase query).

End WithStringPrims.
End SearchResultsCache.

(** ** StorageService *)

Module StorageService.

Module KEYS.
Definition FAVORITES : string := "@MovieBrowserApp:favorites".
Definition USER_PREFERENCES : string := "@MovieBrowserApp:userPreferences".
Definition GENRE_CACHE : string := "@MovieBrowserApp:genres".
Definition MOVIE_CACHE : string := "@MovieBrowserApp:movieCache".
Definition SEARCH_HISTORY : string := "@MovieBrowserApp:searchHistory".
End KEYS.

Definition MAX_SEARCH_HISTORY : nat := 10.

Definition saveFavorites (favorites : list Movie) : M unit :=
  try_catch
    (AsyncStorage.setItem KEYS.FAVORITES (movies_to_json favorites))
    (fun _ => throw (Error "Failed to save favorites")).

Definition getFavorites : M (list Movie) :=
  try_catch
    (let* jsonValue := AsyncStorage.getItem KEYS.FAVORITES in
     match jsonValue with
     | None => ret []
     | Some doc =>
         match movies_of_json doc with
         | Some l => ret l
         | None => untyped
         end
     end)
    (fun _ => ret []).

Definition addToFavorites (movie : Movie) : M (list Movie) :=
  try_catch
    (let* currentFavorites := getFavorites in
     let isAlreadyFavorite := some_id (id movie) currentFavorites in
     if negb isAlreadyFavorite then
       let updatedFavorites := movie :: currentFavorites in
       let* _ := saveFavorites updatedFavorites in
       ret updatedFavorites
     else ret currentFavorites)
    (fun _ => throw (Error "Failed to add to favorites")).

Definition removeFromFavorites (movieId : Z) : M (list Movie) :=
  try_catch
    (let* currentFavorites := getFavorites in
     let updatedFavorites := filter_id_ne movieId currentFavorites in
     let* _ := saveFavorites updatedFavorites in
     ret updatedFavorites)
    (fun _ => throw (Error "Failed to remove from favorites")).

Definition isFavorite (movieId : Z) : M bool :=
  try_catch
    (let* favorites := getFavorites in
     ret (some_id movieId favorites))
    (fun _ => ret false).

Definition saveSearchHistory (searches : list string) : M unit :=
  try_catch
    (let limitedSearches := take MAX_SEARCH_HISTORY searches in
     AsyncStorage.setItem KEYS.SEARCH_HISTORY (strings_to_json limitedSearches))
    (fun _ => throw (Error "Failed to save search history")).

Definition getSearchHistory : M (list string) :=
  try_catch
    (let* jsonValue := AsyncStorage.getItem KEYS.SEARCH_HISTORY in
     match jsonValue with
     | None => ret []
     | Some doc =>
         match strings_of_json doc with
         | Some l => ret l
         | None => untyped
         end
     end)
    (fun _ => ret []).

Section WithStringPrims.
Context `{StringPrims}.

(** [currentHistory.filter(item => item.toLowerCase() !== query.toLowerCase())]. *)
Definition filter_query_ne (query : string) (l : list string) : list string :=
  List.filter
    (fun item => negb (String.eqb (toLowerCase item) (toLowerCase query))) l.

Definition addToSearchHistory (query : string) : M (list string) :=
  try_catch
    (if String.eqb (trim query) "" then getSearchHistory
     else
       let* currentHistory := getSearchHistory in
       let filteredHistory := filter_query_ne query currentHistory in
       let updatedHistory := take MAX_SEARCH_HISTORY (query :: filteredHistory) in
       let* _ := saveSearchHistory updatedHistory in
       ret updatedHistory)
    (fun _ => throw (Error "Failed to add to search history")).

End WithStringPrims.

Definition clearSearchHistory : M unit :=
  try_catch
    (AsyncStorage.removeItem KEYS.SEARCH_HISTORY)
    (fun _ => throw (Error "Failed to clear search history")).

Definition CACHE_EXPIRY : Z := 24 * 60 * 60 * 1000.

Definition saveUserPreferences (preferences : UserPreferences) : M unit :=
  try_catch
    (AsyncStorage.setItem KEYS.USER_PREFERENCES (preferences_to_json preferences))
    (fun _ => throw (Error "Failed to save user preferences")).

Definition defaultPreferences : UserPreferences :=
  mkUserPreferences system [] "en-US".

Definition getUserPreferences : M UserPreferences :=
  try_catch
    (let* jsonValue := AsyncStorage.getItem KEYS.USER_PREFERENCES in
     match jsonValue with
     | Some doc =>
         match preferences_of_json doc with
         | Some p => ret p
         | None => untyped
         end
     | None =>
         let* _ := saveUserPreferences defaultPreferences in
         ret defaultPreferences
     end)
    (fun _ => ret defaultPreferences).

(** [customKey || key]: an absent or empty custom key is falsy. *)
Definition or_key (customKey : option string) (key : string) : string :=
  match customKey with
  | Some c => if String.eqb c "" then key else c
  | None => key
  end.

(** [JSON.parse(jsonValue)] read as [{ data, timestamp }]. *)
Definition stamped_of_json (j : json) : option (json * Z) :=
  o ← as_obj j;
  d ← obj_get "data" o;
  ts ← obj_get "timestamp" o ≫= as_num;
  Some (d, ts).

Definition cacheData (key : string) (data : json) (customKey : option string)
  : M unit :=
  try_catch
    (let cacheKey := or_key customKey key in
     let* now := Date_now in
     let cacheItem := JObj [("data", data); ("timestamp", JNum now)] in
     AsyncStorage.setItem cacheKey cacheItem)
    (fun _ => ret tt).

Definition getCachedData (key : string) (customKey : option string)
  : M (option json) :=
  try_catch
    (let cacheKey := or_key customKey key in
     let* jsonValue := AsyncStorage.getItem cacheKey in
     match jsonValue with
     | None => ret None
     | Some doc =>
         match stamped_of_json doc with
         | None => untyped
         | Some (data, timestamp) =>
             let* now := Date_now in
             let isExpired := now - timestamp >? CACHE_EXPIRY in
             if isExpired then
               let* _ := AsyncStorage.removeItem cacheKey in ret None
             else ret (Some data)
         end
     end)
    (fun _ => ret None).

Definition clearCache : M unit :=
  try_catch
    (let* keys := AsyncStorage.getAllKeys in
     let cacheKeys :=
       List.filter (fun key => includes "@MovieBrowserApp:movieCache" key) keys in
     AsyncStorage.multiRemove cacheKeys)
    (fun _ => ret tt).

Definition clearAllData : M unit :=
  try_catch
    (let* keys := AsyncStorage.getAllKeys in
     let appKeys :=
       List.filter (fun key => startsWith "@MovieBrowserApp:" key) keys in
     AsyncStorage.multiRemove appKeys)
    (fun _ => throw (Error "Failed to clear all data")).

End StorageService.

(** ** The favourites provider (FavoritesContext) *)

Module FavoritesContext.

Record FavoritesState : Type := mkFavoritesState {
  favorites : list Movie;
  recentlyViewed : list Movie;
  isLoading : bool;
  error : option string;
}.

Inductive FavoritesAction : Type :=
| SET_LOADING (payload : bool)
| SET_ERROR (payload : option string)
| SET_FAVORITES (payload : list Movie)
| ADD_FAVORITE (payload : Movie)
| REMOVE_FAVORITE (payload : Z)
| SET_RECENTLY_VIEWED (payload : list Movie)
| ADD_RECENTLY_VIEWED (payload : Movie)
| CLEAR_RECENTLY_VIEWED
| CLEAR_FAVORITES.

Definition initialState : FavoritesState := mkFavoritesState [] [] false None.

Definition favoritesReducer (state : FavoritesState) (action : FavoritesAction)
  : FavoritesState :=
  match action with
  | SET_LOADING payload =>
      mkFavoritesState (favorites state) (recentlyViewed state) payload
        (error state)
  | SET_ERROR payload =>
      mkFavoritesState (favorites state) (recentlyViewed state)
        (isLoading state) payload
  | SET_FAVORITES payload =>
      mkFavoritesState payload (recentlyViewed state) (isLoading state)
        (error state)
  | ADD_FAVORITE payload =>
      let isAlreadyFavorite := some_id (id payload) (favorites state) in
      if isAlreadyFavorite then state
      else
        mkFavoritesState (payload :: favorites state) (recentlyViewed state)
          (isLoading state) (error state)
  | REMOVE_FAVORITE payload =>
      mkFavoritesState (filter_id_ne payload (favorites state))
        (recentlyViewed state) (isLoading state) (error state)
  | SET_RECENTLY_VIEWED payload =>
      mkFavoritesState (favorites state) payload (isLoading state)
        (error state)
  | ADD_RECENTLY_VIEWED payload =>
      let filteredRecent := filter_id_ne (id payload) (recentlyViewed state) in
      let newRecentlyViewed := take 50 (payload :: filteredRecent) in
      mkFavoritesState (favorites state) newRecentlyViewed (isLoading state)
        (error state)
  | CLEAR_RECENTLY_VIEWED =>
      mkFavoritesState (favorites state) [] (isLoading state) (error state)
  | CLEAR_FAVORITES =>
      mkFavoritesState [] (recentlyViewed state) (isLoading state)
        (error state)
  end.

(** The provider callbacks.  [state] is the state of the render that
    created the callback; [dispatch] is modelled by returning the state the
    reducer produces, so a callback maps the current state to the next one
    while acting on the world. *)

Section WithConfig.
Variable config : CacheService.CacheConfig.

Definition addToFavorites (state : FavoritesState) (movie : Movie)
  : M FavoritesState :=
  let state1 := favoritesReducer state (ADD_FAVORITE movie) in
  try_catch
    (let* _ := CacheService.cacheFavorites config (movie :: favorites state) in
     let* _ := haptic.favoriteToggle true in
     ret state1)
    (fun _ =>
       let state2 :=
         favoritesReducer state1 (SET_ERROR (Some "Failed to add to favorites")) in
       let* _ := haptic.errorOccurred in
       ret state2).

Definition removeFromFavorites (state : FavoritesState) (movieId : Z)
  : M FavoritesState :=
  let updatedFavorites := filter_id_ne movieId (favorites state) in
  let state1 := favoritesReducer state (REMOVE_FAVORITE movieId) in
  try_catch
    (let* _ := CacheService.cacheFavorites config updatedFavorites in
     let* _ := haptic.favoriteToggle false in
     ret state1)
    (fun _ =>
       let state2 :=
         favoritesReducer state1
           (SET_ERROR (Some "Failed to remove from favorites")) in
       let* _ := haptic.errorOccurred in
       ret state2).

Definition isFavorite (state : FavoritesState) (movieId : Z) : bool :=
  some_id movieId (favorites state).

Definition addToRecentlyViewed (state : FavoritesState) (movie : Movie)
  : M FavoritesState :=
  let filteredRecent := filter_id_ne (id movie) (recentlyViewed state) in
  let newRecentlyViewed := take 50 (movie :: filteredRecent) in
  let state1 := favoritesReducer state (ADD_RECENTLY_VIEWED movie) in
  try_catch
    (let* _ := CacheService.cacheRecentlyViewed config newRecentlyViewed in
     ret state1)
    (fun _ => ret state1).

End WithConfig.

Section MoreCallbacks.
Variable config : CacheService.CacheConfig.


Definition clearFavorites (state : FavoritesState) : M FavoritesState :=
  let state1 := favoritesReducer state CLEAR_FAVORITES in
  try_catch
    (let* _ := CacheService.cacheFavorites config [] in
     let* _ := haptic.actionCompleted in
     ret state1)
    (fun _ =>
       let state2 :=
         favoritesReducer state1 (SET_ERROR (Some "Failed to clear favorites")) in
       let* _ := haptic.errorOccurred in
       ret state2).

Definition getFavoritesByGenre (state : FavoritesState) (genreId : Z)
  : list Movie :=
  List.filter (fun movie => existsb (Z.eqb genreId) (genre_ids movie))
    (favorites state).

Definition exportFavorites (state : FavoritesState) : list Movie :=
  favorites state.

Definition importFavorites (state : FavoritesState) (movies : list Movie)
  : M FavoritesState :=
  let state1 := favoritesReducer state (SET_LOADING true) in
  let newMovies :=
    List.filter (fun movie => negb (some_id (id movie) (favorites state)))
      movies in
  let allFavorites := (favorites state ++ newMovies)%list in
  let state2 := favoritesReducer state1 (SET_FAVORITES allFavorites) in
  let* state3 :=
    try_catch
      (let* _ := CacheService.cacheFavorites config allFavorites in
       let* _ := haptic.actionCompleted in
       ret state2)
      (fun _ =>
         let state' :=
           favoritesReducer state2
             (SET_ERROR (Some "Failed to import favorites")) in
         let* _ := haptic.errorOccurred in
         ret state') in
  ret (favoritesReducer state3 (SET_LOADING false)).

(** [useFavoriteToggle(movie).toggleFavorite]. *)
Definition toggleFavorite (state : FavoritesState) (movie : Movie)
  : M FavoritesState :=
  let isMovieFavorite := isFavorite state (id movie) in
  if isMovieFavorite then removeFromFavorites config state (id movie)
  else addToFavorites config state movie.

End MoreCallbacks.

Section Search.
Context `{StringPrims}.

Definition searchFavorites (state : FavoritesState) (query : string)
  : list Movie :=
  let lowercaseQuery := toLowerCase query in
  List.filter
    (fun movie =>
       includes lowercaseQuery (toLowerCase (title movie)) ||
       includes lowercaseQuery (toLowerCase (overview movie)))
    (favorites state).

End Search.

End FavoritesContext.

(** ** The remote API client (TMDBService)

    The remote end is a parameter: for every request, either the response
    body or the error axios reports.  What the client adds is the response
    interceptor and the short cut for a blank search. *)

Inductive Rejection : Type :=
| RejectError (message : string)
| RejectOther.

Inductive ApiResult (A : Type) : Type :=
| Resolved (a : A)
| Rejected (r : Rejection).
Arguments Resolved {A} a.
Arguments Rejected {A} r.

Module TMDBService.

Record MovieResponse : Type := mkMovieResponse {
  page : Z;
  results : list Movie;
  total_pages : Z;
  total_results : Z;
}.

(** An axios error: the HTTP status when a response arrived
    ([error.response?.status]) and [error.message]. *)
Record AxiosError : Type := mkAxiosError {
  status : option Z;
  message : string;
}.

Inductive Http (A : Type) : Type :=
| HttpOk (data : A)
| HttpFail (error : AxiosError).
Arguments HttpOk {A} data.
Arguments HttpFail {A} error.

Record Remote : Type := mkRemote {
  movie_popular : Z → Http MovieResponse;
  movie_top_rated : Z → Http MovieResponse;
  movie_upcoming : Z → Http MovieResponse;
  movie_now_playing : Z → Http MovieResponse;
  search_movie : string → Z → Http MovieResponse;
  genre_movie_list : Http (list Genre);
}.

Definition responseInterceptor (error : AxiosError) : Rejection :=
  match status error with
  | Some st =>
      if st =? 401 then
        RejectError "Invalid API key. Please check your TMDB API key."
      else if st =? 404 then RejectError "Resource not found."
      else if st >=? 500 then
        RejectError "Server error. Please try again later."
      else RejectError (message error)
  | None => RejectError (message error)
  end.

Definition request {A} (r : Http A) : ApiResult A :=
  match r with
  | HttpOk data => Resolved data
  | HttpFail error => Rejected (responseInterceptor error)
  end.

Section WithRemote.
Variable remote : Remote.

Definition getPopularMovies (page : Z) : ApiResult MovieResponse :=
  request (movie_popular remote page).

Definition getTopRatedMovies (page : Z) : ApiResult MovieResponse :=
  request (movie_top_rated remote page).

Definition getUpcomingMovies (page : Z) : ApiResult MovieResponse :=
  request (movie_upcoming remote page).

Definition getNowPlayingMovies (page : Z) : ApiResult MovieResponse :=
  request (movie_now_playing remote page).

Definition getGenres : ApiResult (list Genre) :=
  request (genre_movie_list remote).

Definition searchMovies `{StringPrims} (query : string) (page : Z)
  : ApiResult MovieResponse :=
  if String.eqb (trim query) "" then Resolved (mkMovieResponse 1 [] 0 0)
  else request (search_movie remote (trim query) page).

End WithRemote.

End TMDBService.

(** ** The movie provider (contexts/MovieContext.tsx) *)

Module MovieContext.

Record MovieState : Type := mkMovieState {
  popularMovies : list Movie;
  topRatedMovies : list Movie;
  upcomingMovies : list Movie;
  nowPlayingMovies : list Movie;
  searchResults : list Movie;
  genres : list Genre;
  loading : bool;
  error : option string;
  searchLoading : bool;
  currentPage : Z;
  totalPages : Z;
  hasMorePages : bool;
  favorites : list Movie;
  searchQuery : string;
  searchHistory : list string;
  selectedCategory : string;
}.

Record PagePayload : Type := mkPagePayload {
  movies : list Movie;
  page : Z;
  payloadTotalPages : Z;
}.

Inductive MovieAction : Type :=
| SET_LOADING (payload : bool)
| SET_ERROR (payload : option string)
| SET_SEARCH_LOADING (payload : bool)
| SET_POPULAR_MOVIES (payload : PagePayload)
| SET_TOP_RATED_MOVIES (payload : PagePayload)
| SET_UPCOMING_MOVIES (payload : PagePayload)
| SET_NOW_PLAYING_MOVIES (payload : PagePayload)
| APPEND_POPULAR_MOVIES (payload : list Movie)
| APPEND_TOP_RATED_MOVIES (payload : list Movie)
| APPEND_UPCOMING_MOVIES (payload : list Movie)
| APPEND_NOW_PLAYING_MOVIES (payload : list Movie)
| SET_SEARCH_RESULTS (payload : PagePayload)
| APPEND_SEARCH_RESULTS (payload : list Movie)
| CLEAR_SEARCH_RESULTS
| SET_GENRES (payload : list Genre)
| SET_FAVORITES (payload : list Movie)
| ADD_TO_FAVORITES (payload : Movie)
| REMOVE_FROM_FAVORITES (payload : Z)
| SET_SEARCH_QUERY (payload : string)
| SET_SEARCH_HISTORY (payload : list string)
| ADD_TO_SEARCH_HISTORY (payload : string)
| CLEAR_SEARCH_HISTORY
| SET_SELECTED_CATEGORY (payload : string)
| RESET_PAGINATION.

Definition initialState : MovieState :=
  mkMovieState [] [] [] [] [] [] false None false 1 1 false [] "" [] "popular".

Definition movieReducer (state : MovieState) (action : MovieAction)
  : MovieState :=
  let '(mkMovieState popular topRated upcoming nowPlaying results gs ld err
          sld cur tot more favs query history category) := state in
  match action with
  | SET_LOADING payload =>
      mkMovieState popular topRated upcoming nowPlaying results gs payload err
        sld cur tot more favs query history category
  | SET_ERROR payload =>
      mkMovieState popular topRated upcoming nowPlaying results gs false
        payload false cur tot more favs query history category
  | SET_SEARCH_LOADING payload =>
      mkMovieState popular topRated upcoming nowPlaying results gs ld err
        payload cur tot more favs query history category
  | SET_POPULAR_MOVIES payload =>
      mkMovieState (movies payload) topRated upcoming nowPlaying results gs
        false None sld (page payload) (payloadTotalPages payload)
        (page payload <? payloadTotalPages payload) favs query history category
  | SET_TOP_RATED_MOVIES payload =>
      mkMovieState popular (movies payload) upcoming nowPlaying results gs
        false None sld (page payload) (payloadTotalPages payload)
        (page payload <? payloadTotalPages payload) favs query history category
  | SET_UPCOMING_MOVIES payload =>
      mkMovieState popular topRated (movies payload) nowPlaying results gs
        false None sld (page payload) (payloadTotalPages payload)
        (page payload <? payloadTotalPages payload) favs query history category
  | SET_NOW_PLAYING_MOVIES payload =>
      mkMovieState popular topRated upcoming (movies payload) results gs
        false None sld (page payload) (payloadTotalPages payload)
        (page payload <? payloadTotalPages payload) favs query history category
  | APPEND_POPULAR_MOVIES payload =>
      mkMovieState (popular ++ payload) topRated upcoming nowPlaying results gs
        false err sld cur tot more favs query history category
  | APPEND_TOP_RATED_MOVIES payload =>
      mkMovieState popular (topRated ++ payload) upcoming nowPlaying results gs
        false err sld cur tot more favs query history category
  | APPEND_UPCOMING_MOVIES payload =>
      mkMovieState popular topRated (upcoming ++ payload) nowPlaying results gs
        false err sld cur tot more favs query history category
  | APPEND_NOW_PLAYING_MOVIES payload =>
      mkMovieState popular topRated upcoming (nowPlaying ++ payload) results gs
        false err sld cur tot more favs query history category
  | SET_SEARCH_RESULTS payload =>
      mkMovieState popular topRated upcoming nowPlaying (movies payload) gs
        ld None false (page payload) (payloadTotalPages payload)
        (page payload <? payloadTotalPages payload) favs query history category
  | APPEND_SEARCH_RESULTS payload =>
      mkMovieState popular topRated upcoming nowPlaying (results ++ payload) gs
        ld err false cur tot more favs query history category
  | CLEAR_SEARCH_RESULTS =>
      mkMovieState popular topRated upcoming nowPlaying [] gs ld err sld 1 1
        false favs "" history category
  | SET_GENRES payload =>
      mkMovieState popular topRated upcoming nowPlaying results payload ld err
        sld cur tot more favs query history category
  | SET_FAVORITES payload =>
      mkMovieState popular topRated upcoming nowPlaying results gs ld err sld
        cur tot more payload query history category
  | ADD_TO_FAVORITES payload =>
      mkMovieState popular topRated upcoming nowPlaying results gs ld err sld
        cur tot more (payload :: filter_id_ne (id payload) favs) query history
        category
  | REMOVE_FROM_FAVORITES payload =>
      mkMovieState popular topRated upcoming nowPlaying results gs ld err sld
        cur tot more (filter_id_ne payload favs) query history category
  | SET_SEARCH_QUERY payload =>
      mkMovieState popular topRated upcoming nowPlaying results gs ld err sld
        cur tot more favs payload history category
  | SET_SEARCH_HISTORY payload =>
      mkMovieState popular topRated upcoming nowPlaying results gs ld err sld
        cur tot more favs query payload category
  | ADD_TO_SEARCH_HISTORY payload =>
      let newHistory :=
        take 10
          (payload ::
           List.filter (fun item => negb (String.eqb item payload)) history) in
      mkMovieState popular topRated upcoming nowPlaying results gs ld err sld
        cur tot more favs query newHistory category
  | CLEAR_SEARCH_HISTORY =>
      mkMovieState popular topRated upcoming nowPlaying results gs ld err sld
        cur tot more favs query [] category
  | SET_SELECTED_CATEGORY payload =>
      mkMovieState popular topRated upcoming nowPlaying results gs ld err sld
        cur tot more favs query history payload
  | RESET_PAGINATION =>
      mkMovieState popular topRated upcoming nowPlaying results gs ld err sld
        1 1 false favs query history category
  end.

Section WithStringPrims.
Context `{StringPrims}.

(** [addToSearchHistory] of the provider: the history the storage service
    returns is dispatched with [SET_SEARCH_HISTORY]; a failure is logged and
    the state is left as it is. *)
Definition addToSearchHistory (state : MovieState) (query : string)
  : M MovieState :=
  try_catch
    (let* updatedHistory := StorageService.addToSearchHistory query in
     ret (movieReducer state (SET_SEARCH_HISTORY updatedHistory)))
    (fun _ => ret state).

End WithStringPrims.

(** [error instanceof Error ? error.message : fallback]. *)
Definition rejection_message (r : Rejection) (fallback : string) : string :=
  match r with
  | RejectError message => message
  | RejectOther => fallback
  end.

(** The same for an error thrown by the storage service, which wraps every
    storage failure in an [Error]; a bare storage rejection carries no
    message in this model and none reaches the callers below. *)
Definition error_message (e : Err) (fallback : string) : string :=
  match e with
  | Error message => message
  | StorageFailure => fallback
  end.

Definition page_payload (response : TMDBService.MovieResponse) : PagePayload :=
  mkPagePayload (TMDBService.results response) (TMDBService.page response)
    (TMDBService.total_pages response).

Section Fetching.
Variable remote : TMDBService.Remote.

(** The four list fetchers share one shape: on page 1 the loading flag is
    set and the pagination reset before the request; the response replaces
    the list (page 1) or is appended (later pages); a failure is stored with
    [SET_ERROR]. *)
Definition fetch_list
    (request : Z → ApiResult TMDBService.MovieResponse)
    (set_action : PagePayload → MovieAction)
    (append_action : list Movie → MovieAction)
    (fallback : string) (page : Z) (state : MovieState) : MovieState :=
  let state1 :=
    if page =? 1 then
      movieReducer (movieReducer state (SET_LOADING true)) RESET_PAGINATION
    else state in
  match request page with
  | Resolved response =>
      if page =? 1 then movieReducer state1 (set_action (page_payload response))
      else movieReducer state1 (append_action (TMDBService.results response))
  | Rejected r =>
      movieReducer state1 (SET_ERROR (Some (rejection_message r fallback)))
  end.

Definition fetchPopularMovies : Z → MovieState → MovieState :=
  fetch_list (TMDBService.getPopularMovies remote) SET_POPULAR_MOVIES
    APPEND_POPULAR_MOVIES "Failed to fetch popular movies".

Definition fetchTopRatedMovies : Z → MovieState → MovieState :=
  fetch_list (TMDBService.getTopRatedMovies remote) SET_TOP_RATED_MOVIES
    APPEND_TOP_RATED_MOVIES "Failed to fetch top rated movies".

Definition fetchUpcomingMovies : Z → MovieState → MovieState :=
  fetch_list (TMDBService.getUpcomingMovies remote) SET_UPCOMING_MOVIES
    APPEND_UPCOMING_MOVIES "Failed to fetch upcoming movies".

Definition fetchNowPlayingMovies : Z → MovieState → MovieState :=
  fetch_list (TMDBService.getNowPlayingMovies remote) SET_NOW_PLAYING_MOVIES
    APPEND_NOW_PLAYING_MOVIES "Failed to fetch now playing movies".

Definition fetchGenres (state : MovieState) : MovieState :=
  match TMDBService.getGenres remote with
  | Resolved genres => movieReducer state (SET_GENRES genres)
  | Rejected _ => state
  end.

Definition clearSearch (state : MovieState) : MovieState :=
  movieReducer state CLEAR_SEARCH_RESULTS.

Definition setSelectedCategory (state : MovieState) (category : string)
  : MovieState :=
  movieReducer (movieReducer state (SET_SELECTED_CATEGORY category))
    RESET_PAGINATION.

Definition clearError (state : MovieState) : MovieState :=
  movieReducer state (SET_ERROR None).

Definition isFavorite (state : MovieState) (movieId : Z) : bool :=
  some_id movieId (favorites state).

Definition loadFavorites (state : MovieState) : M MovieState :=
  try_catch
    (let* favorites := StorageService.getFavorites in
     ret (movieReducer state (SET_FAVORITES favorites)))
    (fun _ => ret state).

Definition loadSearchHistory (state : MovieState) : M MovieState :=
  try_catch
    (let* history := StorageService.getSearchHistory in
     ret (movieReducer state (SET_SEARCH_HISTORY history)))
    (fun _ => ret state).

Definition clearSearchHistory (state : MovieState) : M MovieState :=
  try_catch
    (let* _ := StorageService.clearSearchHistory in
     ret (movieReducer state CLEAR_SEARCH_HISTORY))
    (fun _ => ret state).

(** [toggleFavorite] dispatches [SET_ERROR] and then re-throws, so the
    result carries the provider state next to the outcome.  The identifier 0
    is the falsy identifier [!movie.id] rejects. *)
Definition toggleFavorite (state : MovieState) (movie : Movie)
  : World → (outcome unit * MovieState) * World :=
  fun w =>
    let body : M MovieState :=
      if id movie =? 0 then throw (Error "Invalid movie data")
      else
        let isCurrentlyFavorite := isFavorite state (id movie) in
        if isCurrentlyFavorite then
          let* updatedFavorites :=
            StorageService.removeFromFavorites (id movie) in
          ret (movieReducer state (SET_FAVORITES updatedFavorites))
        else
          let* updatedFavorites := StorageService.addToFavorites movie in
          ret (movieReducer state (SET_FAVORITES updatedFavorites)) in
    match body w with
    | (Ok state', w') => ((Ok tt, state'), w')
    | (Throw e, w') =>
        ((Throw e,
          movieReducer state
            (SET_ERROR (Some (error_message e "Failed to update favorites")))),
         w')
    | (Untyped, w') => ((Untyped, state), w')
    end.

Section WithStringPrims.
Context `{StringPrims}.

Definition searchMovies (query : string) (page : Z) (state : MovieState)
  : M MovieState :=
  let state1 := movieReducer state (SET_SEARCH_QUERY query) in
  let state2 :=
    if page =? 1 then
      movieReducer (movieReducer state1 (SET_SEARCH_LOADING true))
        RESET_PAGINATION
    else state1 in
  match TMDBService.searchMovies remote query page with
  | Resolved response =>
      let state3 :=
        if page =? 1 then
          movieReducer state2 (SET_SEARCH_RESULTS (page_payload response))
        else
          movieReducer state2
            (APPEND_SEARCH_RESULTS (TMDBService.results response)) in
      if negb (String.eqb (trim query) "") then
        try_catch (addToSearchHistory state3 query)
          (fun e =>
             ret (movieReducer state3
                    (SET_ERROR (Some (error_message e "Failed to search movies")))))
      else ret state3
  | Rejected r =>
      ret (movieReducer state2
             (SET_ERROR (Some (rejection_message r "Failed to search movies"))))
  end.

Definition loadMoreMovies (state : MovieState) : M MovieState :=
  if negb (hasMorePages state) || loading state then ret state
  else
    let nextPage := currentPage state + 1 in
    if String.eqb (selectedCategory state) "popular" then
      ret (fetchPopularMovies nextPage state)
    else if String.eqb (selectedCategory state) "top_rated" then
      ret (fetchTopRatedMovies nextPage state)
    else if String.eqb (selectedCategory state) "upcoming" then
      ret (fetchUpcomingMovies nextPage state)
    else if String.eqb (selectedCategory state) "now_playing" then
      ret (fetchNowPlayingMovies nextPage state)
    else if negb (String.eqb (searchQuery state) "") then
      searchMovies (searchQuery state) nextPage state
    else ret state.

Definition refreshData (state : MovieState) : M MovieState :=
  let state1 := movieReducer state (SET_LOADING true) in
  if String.eqb (selectedCategory state) "popular" then
    ret (fetchPopularMovies 1 state1)
  else if String.eqb (selectedCategory state) "top_rated" then
    ret (fetchTopRatedMovies 1 state1)
  else if String.eqb (selectedCategory state) "upcoming" then
    ret (fetchUpcomingMovies 1 state1)
  else if String.eqb (selectedCategory state) "now_playing" then
    ret (fetchNowPlayingMovies 1 state1)
  else if negb (String.eqb (searchQuery state) "") then
    searchMovies (searchQuery state) 1 state1
  else ret (fetchPopularMovies 1 state1).

End WithStringPrims.

End Fetching.

End MovieContext.

(** ** Vocabulary of the statements *)

(** An instance of the string primitives on ASCII text, used to run the
    definitions on examples. *)
Definition ascii_lower (c : ascii) : ascii :=
  let n := nat_of_ascii c in
  if ((65 <=? n)%nat && (n <=? 90)%nat)%bool then ascii_of_nat (n + 32) else c.

Fixpoint ascii_toLowerCase (s : string) : string :=
  match s with
  | EmptyString => EmptyString
  | String c s' => String (ascii_lower c) (ascii_toLowerCase s')
  end.

Definition is_space (c : ascii) : bool :=
  let n := nat_of_ascii c in
  ((n =? 32)%nat || ((9 <=? n)%nat && (n <=? 13)%nat))%bool.

Fixpoint trim_left (s : string) : string :=
  match s with
  | EmptyString => EmptyString
  | String c s' => if is_space c then trim_left s' else s
  end.

Definition ascii_trim (s : string) : string :=
  String.rev (trim_left (String.rev (trim_left s))).

Definition ascii_prims : StringPrims :=
  {| toLowerCase := ascii_toLowerCase; trim := ascii_trim |}.

(** A movie that carries nothing but its identifier. *)
Definition movie_n (i : Z) : Movie := mkMovie i "" None "" "" [].

(** The fields of the metadata document of a storage: none when the
    document is absent, undefined when it is not an object. *)
Definition meta_fields (σ : gmap string json) : option (list (string * json)) :=
  match σ !! CacheService.KEYS.CACHE_METADATA with
  | None => Some []
  | Some (JObj o) => Some o
  | Some _ => None
  end.

(** The metadata document, when present, is an object. *)
Definition metadata_ok (σ : gmap string json) : Prop :=
  is_Some (meta_fields σ).

(** The cache item stored under a key, when there is one of that type. *)
Definition item_at (σ : gmap string json) (k : string)
  : option CacheService.CacheItem :=
  σ !! k ≫= CacheService.item_of_json.

(** [expired now c]: the item has a time to live and it has run out,
    [createdAt + ttl < now]. *)
Definition expired (now : Z) (c : CacheService.CacheItem) : Prop :=
  match CacheService.expiresIn c with
  | Some e => e ≠ 0 ∧ CacheService.timestamp c + e < now
  | None => False
  end.

Definition ids (l : list Movie) : list Z := map id l.

(** The storage [set] leaves behind. *)
Definition set_storage (cfg : CacheService.CacheConfig) (k : string) (v : json)
    (ttl : option Z) (t : Z) (σ : gmap string json) : gmap string json :=
  let item :=
    CacheService.item_to_json
      (CacheService.mkCacheItem v t
         (Some (CacheService.or_default ttl
                  (CacheService.defaultExpirationTime cfg)))) in
  let σ1 := <[k := item]> σ in
  <[CacheService.KEYS.CACHE_METADATA :=
      JObj (obj_set k (JNum t) (default [] (meta_fields σ1)))]> σ1.

(** The storage [remove] leaves behind. *)
Definition remove_storage (k : string) (σ : gmap string json)
  : gmap string json :=
  let σ1 := delete k σ in
  <[CacheService.KEYS.CACHE_METADATA :=
      JObj (obj_delete k (default [] (meta_fields σ1)))]> σ1.

(** The boolean test [isCacheExpired] performs at time [t]. *)
Definition expired_b (t : Z) (c : CacheService.CacheItem) : bool :=
  match CacheService.expiresIn c with
  | Some e => negb (e =? 0) && (t - CacheService.timestamp c >? e)
  | None => false
  end.

(** The entry stored under [k] is a cache item that has expired at [t]. *)
Definition expired_at (σ : gmap string json) (t : Z) (k : string) : bool :=
  match item_at σ k with
  | Some c => expired_b t c
  | None => false
  end.

(** The entries the metadata document tracks, with their timestamps. *)
Definition tracked (σ : gmap string json) : list (string * Z) :=
  default [] (meta_fields σ ≫= CacheService.entries_of).

(** Removing a list of keys, one [remove] after the other. *)
Definition remove_keys (ks : list string) (σ : gmap string json)
  : gmap string json :=
  foldl (fun s k => remove_storage k s) σ ks.

(** Entries in ascending order of timestamp. *)
Definition oldest_first (l : list (string * Z)) : Prop :=
  StronglySorted (fun a b => a.2 ≤ b.2) l.

(** The search history a storage holds: empty when the document is absent,
    undefined when it is not a list of strings. *)
Definition stored_history (σ : gmap string json) : option (list string) :=
  match σ !! StorageService.KEYS.SEARCH_HISTORY with
  | None => Some []
  | Some doc => strings_of_json doc
  end.

(** Viewing a sequence of movies, starting from a given state. *)
Definition view_all (state : FavoritesContext.FavoritesState) (ms : list Movie)
  : FavoritesContext.FavoritesState :=
  foldl
    (fun s m =>
       FavoritesContext.favoritesReducer s (FavoritesContext.ADD_RECENTLY_VIEWED m))
    state ms.

(** [touches_only K m]: whatever storage calls fail, [m] leaves the clock
    alone and changes the storage at most under the keys in [K]. *)
Definition touches_only {A} (K : string → Prop) (m : M A) : Prop :=
  ∀ w, clock (snd (m w)) = clock w ∧
       ∀ k, ¬ K k → storage (snd (m w)) !! k = storage w !! k.

(** [never_throws m]: no run of [m] ends in a thrown error. *)
Definition never_throws {A} (m : M A) : Prop :=
  ∀ w e, fst (m w) ≠ Throw e.

(** The keys of the metadata document, when it is an object, all lie in [K]. *)
Definition tracks_within (K : string → Prop) (w : World) : Prop :=
  match storage w !! CacheService.KEYS.CACHE_METADATA with
  | Some (JObj o) => ∀ k, k ∈ obj_keys o → K k
  | _ => True
  end.

(** [confined K m Q]: started with the metadata tracking keys of [K] only,
    [m] keeps it so, leaves the clock alone, changes the storage at most
    under the keys in [K], and a returned value satisfies [Q]. *)
Definition confined {A} (K : string → Prop) (m : M A) (Q : A → Prop) : Prop :=
  ∀ w, tracks_within K w →
       tracks_within K (snd (m w)) ∧
       clock (snd (m w)) = clock w ∧
       (∀ k, ¬ K k → storage (snd (m w)) !! k = storage w !! k) ∧
       (∀ a, fst (m w) = Ok a → Q a).

(** The favourites the storage service holds: empty when the document is
    absent, undefined when it is not a list of movies. *)
Definition stored_favorites (σ : gmap string json) : option (list Movie) :=
  match σ !! StorageService.KEYS.FAVORITES with
  | None => Some []
  | Some doc => movies_of_json doc
  end.

(** [persists_favorites c w]: run in [w], the provider callback [c] returns
    a state whose favourites are the list the cache then holds. *)
Definition persists_favorites (c : M FavoritesContext.FavoritesState)
    (w : World) : Prop :=
  ∃ state' w',
    c w = (Ok state', w') ∧
    fst (CacheService.getCachedFavorites w')
    = Ok (Some (FavoritesContext.favorites state')).

(** The pagination fields agree: there are more pages exactly when the
    current page is before the last one. *)
Definition pagination_ok (s : MovieContext.MovieState) : Prop :=
  MovieContext.hasMorePages s
  = (MovieContext.currentPage s <? MovieContext.totalPages s).


(** * Properties *)

(** ** The movie reducer *)

Section MovieReducer.
Import MovieContext.

(** C9. A fetch failure ([SET_ERROR]) stores the error, clears both loading
    flags and leaves every loaded list and the pagination fields (and all
    the other fields) as they were. *)
Theorem C9_set_error_keeps_loaded_data (state : MovieState) (msg : option string) :
  let state' := movieReducer state (SET_ERROR msg) in
  error state' = msg ∧
  loading state' = false ∧
  searchLoading state' = false ∧
  popularMovies state' = popularMovies state ∧
  topRatedMovies state' = topRatedMovies state ∧
  upcomingMovies state' = upcomingMovies state ∧
  nowPlayingMovies state' = nowPlayingMovies state ∧
  searchResults state' = searchResults state ∧
  currentPage state' = currentPage state ∧
  totalPages state' = totalPages state ∧
  hasMorePages state' = hasMorePages state ∧
  genres state' = genres state ∧
  favorites state' = favorites state ∧
  searchQuery state' = searchQuery state ∧
  searchHistory state' = searchHistory state ∧
  selectedCategory state' = selectedCategory state.
Proof.
  destruct state; cbn. repeat split.
Qed.

End MovieReducer.

(** ** JSON objects and the typed readings *)



Lemma obj_keys_delete k o :
  obj_keys (obj_delete k o) = List.filter (fun x => negb (String.eqb x k)) (obj_keys o).
Proof.
  unfold obj_keys. induction o as [|[k' v'] o IH]; cbn; [done|].
  destruct (String.eqb k' k); cbn; by rewrite ?IH.
Qed.

Lemma obj_delete_absent k o : k ∉ obj_keys o → obj_delete k o = o.
Proof.
  unfold obj_keys. induction o as [|[k' v'] o IH]; cbn; [done|].
  intros Hk. apply not_elem_of_cons in Hk as [Hne Hk].
  destruct (String.eqb_spec k' k); [congruence|]. by rewrite IH.
Qed.

Lemma decode_list_encode {A} (enc : A → json) (dec : json → option A) l :
  (∀ x, dec (enc x) = Some x) → decode_list dec (map enc l) = Some l.
Proof.
  intros Hrt. induction l as [|x l IH]; cbn; [done|].
  by rewrite Hrt, IH.
Qed.

Lemma movie_roundtrip m : movie_of_json (movie_to_json m) = Some m.
Proof.
  destruct m as [i t p ov r g]. unfold movie_of_json, movie_to_json. cbn.
  rewrite (decode_list_encode JNum as_num) by done. cbn.
  destruct p; reflexivity.
Qed.

Lemma movies_roundtrip l : movies_of_json (movies_to_json l) = Some l.
Proof.
  unfold movies_of_json, movies_to_json. cbn.
  apply decode_list_encode, movie_roundtrip.
Qed.

Lemma strings_roundtrip l : strings_of_json (strings_to_json l) = Some l.
Proof.
  unfold strings_of_json, strings_to_json. cbn.
  by apply decode_list_encode.
Qed.

Lemma item_roundtrip c :
  CacheService.item_of_json (CacheService.item_to_json c) = Some c.
Proof. destruct c as [d ts [e|]]; reflexivity. Qed.

(** ** Membership and duplicates in lists of movies *)

Lemma some_id_elem i l : some_id i l = true ↔ i ∈ ids l.
Proof.
  unfold some_id, ids. induction l as [|x l IH]; cbn.
  - split; [done|]. intros H; inversion H.
  - rewrite orb_true_iff, IH, elem_of_cons, Z.eqb_eq.
    split; (intros [E|?]; [left; by symmetry | by right]).
Qed.

Lemma ids_filter_sublist i l : ids (filter_id_ne i l) `sublist_of` ids l.
Proof.
  unfold ids, filter_id_ne. induction l as [|x l IH]; cbn; [constructor|].
  destruct (id x =? i); cbn; by constructor.
Qed.

Lemma ids_filter_absent i l : i ∉ ids (filter_id_ne i l).
Proof.
  unfold ids, filter_id_ne. induction l as [|x l IH]; cbn.
  - intros H; inversion H.
  - destruct (Z.eqb_spec (id x) i); cbn; [done|].
    rewrite not_elem_of_cons. split; [congruence | done].
Qed.

Lemma ids_take n l : ids (take n l) = take n (ids l).
Proof.
  unfold ids. revert n; induction l as [|x l IH]; intros [|n]; cbn; [done..|].
  by rewrite IH.
Qed.

Lemma filter_id_ne_absent i l : i ∉ ids l → filter_id_ne i l = l.
Proof.
  unfold ids, filter_id_ne. induction l as [|x l IH]; cbn; [done|].
  intros H. apply not_elem_of_cons in H as [Hne H].
  destruct (Z.eqb_spec (id x) i); [congruence|]. cbn. by rewrite IH.
Qed.

(** ** The cache service when no storage call fails *)

Section Quiet.
Import CacheService.

Lemma meta_fields_insert_ne k v σ :
  k ≠ KEYS.CACHE_METADATA → meta_fields (<[k := v]> σ) = meta_fields σ.
Proof. intros Hk. unfold meta_fields. by rewrite lookup_insert_ne. Qed.

Lemma meta_fields_delete_ne k σ :
  k ≠ KEYS.CACHE_METADATA → meta_fields (delete k σ) = meta_fields σ.
Proof. intros Hk. unfold meta_fields. by rewrite lookup_delete_ne. Qed.

Lemma meta_fields_insert_meta o σ :
  meta_fields (<[KEYS.CACHE_METADATA := JObj o]> σ) = Some o.
Proof. unfold meta_fields. by rewrite lookup_insert_eq. Qed.

Lemma meta_fields_delete_meta σ :
  meta_fields (delete KEYS.CACHE_METADATA σ) = Some [].
Proof. unfold meta_fields. by rewrite lookup_delete_eq. Qed.

Lemma metadata_ok_delete k σ : metadata_ok σ → metadata_ok (delete k σ).
Proof.
  intros Hok. unfold metadata_ok.
  destruct (decide (k = KEYS.CACHE_METADATA)) as [->|Hne].
  - by rewrite meta_fields_delete_meta.
  - by rewrite meta_fields_delete_ne.
Qed.

Lemma getCacheMetadata_quiet σ t :
  getCacheMetadata (mkWorld σ t []) =
  (match meta_fields σ with Some o => Ok o | None => Untyped end,
   mkWorld σ t []).
Proof.
  unfold getCacheMetadata, meta_fields, try_catch, AsyncStorage.getItem, bind, io.
  cbn. destruct (σ !! KEYS.CACHE_METADATA) as [[]|]; reflexivity.
Qed.

Lemma updateCacheMetadata_quiet k σ t o :
  meta_fields σ = Some o →
  updateCacheMetadata k (mkWorld σ t []) =
  (Ok tt,
   mkWorld (<[KEYS.CACHE_METADATA := JObj (obj_set k (JNum t) o)]> σ) t []).
Proof.
  intros Ho. unfold updateCacheMetadata, try_catch, bind.
  by rewrite getCacheMetadata_quiet, Ho.
Qed.

Lemma removeCacheMetadata_quiet k σ t o :
  meta_fields σ = Some o →
  removeCacheMetadata k (mkWorld σ t []) =
  (Ok tt, mkWorld (<[KEYS.CACHE_METADATA := JObj (obj_delete k o)]> σ) t []).
Proof.
  intros Ho. unfold removeCacheMetadata, try_catch, bind.
  by rewrite getCacheMetadata_quiet, Ho.
Qed.

Lemma set_quiet cfg k v ttl σ t :
  k = KEYS.CACHE_METADATA ∨ metadata_ok σ →
  set cfg k v ttl (mkWorld σ t []) =
  (Ok tt, mkWorld (set_storage cfg k v ttl t σ) t []).
Proof.
  intros Hok. unfold set, try_catch, bind, Date_now, AsyncStorage.setItem, io. cbn.
  set (item := item_to_json _).
  assert (is_Some (meta_fields (<[k := item]> σ))) as [o Ho].
  { destruct (decide (k = KEYS.CACHE_METADATA)) as [->|Hne].
    - unfold item, item_to_json. by rewrite meta_fields_insert_meta.
    - rewrite meta_fields_insert_ne by done. by destruct Hok. }
  rewrite (updateCacheMetadata_quiet _ _ _ o) by done.
  by rewrite Ho.
Qed.

Lemma remove_quiet k σ t :
  metadata_ok σ →
  remove k (mkWorld σ t []) = (Ok tt, mkWorld (remove_storage k σ) t []).
Proof.
  intros Hok. apply (metadata_ok_delete k) in Hok as [o Ho].
  unfold remove, try_catch, bind, AsyncStorage.removeItem, io. cbn.
  rewrite (removeCacheMetadata_quiet _ _ _ o) by done.
  unfold remove_storage. cbn. by rewrite Ho.
Qed.


Lemma isCacheExpired_spec c w :
  isCacheExpired c w = (Ok (expired_b (clock w) c), w).
Proof.
  unfold isCacheExpired, expired_b. destruct (expiresIn c) as [e|]; [|done].
  by destruct (e =? 0).
Qed.

Lemma expired_b_iff t c : expired_b t c = true ↔ expired t c.
Proof.
  unfold expired_b, expired. destruct (expiresIn c) as [e|]; [|done].
  rewrite andb_true_iff, negb_true_iff, Z.eqb_neq. intuition lia.
Qed.

(** Within its time to live, or without one, an item is not expired. *)
Lemma expired_b_fresh v ts e t :
  t - ts ≤ e → expired_b t (mkCacheItem v ts (Some e)) = false.
Proof.
  intros Hle. unfold expired_b. cbn.
  destruct (e =? 0); [done|]. cbn. lia.
Qed.

End Quiet.

Section Reads.
Import CacheService.

Lemma item_at_lookup σ k c :
  item_at σ k = Some c → ∃ doc, σ !! k = Some doc ∧ item_of_json doc = Some c.
Proof.
  unfold item_at. destruct (σ !! k) as [doc|]; cbn; [|done]. eauto.
Qed.

Lemma get_quiet_fresh k σ t c :
  item_at σ k = Some c →
  expired_b t c = false →
  get k (mkWorld σ t []) = (Ok (Some (data c)), mkWorld σ t []).
Proof.
  intros (doc & Hdoc & Hc)%item_at_lookup Hfresh.
  unfold get, try_catch, bind, AsyncStorage.getItem, io. cbn.
  rewrite Hdoc, Hc, isCacheExpired_spec. cbn. by rewrite Hfresh.
Qed.


Lemma set_storage_item cfg k v ttl t σ :
  item_at (set_storage cfg k v ttl t σ) k =
  Some (mkCacheItem v t (Some (or_default ttl (defaultExpirationTime cfg)))).
Proof.
  unfold item_at, set_storage.
  destruct (decide (k = KEYS.CACHE_METADATA)) as [->|Hne].
  - unfold item_to_json. rewrite lookup_insert_eq, meta_fields_insert_meta.
    reflexivity.
  - by rewrite lookup_insert_ne, lookup_insert_eq.
Qed.

End Reads.

(** C6. Round trip: with a working storage, [set k v ttl] followed by
    [get k] returns [v] provided the time to live has not elapsed between
    the two: the read comes at most [e] milliseconds after the write when
    the caller passed a time to live [e] other than 0, and at most the
    default expiration time after it when the caller passed none (or 0,
    which [set] takes as none).  This holds for every key, the metadata key
    included. *)
Theorem C6_set_then_get_returns_value
    (cfg : CacheService.CacheConfig) (k : string) (v : json) (ttl : option Z)
    (σ : gmap string json) (t d : Z) :
  k = CacheService.KEYS.CACHE_METADATA ∨ metadata_ok σ →
  (∀ e, ttl = Some e → e ≠ 0 → d ≤ e) →
  (ttl = None ∨ ttl = Some 0 → d ≤ CacheService.defaultExpirationTime cfg) →
  fst (CacheService.get k
         (elapse d (snd (CacheService.set cfg k v ttl (mkWorld σ t [])))))
  = Ok (Some v).
Proof.
  intros Hok Hgiven Hdefault.
  assert (d ≤ CacheService.or_default ttl
                (CacheService.defaultExpirationTime cfg)) as Hd.
  { destruct ttl as [e|]; cbn.
    - destruct (Z.eqb_spec e 0) as [->|Hne].
      + apply Hdefault. by right.
      + by apply Hgiven.
    - apply Hdefault. by left. }
  rewrite set_quiet by done. cbn. unfold elapse. cbn.
  pose proof (set_storage_item cfg k v ttl t σ) as Hitem.
  rewrite (get_quiet_fresh _ _ _ _ Hitem); [done|].
  apply expired_b_fresh. lia.
Qed.

Lemma C6_set_then_get_returns_value_witness :
  fst (CacheService.get "cache_genres"
         (elapse (60 * 60 * 1000)
            (snd (CacheService.set CacheService.default_config
                    "cache_genres" (JArr [JStr "Drama"; JStr "Comedy"])
                    (Some (24 * 60 * 60 * 1000)) (mkWorld ∅ 1000 [])))))
  = Ok (Some (JArr [JStr "Drama"; JStr "Comedy"])).
Proof.
  apply C6_set_then_get_returns_value.
  - right. unfold metadata_ok. vm_compute. eauto.
  - intros e [= <-] _. lia.
  - intros [Hnone | Hzero]; discriminate.
Defined.

(** ** The cache service under storage failures *)

Section Failures.
Import CacheService.

Lemma try_catch_never_throws {A} (m : M A) (h : Err → M A) w :
  (∀ e w' e', fst (h e w') ≠ Throw e') →
  ∀ e', fst (try_catch m h w) ≠ Throw e'.
Proof.
  intros Hh e'. unfold try_catch.
  destruct (m w) as [[a|e|] w']; cbn; [done | apply Hh | done].
Qed.

Lemma io_cases w :
  (∃ fs, io w = (Ok tt, mkWorld (storage w) (clock w) fs)) ∨
  (∃ fs, io w = (Throw StorageFailure, mkWorld (storage w) (clock w) fs)).
Proof.
  destruct w as [σ t [|[] fs]]; unfold io; cbn; eauto.
Qed.

Lemma getCacheMetadata_total σ t fs :
  metadata_ok σ →
  ∃ o fs', getCacheMetadata (mkWorld σ t fs) = (Ok o, mkWorld σ t fs').
Proof.
  intros [o Ho]. unfold getCacheMetadata, try_catch, AsyncStorage.getItem, bind.
  destruct (io_cases (mkWorld σ t fs)) as [[fs' ->]|[fs' ->]]; cbn; [|eauto].
  unfold meta_fields in Ho.
  destruct (σ !! KEYS.CACHE_METADATA) as [[]|]; try done; eauto.
Qed.

Lemma setItem_total k v σ t fs :
  ∃ r w', AsyncStorage.setItem k v (mkWorld σ t fs) = (r, w') ∧ r ≠ Untyped.
Proof.
  unfold AsyncStorage.setItem, bind.
  destruct (io_cases (mkWorld σ t fs)) as [[fs' ->]|[fs' ->]]; cbn; eauto.
Qed.

Lemma removeCacheMetadata_total k σ t fs :
  metadata_ok σ →
  ∃ w', removeCacheMetadata k (mkWorld σ t fs) = (Ok tt, w').
Proof.
  intros Hok. unfold removeCacheMetadata, try_catch, bind.
  destruct (getCacheMetadata_total σ t fs Hok) as (o & fs' & ->).
  destruct (setItem_total KEYS.CACHE_METADATA (JObj (obj_delete k o)) σ t fs')
    as ([[]|e|] & w' & -> & Hr); cbn; eauto. done.
Qed.

Lemma updateCacheMetadata_total k σ t fs :
  metadata_ok σ →
  ∃ w', updateCacheMetadata k (mkWorld σ t fs) = (Ok tt, w').
Proof.
  intros Hok. unfold updateCacheMetadata, try_catch, bind.
  destruct (getCacheMetadata_total σ t fs Hok) as (o & fs' & ->). cbn.
  destruct (setItem_total KEYS.CACHE_METADATA (JObj (obj_set k (JNum t) o))
              σ t fs') as ([[]|e|] & w' & -> & Hr); cbn; eauto. done.
Qed.

Lemma remove_total k σ t fs :
  metadata_ok σ → ∃ w', remove k (mkWorld σ t fs) = (Ok tt, w').
Proof.
  intros Hok. unfold remove, try_catch, AsyncStorage.removeItem, bind.
  destruct (io_cases (mkWorld σ t fs)) as [[fs' ->]|[fs' ->]]; cbn; [|eauto].
  destruct (removeCacheMetadata_total k (delete k σ) t fs') as [w' ->];
    [by apply metadata_ok_delete | eauto].
Qed.

Lemma get_expired_total k σ t fs c :
  item_at σ k = Some c → expired t c → metadata_ok σ →
  fst (get k (mkWorld σ t fs)) = Ok None.
Proof.
  intros (doc & Hdoc & Hc)%item_at_lookup Hexp Hok.
  unfold get, try_catch, AsyncStorage.getItem, bind.
  destruct (io_cases (mkWorld σ t fs)) as [[fs' ->]|[fs' ->]]; cbn; [|done].
  rewrite Hdoc, Hc, isCacheExpired_spec. cbn.
  rewrite (proj2 (expired_b_iff _ _) Hexp).
  by destruct (remove_total k σ t fs' Hok) as [w' ->].
Qed.

End Failures.

Section Sequences.
Import CacheService.

Lemma metadata_ok_set_storage cfg k v ttl t σ :
  metadata_ok (set_storage cfg k v ttl t σ).
Proof.
  unfold metadata_ok, set_storage. by rewrite meta_fields_insert_meta.
Qed.

(** Reading after the time to live has run out. *)
Lemma set_then_late_get cfg k v ttl σ t d :
  k = KEYS.CACHE_METADATA ∨ metadata_ok σ →
  or_default ttl (defaultExpirationTime cfg) ≠ 0 →
  d > or_default ttl (defaultExpirationTime cfg) →
  fst (get k (elapse d (snd (set cfg k v ttl (mkWorld σ t []))))) = Ok None.
Proof.
  intros Hok Hnz Hd. rewrite set_quiet by done. cbn. unfold elapse. cbn.
  eapply get_expired_total; [apply set_storage_item | | apply metadata_ok_set_storage].
  unfold expired. cbn. split; [done | lia].
Qed.

(** Reading within the time to live. *)
Lemma set_then_early_get cfg k v ttl σ t d :
  k = KEYS.CACHE_METADATA ∨ metadata_ok σ →
  d ≤ or_default ttl (defaultExpirationTime cfg) →
  get k (elapse d (snd (set cfg k v ttl (mkWorld σ t [])))) =
  (Ok (Some v), mkWorld (set_storage cfg k v ttl t σ) (t + d) []).
Proof.
  intros Hok Hd. rewrite set_quiet by done. cbn. unfold elapse. cbn.
  pose proof (set_storage_item cfg k v ttl t σ) as Hitem.
  rewrite (get_quiet_fresh _ _ _ _ Hitem); [done|].
  apply expired_b_fresh. lia.
Qed.

Lemma get_movies_after_get k w l w' :
  get k w = (Ok (Some (movies_to_json l)), w') →
  get_movies k w = (Ok (Some l), w').
Proof.
  intros Hget. unfold get_movies, bind. rewrite Hget.
  by rewrite movies_roundtrip.
Qed.

Lemma get_movies_none k w :
  fst (get k w) = Ok None → fst (get_movies k w) = Ok None.
Proof.
  unfold get_movies, bind. destruct (get k w) as [r w']; cbn. by intros ->.
Qed.

End Sequences.





(** C1 (the code departs from the specification). [cacheFavorites] and
    [cacheRecentlyViewed] pass no [expiresIn], so [set] stores the list with
    the default expiration time; with the default configuration a read more
    than thirty minutes after the write finds the entry expired and returns
    nothing, while a read within thirty minutes returns the list. *)
Theorem C1_favorites_expire_after_default_time
    (favs : list Movie) (σ : gmap string json) (t d : Z) :
  metadata_ok σ →
  let cfg := CacheService.default_config in
  let w := mkWorld σ t [] in
  (d > 30 * 60 * 1000 →
   fst (CacheService.getCachedFavorites
          (elapse d (snd (CacheService.cacheFavorites cfg favs w)))) = Ok None ∧
   fst (CacheService.getCachedRecentlyViewed
          (elapse d (snd (CacheService.cacheRecentlyViewed cfg favs w)))) = Ok None) ∧
  (d ≤ 30 * 60 * 1000 →
   fst (CacheService.getCachedFavorites
          (elapse d (snd (CacheService.cacheFavorites cfg favs w)))) = Ok (Some favs) ∧
   fst (CacheService.getCachedRecentlyViewed
          (elapse d (snd (CacheService.cacheRecentlyViewed cfg favs w)))) = Ok (Some favs)).
Proof.
  intros Hok cfg w. split; intros Hd.
  - split; apply get_movies_none, set_then_late_get; (by right) || done || (cbn; lia).
  - split.
    + unfold CacheService.getCachedFavorites, CacheService.cacheFavorites.
      erewrite get_movies_after_get; [done|].
      apply set_then_early_get; [by right | cbn; lia].
    + unfold CacheService.getCachedRecentlyViewed, CacheService.cacheRecentlyViewed.
      erewrite get_movies_after_get; [done|].
      apply set_then_early_get; [by right | cbn; lia].
Qed.

Lemma C1_favorites_expire_after_default_time_witness :
  let cfg := CacheService.default_config in
  let w := mkWorld ∅ 0 [] in
  fst (CacheService.getCachedFavorites
         (elapse 1800001 (snd (CacheService.cacheFavorites cfg [movie_n 42] w))))
  = Ok None.
Proof.
  intros cfg w.
  destruct (C1_favorites_expire_after_default_time [movie_n 42] ∅ 0 1800001)
    as [Hlate _].
  - unfold metadata_ok. vm_compute. eauto.
  - apply Hlate. lia.
Defined.

(** ** The favourites provider *)

Section Favorites.
Import FavoritesContext.

Lemma addToFavorites_quiet cfg state m σ t :
  metadata_ok σ →
  addToFavorites cfg state m (mkWorld σ t []) =
  (Ok (favoritesReducer state (ADD_FAVORITE m)),
   mkWorld (set_storage cfg CacheService.KEYS.FAVORITES
              (movies_to_json (m :: favorites state)) None t σ) t []).
Proof.
  intros Hok. unfold addToFavorites, try_catch, bind, CacheService.cacheFavorites.
  rewrite set_quiet by (by right). reflexivity.
Qed.

Lemma addToRecentlyViewed_quiet cfg state m σ t :
  metadata_ok σ →
  addToRecentlyViewed cfg state m (mkWorld σ t []) =
  (Ok (favoritesReducer state (ADD_RECENTLY_VIEWED m)),
   mkWorld (set_storage cfg CacheService.KEYS.RECENTLY_VIEWED
              (movies_to_json
                 (take 50 (m :: filter_id_ne (id m) (recentlyViewed state))))
              None t σ) t []).
Proof.
  intros Hok.
  unfold addToRecentlyViewed, try_catch, bind, CacheService.cacheRecentlyViewed.
  rewrite set_quiet by (by right). reflexivity.
Qed.

Lemma add_favorite_present state m :
  some_id (id m) (favorites state) = true →
  favoritesReducer state (ADD_FAVORITE m) = state.
Proof. intros H. cbn. by rewrite H. Qed.

Lemma add_favorite_absent state m :
  some_id (id m) (favorites state) = false →
  favorites (favoritesReducer state (ADD_FAVORITE m)) = m :: favorites state.
Proof. intros H. cbn. by rewrite H. Qed.

Lemma add_favorite_idempotent state m :
  favoritesReducer (favoritesReducer state (ADD_FAVORITE m)) (ADD_FAVORITE m)
  = favoritesReducer state (ADD_FAVORITE m).
Proof.
  destruct (some_id (id m) (favorites state)) eqn:E.
  - rewrite (add_favorite_present _ _ E). by apply add_favorite_present.
  - apply add_favorite_present. rewrite add_favorite_absent by done.
    cbn. by rewrite Z.eqb_refl.
Qed.

End Favorites.

(** C10. When [m]'s id is already among the favourites, [addToFavorites m]
    leaves the in-memory state as it is, while the list it writes to the
    cache is [m] in front of the previous favourites: the persisted list
    holds [m]'s id at its head and again in its tail, is not duplicate-free,
    differs from the in-memory list, and is what a later
    [getCachedFavorites] returns. *)
Theorem C10_add_present_favorite_persists_duplicate
    (cfg : CacheService.CacheConfig) (state : FavoritesContext.FavoritesState)
    (m : Movie) (σ : gmap string json) (t : Z) :
  some_id (id m) (FavoritesContext.favorites state) = true →
  metadata_ok σ →
  let favs := FavoritesContext.favorites state in
  let r := FavoritesContext.addToFavorites cfg state m (mkWorld σ t []) in
  fst r = Ok state ∧
  CacheService.data <$> item_at (storage (snd r)) CacheService.KEYS.FAVORITES
    = Some (movies_to_json (m :: favs)) ∧
  id m ∈ ids favs ∧
  ¬ NoDup (ids (m :: favs)) ∧
  m :: favs ≠ favs ∧
  (0 ≤ CacheService.defaultExpirationTime cfg →
   fst (CacheService.getCachedFavorites (snd r)) = Ok (Some (m :: favs))).
Proof.
  intros Hin Hok favs r. subst r.
  rewrite addToFavorites_quiet by done. cbn [fst snd storage].
  split; [by rewrite add_favorite_present|].
  split; [by rewrite set_storage_item|].
  apply some_id_elem in Hin.
  split; [done|].
  split.
  { unfold ids. cbn. rewrite NoDup_cons. intros [Hni _]. by apply Hni. }
  split.
  { intros Heq. apply (f_equal length) in Heq. cbn in Heq.
    apply (f_equal Z.of_nat) in Heq. lia. }
  intros Hdef. unfold CacheService.getCachedFavorites.
  erewrite get_movies_after_get; [done|].
  erewrite get_quiet_fresh; [ | apply set_storage_item | ]; [done|].
  apply expired_b_fresh. cbn. lia.
Qed.

Lemma C10_add_present_favorite_persists_duplicate_witness :
  let state := FavoritesContext.mkFavoritesState [movie_n 42] [] false None in
  let r := FavoritesContext.addToFavorites CacheService.default_config state
             (movie_n 42) (mkWorld ∅ 0 []) in
  fst r = Ok state ∧
  CacheService.data <$> item_at (storage (snd r)) CacheService.KEYS.FAVORITES
    = Some (movies_to_json [movie_n 42; movie_n 42]) ∧
  fst (CacheService.getCachedFavorites (snd r))
    = Ok (Some [movie_n 42; movie_n 42]).
Proof.
  intros state r.
  destruct (C10_add_present_favorite_persists_duplicate
              CacheService.default_config state (movie_n 42) ∅ 0)
    as (H1 & H2 & _ & _ & _ & H6).
  - reflexivity.
  - unfold metadata_ok. vm_compute. eauto.
  - split; [exact H1|]. split; [exact H2|]. apply H6. by vm_compute.
Defined.

(** C3 (the code departs from the specification). In memory [ADD_FAVORITE] is
    idempotent.  The persisted list is not: [addToFavorites] always writes
    the movie in front of the favourites of the current state, so starting
    with no favourites, one call persists [[m]] and a second call persists
    [[m; m]], which is what [getCachedFavorites] then returns. *)
Theorem C3_second_add_changes_persisted_favorites :
  (∀ state m,
     FavoritesContext.favoritesReducer
       (FavoritesContext.favoritesReducer state (FavoritesContext.ADD_FAVORITE m))
       (FavoritesContext.ADD_FAVORITE m)
     = FavoritesContext.favoritesReducer state (FavoritesContext.ADD_FAVORITE m)) ∧
  let cfg := CacheService.default_config in
  let m := movie_n 42 in
  let state1 := FavoritesContext.mkFavoritesState [m] [] false None in
  let r1 := FavoritesContext.addToFavorites cfg FavoritesContext.initialState m
              (mkWorld ∅ 0 []) in
  let r2 := FavoritesContext.addToFavorites cfg state1 m (snd r1) in
  fst r1 = Ok state1 ∧
  fst r2 = Ok state1 ∧
  fst (CacheService.getCachedFavorites (snd r1)) = Ok (Some [m]) ∧
  fst (CacheService.getCachedFavorites (snd r2)) = Ok (Some [m; m]).
Proof.
  split; [apply add_favorite_idempotent|].
  by vm_compute.
Qed.

(** ** Failure policy of the two services *)

(** C2 (amended). The cache service and the favourites provider never
    propagate a storage failure: [get], [set], [getFavorites] and the
    provider's [addToFavorites] never throw; a failed read makes [get]
    return no value and [getFavorites] the empty list; a failed write makes
    [set] a no-op and leaves the provider's in-memory update applied.  The
    storage service's write path is different by design: [saveFavorites]
    and [addToFavorites] rethrow a failed write as an [Error]. *)
Theorem C2_cache_fails_soft_storage_writes_rethrow :
  (∀ k w e, fst (CacheService.get k w) ≠ Throw e) ∧
  (∀ cfg k v ttl w e, fst (CacheService.set cfg k v ttl w) ≠ Throw e) ∧
  (∀ w e, fst (StorageService.getFavorites w) ≠ Throw e) ∧
  (∀ cfg state m w e,
     fst (FavoritesContext.addToFavorites cfg state m w) ≠ Throw e) ∧
  (∀ k σ t fs,
     CacheService.get k (mkWorld σ t (true :: fs)) = (Ok None, mkWorld σ t fs)) ∧
  (∀ σ t fs,
     StorageService.getFavorites (mkWorld σ t (true :: fs))
     = (Ok [], mkWorld σ t fs)) ∧
  (∀ cfg k v ttl σ t fs,
     CacheService.set cfg k v ttl (mkWorld σ t (true :: fs))
     = (Ok tt, mkWorld σ t fs)) ∧
  (∀ cfg state m σ t fs,
     FavoritesContext.addToFavorites cfg state m (mkWorld σ t (true :: fs))
     = (Ok (FavoritesContext.favoritesReducer state
              (FavoritesContext.ADD_FAVORITE m)),
        mkWorld σ t fs)) ∧
  (∀ favs σ t fs,
     StorageService.saveFavorites favs (mkWorld σ t (true :: fs))
     = (Throw (Error "Failed to save favorites"), mkWorld σ t fs)) ∧
  (∀ m favs σ t fs,
     σ !! StorageService.KEYS.FAVORITES = Some (movies_to_json favs) →
     some_id (id m) favs = false →
     StorageService.addToFavorites m (mkWorld σ t (false :: true :: fs))
     = (Throw (Error "Failed to add to favorites"), mkWorld σ t fs)).
Proof.
  repeat apply conj.
  - intros k w e. by apply try_catch_never_throws.
  - intros cfg k v ttl w e. by apply try_catch_never_throws.
  - intros w e. by apply try_catch_never_throws.
  - intros cfg state m w e. by apply try_catch_never_throws.
  - reflexivity.
  - reflexivity.
  - reflexivity.
  - reflexivity.
  - reflexivity.
  - intros m favs σ t fs Hσ Hm.
    unfold StorageService.addToFavorites, StorageService.getFavorites,
      StorageService.saveFavorites, try_catch, bind, AsyncStorage.getItem,
      AsyncStorage.setItem, io. cbn.
    rewrite Hσ, movies_roundtrip. cbn. by rewrite Hm.
Qed.

Lemma C2_cache_fails_soft_storage_writes_rethrow_witness :
  let σ : gmap string json :=
    {[ StorageService.KEYS.FAVORITES := movies_to_json [movie_n 7] ]} in
  σ !! StorageService.KEYS.FAVORITES = Some (movies_to_json [movie_n 7]) ∧
  some_id (id (movie_n 42)) [movie_n 7] = false ∧
  StorageService.addToFavorites (movie_n 42) (mkWorld σ 0 [false; true])
  = (Throw (Error "Failed to add to favorites"), mkWorld σ 0 []).
Proof.
  intros σ.
  assert (σ !! StorageService.KEYS.FAVORITES = Some (movies_to_json [movie_n 7]))
    as Hσ by (by vm_compute).
  assert (some_id (id (movie_n 42)) [movie_n 7] = false) as Hm by reflexivity.
  split; [exact Hσ|]. split; [exact Hm|].
  exact (proj2 (proj2 (proj2 (proj2 (proj2 (proj2 (proj2 (proj2 (proj2
           C2_cache_fails_soft_storage_writes_rethrow))))))))
           (movie_n 42) [movie_n 7] σ 0 [] Hσ Hm).
Defined.

(** C2, the unamended statement fails: with a readable storage whose next write
    fails, adding a favourite through the storage service throws. *)
Lemma C2_storage_add_favorite_throws :
  fst (StorageService.addToFavorites (movie_n 42) (mkWorld ∅ 0 [false; true]))
  = Throw (Error "Failed to add to favorites").
Proof. by vm_compute. Qed.

(** ** Recently viewed *)

Section RecentlyViewed.
Import FavoritesContext.

(** The list [ADD_RECENTLY_VIEWED] produces. *)
Lemma add_recent_list state m :
  recentlyViewed (favoritesReducer state (ADD_RECENTLY_VIEWED m))
  = take 50 (m :: filter_id_ne (id m) (recentlyViewed state)).
Proof. reflexivity. Qed.

Lemma add_recent_NoDup l m :
  NoDup (ids l) → NoDup (ids (take 50 (m :: filter_id_ne (id m) l))).
Proof.
  intros Hnd. rewrite ids_take.
  eapply sublist_NoDup; [|apply sublist_take].
  unfold ids at 1. cbn. fold (ids (filter_id_ne (id m) l)).
  apply NoDup_cons. split; [apply ids_filter_absent|].
  eapply sublist_NoDup; [done | apply ids_filter_sublist].
Qed.

Lemma view_all_cons state m ms :
  view_all state (m :: ms)
  = view_all (favoritesReducer state (ADD_RECENTLY_VIEWED m)) ms.
Proof. reflexivity. Qed.

Lemma view_all_NoDup state ms :
  NoDup (ids (recentlyViewed state)) →
  NoDup (ids (recentlyViewed (view_all state ms))).
Proof.
  revert state. induction ms as [|m ms IH]; intros state Hnd; [done|].
  rewrite view_all_cons. apply IH.
  rewrite add_recent_list. by apply add_recent_NoDup.
Qed.

Lemma view_all_length state ms :
  (length (recentlyViewed state) ≤ 50)%nat →
  (length (recentlyViewed (view_all state ms)) ≤ 50)%nat.
Proof.
  revert state. induction ms as [|m ms IH]; intros state Hlen; [done|].
  rewrite view_all_cons. apply IH. rewrite add_recent_list, length_take. lia.
Qed.

End RecentlyViewed.

(** C7. [addRecentlyViewed m] yields [m] followed by the previous entries
    whose id differs from [m]'s, cut to 50: the list has at most 50 entries,
    starts with [m], holds [m]'s id nowhere else, and is free of duplicate
    ids whenever the previous list was, so every list built by viewing
    movies one after another is; the provider persists the same list; and
    viewing the movies 1..51 in order leaves 50 entries without movie 1. *)
Theorem C7_recently_viewed_capped_and_duplicate_free
    (state : FavoritesContext.FavoritesState) (m : Movie) :
  let l := FavoritesContext.recentlyViewed state in
  let l' :=
    FavoritesContext.recentlyViewed
      (FavoritesContext.favoritesReducer state
         (FavoritesContext.ADD_RECENTLY_VIEWED m)) in
  l' = take 50 (m :: filter_id_ne (id m) l) ∧
  (length l' ≤ 50)%nat ∧
  head l' = Some m ∧
  (id m ∉ ids (tail l')) ∧
  (NoDup (ids l) → NoDup (ids l')) ∧
  (∀ ms,
     let s := view_all FavoritesContext.initialState ms in
     NoDup (ids (FavoritesContext.recentlyViewed s)) ∧
     (length (FavoritesContext.recentlyViewed s) ≤ 50)%nat) ∧
  (∀ cfg σ t,
     metadata_ok σ →
     let r := FavoritesContext.addToRecentlyViewed cfg state m (mkWorld σ t []) in
     fst r = Ok (FavoritesContext.favoritesReducer state
                   (FavoritesContext.ADD_RECENTLY_VIEWED m)) ∧
     CacheService.data <$>
       item_at (storage (snd r)) CacheService.KEYS.RECENTLY_VIEWED
     = Some (movies_to_json l')) ∧
  (let s51 :=
     view_all FavoritesContext.initialState (map movie_n (seqZ 1 51)) in
   length (FavoritesContext.recentlyViewed s51) = 50%nat ∧
   (1 ∉ ids (FavoritesContext.recentlyViewed s51)) ∧
   ids (FavoritesContext.recentlyViewed s51) = reverse (seqZ 2 50)).
Proof.
  intros l l'. subst l l'. rewrite add_recent_list.
  repeat apply conj.
  - reflexivity.
  - rewrite length_take. lia.
  - reflexivity.
  - cbn [take tail].
    intros Hin. eapply (ids_filter_absent (id m)).
    rewrite ids_take in Hin.
    eapply elem_of_sublist; [exact Hin | apply sublist_take].
  - apply add_recent_NoDup.
  - intros ms. split.
    + apply view_all_NoDup. constructor.
    + apply view_all_length. cbn. lia.
  - intros cfg σ t Hok. rewrite addToRecentlyViewed_quiet by done.
    cbn [fst snd storage]. split; [done|]. by rewrite set_storage_item.
  - by vm_compute.
  - vm_compute. intros Hin.
    repeat (apply elem_of_cons in Hin as [Hin|Hin]; [discriminate|]).
    inversion Hin.
  - by vm_compute.
Qed.

Lemma C7_recently_viewed_capped_and_duplicate_free_witness :
  let state :=
    FavoritesContext.mkFavoritesState [] [movie_n 1; movie_n 2] false None in
  let l' :=
    FavoritesContext.recentlyViewed
      (FavoritesContext.favoritesReducer state
         (FavoritesContext.ADD_RECENTLY_VIEWED (movie_n 2))) in
  NoDup (ids [movie_n 1; movie_n 2]) ∧
  metadata_ok ∅ ∧
  l' = [movie_n 2; movie_n 1] ∧
  NoDup (ids l') ∧
  CacheService.data <$>
    item_at
      (storage (snd (FavoritesContext.addToRecentlyViewed
                       CacheService.default_config state (movie_n 2)
                       (mkWorld ∅ 0 []))))
      CacheService.KEYS.RECENTLY_VIEWED
  = Some (movies_to_json l').
Proof.
  intros state l'.
  assert (NoDup (ids [movie_n 1; movie_n 2])) as Hnd.
  { apply (bool_decide_unpack _). by vm_compute. }
  assert (metadata_ok ∅) as Hok.
  { unfold metadata_ok. vm_compute. eauto. }
  destruct (C7_recently_viewed_capped_and_duplicate_free state (movie_n 2))
    as (H1 & _ & _ & _ & H5 & _ & H7 & _).
  split; [exact Hnd|]. split; [exact Hok|]. split; [exact H1|].
  split; [exact (H5 Hnd)|].
  exact (proj2 (H7 CacheService.default_config ∅ 0 Hok)).
Defined.

(** ** Search history *)

Section SearchHistory.
Context `{StringPrims}.
Import StorageService.

Lemma filter_query_ne_sublist q h :
  map toLowerCase (filter_query_ne q h) `sublist_of` map toLowerCase h.
Proof.
  unfold filter_query_ne. induction h as [|x h IH]; cbn; [constructor|].
  destruct (String.eqb (toLowerCase x) (toLowerCase q)); cbn; by constructor.
Qed.

Lemma filter_query_ne_keeps_order q h : filter_query_ne q h `sublist_of` h.
Proof.
  unfold filter_query_ne. induction h as [|x h IH]; cbn; [constructor|].
  destruct (String.eqb (toLowerCase x) (toLowerCase q)); cbn; by constructor.
Qed.

Lemma filter_query_ne_absent q h x :
  x ∈ filter_query_ne q h → toLowerCase x ≠ toLowerCase q.
Proof.
  unfold filter_query_ne. induction h as [|y h IH]; cbn.
  - intros Hin; inversion Hin.
  - destruct (String.eqb_spec (toLowerCase y) (toLowerCase q)); cbn; [done|].
    intros [->|Hin]%elem_of_cons; [done | by apply IH].
Qed.

Lemma filter_query_ne_subset q h x :
  x ∈ filter_query_ne q h → x ∈ h.
Proof.
  unfold filter_query_ne. induction h as [|y h IH]; cbn; [done|].
  destruct (String.eqb (toLowerCase y) (toLowerCase q)); cbn.
  - intros Hin. right. by apply IH.
  - intros [->|Hin]%elem_of_cons; [left | right; by apply IH].
Qed.

Lemma lower_query_absent q h :
  toLowerCase q ∉ map toLowerCase (filter_query_ne q h).
Proof.
  intros Hin. apply list_elem_of_In, in_map_iff in Hin as (x & Hx & Hin).
  apply list_elem_of_In in Hin. by apply filter_query_ne_absent in Hin.
Qed.

Lemma getSearchHistory_quiet σ t h :
  stored_history σ = Some h →
  getSearchHistory (mkWorld σ t []) = (Ok h, mkWorld σ t []).
Proof.
  unfold stored_history, getSearchHistory, try_catch, bind,
    AsyncStorage.getItem, io. cbn.
  destruct (σ !! KEYS.SEARCH_HISTORY) as [doc|]; cbn.
  - by intros ->.
  - by intros [= <-].
Qed.

Lemma addToSearchHistory_quiet q h σ t :
  trim q ≠ "" →
  stored_history σ = Some h →
  let h' := take MAX_SEARCH_HISTORY (q :: filter_query_ne q h) in
  addToSearchHistory q (mkWorld σ t []) =
  (Ok h', mkWorld (<[KEYS.SEARCH_HISTORY := strings_to_json h']> σ) t []).
Proof.
  intros Hq Hh h'. unfold addToSearchHistory, try_catch.
  apply String.eqb_neq in Hq. rewrite Hq. unfold bind at 1.
  rewrite (getSearchHistory_quiet _ _ _ Hh).
  unfold saveSearchHistory, try_catch, bind, AsyncStorage.setItem, io.
  cbn [faults storage clock].
  fold h'. replace (take MAX_SEARCH_HISTORY h') with h'; [done|].
  unfold h'. by rewrite take_take, Nat.min_id.
Qed.

End SearchHistory.

(** C8. Adding a committed (non-blank) query [q] to the search history,
    with a working storage, stores and returns [q] followed by the previous
    entries that differ from [q] ignoring letter case, cut to 10: [q] is at
    index 0, the list has at most 10 entries, no other entry equals [q]
    ignoring case, the older entries keep their relative order, and the list
    is duplicate-free ignoring case whenever the previous one was; the movie
    provider installs that list as its history. *)
Theorem C8_search_history_dedup_capped_recent_first
    `{StringPrims} (q : string) (h : list string)
    (σ : gmap string json) (t : Z) :
  trim q ≠ "" →
  stored_history σ = Some h →
  let h' := take 10 (q :: StorageService.filter_query_ne q h) in
  StorageService.addToSearchHistory q (mkWorld σ t [])
  = (Ok h',
     mkWorld (<[StorageService.KEYS.SEARCH_HISTORY := strings_to_json h']> σ)
       t []) ∧
  h' !! 0%nat = Some q ∧
  (length h' ≤ 10)%nat ∧
  (∀ x, x ∈ tail h' → toLowerCase x ≠ toLowerCase q ∧ x ∈ h) ∧
  tail h' `sublist_of` h ∧
  (NoDup (map toLowerCase h) → NoDup (map toLowerCase h')) ∧
  (∀ state,
     fst (MovieContext.addToSearchHistory state q (mkWorld σ t []))
     = Ok (MovieContext.movieReducer state (MovieContext.SET_SEARCH_HISTORY h'))
     ∧ MovieContext.searchHistory
         (MovieContext.movieReducer state (MovieContext.SET_SEARCH_HISTORY h'))
       = h').
Proof.
  intros Hq Hh h'.
  pose proof (addToSearchHistory_quiet q h σ t Hq Hh) as Hrun.
  cbn zeta in Hrun. change (take StorageService.MAX_SEARCH_HISTORY _) with h' in Hrun.
  repeat apply conj.
  - exact Hrun.
  - reflexivity.
  - unfold h'. rewrite length_take. lia.
  - intros x Hx. unfold h' in Hx. cbn [take tail] in Hx.
    apply elem_of_take in Hx as (i & Hx & _).
    apply list_elem_of_lookup_2 in Hx.
    split; [by eapply filter_query_ne_absent | by eapply filter_query_ne_subset].
  - unfold h'. cbn [take tail].
    etrans; [apply sublist_take | apply filter_query_ne_keeps_order].
  - intros Hnd. unfold h'.
    change (map toLowerCase (take 10 ?l)) with (toLowerCase <$> take 10 l).
    rewrite fmap_take. eapply sublist_NoDup; [|apply sublist_take].
    cbn. apply NoDup_cons. split; [apply lower_query_absent|].
    eapply sublist_NoDup; [exact Hnd | apply filter_query_ne_sublist].
  - unfold MovieContext.addToSearchHistory, try_catch, bind.
    rewrite Hrun. intros state. split; [reflexivity | by destruct state].
Qed.

Lemma C8_search_history_dedup_capped_recent_first_witness :
  let σ : gmap string json :=
    {[ StorageService.KEYS.SEARCH_HISTORY :=
         strings_to_json ["Alien"; "matrix"; "Heat"] ]} in
  @trim ascii_prims "MATRIX" ≠ "" ∧
  stored_history σ = Some ["Alien"; "matrix"; "Heat"] ∧
  fst (@StorageService.addToSearchHistory ascii_prims "MATRIX" (mkWorld σ 0 []))
  = Ok ["MATRIX"; "Alien"; "Heat"] ∧
  NoDup (map (@toLowerCase ascii_prims) ["MATRIX"; "Alien"; "Heat"]).
Proof.
  intros σ.
  assert (@trim ascii_prims "MATRIX" ≠ "") as Hq by (by vm_compute).
  assert (stored_history σ = Some ["Alien"; "matrix"; "Heat"]) as Hh
    by (by vm_compute).
  destruct (@C8_search_history_dedup_capped_recent_first ascii_prims
              "MATRIX" ["Alien"; "matrix"; "Heat"] σ 0 Hq Hh)
    as (Hrun & _ & _ & _ & _ & Hnd & _).
  split; [exact Hq|]. split; [exact Hh|]. split.
  - rewrite Hrun. by vm_compute.
  - apply Hnd. apply (bool_decide_unpack _). by vm_compute.
Defined.

(** ** Sorting the metadata entries *)

Section Sorting.
Import CacheService.

Lemma insert_entry_perm e l : insert_entry e l ≡ₚ e :: l.
Proof.
  induction l as [|e' l IH]; cbn; [done|].
  destruct (e.2 <? e'.2); [done|].
  rewrite IH. apply Permutation_swap.
Qed.

Lemma insert_entry_sorted e l : oldest_first l → oldest_first (insert_entry e l).
Proof.
  unfold oldest_first. induction 1 as [|e' l Hl IH He']; cbn.
  - repeat constructor.
  - destruct (Z.ltb_spec e.2 e'.2) as [Hlt|Hge].
    + constructor; [by constructor|].
      constructor; [lia|].
      eapply Forall_impl; [exact He'|]. cbn. intros; lia.
    + constructor; [done|].
      rewrite insert_entry_perm. by constructor.
Qed.

Lemma sort_entries_from acc l :
  foldl (fun acc e => insert_entry e acc) acc l ≡ₚ l ++ acc ∧
  (oldest_first acc → oldest_first (foldl (fun acc e => insert_entry e acc) acc l)).
Proof.
  revert acc. induction l as [|e l IH]; intros acc; cbn; [done|].
  destruct (IH (insert_entry e acc)) as [Hp Hs]. split.
  - rewrite Hp, insert_entry_perm. by rewrite Permutation_middle.
  - intros Hacc. by apply Hs, insert_entry_sorted.
Qed.

Lemma sort_entries_perm l : sort_entries l ≡ₚ l.
Proof.
  unfold sort_entries. rewrite (proj1 (sort_entries_from [] l)).
  by rewrite app_nil_r.
Qed.



End Sorting.

(** ** Removing keys, and the two passes of the sweep *)

Section Sweep.
Import CacheService.

Lemma obj_delete_filter k o : obj_delete k o = filter (λ kv, kv.1 ≠ k) o.
Proof.
  induction o as [|[k' v'] o IH]; [done|]. cbn [obj_delete].
  destruct (String.eqb_spec k' k) as [->|Hne].
  - by rewrite filter_cons_False by (cbn; auto).
  - by rewrite filter_cons_True, IH by done.
Qed.

Lemma filter_agree {A} (P Q : A → Prop)
    `{∀ x, Decision (P x)} `{∀ x, Decision (Q x)} (l : list A) :
  (∀ x, x ∈ l → P x ↔ Q x) → filter P l = filter Q l.
Proof.
  induction l as [|x l IH]; intros Hpq; [done|].
  rewrite !filter_cons.
  rewrite IH by (intros y Hy; apply Hpq; by right).
  destruct (decide (P x)) as [Hp|Hp], (decide (Q x)) as [Hq|Hq];
    try done; exfalso; apply (Hpq x) in Hp || apply (Hpq x) in Hq;
    try done; by left.
Qed.

Lemma remove_storage_ne k s o :
  k ≠ KEYS.CACHE_METADATA → meta_fields s = Some o →
  remove_storage k s = <[KEYS.CACHE_METADATA := JObj (obj_delete k o)]> (delete k s).
Proof.
  intros Hne Ho. unfold remove_storage.
  by rewrite meta_fields_delete_ne, Ho.
Qed.

Lemma metadata_ok_remove_storage k s : metadata_ok (remove_storage k s).
Proof. unfold metadata_ok, remove_storage. by rewrite meta_fields_insert_meta. Qed.

Lemma remove_storage_lookup_other k k' s :
  k' ≠ k → k' ≠ KEYS.CACHE_METADATA → remove_storage k s !! k' = s !! k'.
Proof.
  intros Hk Hm. unfold remove_storage.
  by rewrite lookup_insert_ne, lookup_delete_ne.
Qed.

Lemma remove_keys_cons x X s :
  remove_keys (x :: X) s = remove_keys X (remove_storage x s).
Proof. reflexivity. Qed.

Lemma remove_keys_lookup_out X s k :
  k ∉ X → k ≠ KEYS.CACHE_METADATA → remove_keys X s !! k = s !! k.
Proof.
  revert s. induction X as [|x X IH]; intros s Hk Hm; [done|].
  apply not_elem_of_cons in Hk as [Hne Hk]. rewrite remove_keys_cons.
  rewrite IH by done. by apply remove_storage_lookup_other.
Qed.


Lemma filter_all {A} (P : A → Prop) `{∀ x, Decision (P x)} (l : list A) :
  (∀ x, x ∈ l → P x) → filter P l = l.
Proof.
  induction l as [|x l IH]; intros Hp; [done|].
  rewrite filter_cons_True by (apply Hp; by left).
  rewrite IH; [done|]. intros y Hy. apply Hp. by right.
Qed.

Lemma remove_keys_meta X s o :
  KEYS.CACHE_METADATA ∉ X → meta_fields s = Some o →
  meta_fields (remove_keys X s) = Some (filter (λ kv, kv.1 ∉ X) o).
Proof.
  revert s o. induction X as [|x X IH]; intros s o Hm Ho.
  - cbn. rewrite Ho. f_equal. symmetry. apply filter_all.
    intros kv _ Hin. inversion Hin.
  - apply not_elem_of_cons in Hm as [Hxm Hm]. rewrite remove_keys_cons.
    rewrite (remove_storage_ne x s o) by done.
    rewrite (IH _ (obj_delete x o)) by (done || apply meta_fields_insert_meta).
    f_equal. rewrite obj_delete_filter, list_filter_filter.
    apply filter_agree. intros kv _. rewrite not_elem_of_cons. tauto.
Qed.

Lemma for_of_remove X s t :
  metadata_ok s →
  for_of X (fun k => remove k) (mkWorld s t [])
  = (Ok tt, mkWorld (remove_keys X s) t []).
Proof.
  revert s. induction X as [|x X IH]; intros s Hok; [done|].
  cbn [for_of fmap list_fmap]. unfold bind. rewrite remove_quiet by done.
  rewrite remove_keys_cons.
  rewrite IH by apply metadata_ok_remove_storage. done.
Qed.

Lemma for_of_remove_entries (l : list (string * Z)) s t :
  metadata_ok s →
  for_of l (fun e => remove e.1) (mkWorld s t [])
  = (Ok tt, mkWorld (remove_keys l.*1 s) t []).
Proof.
  revert s. induction l as [|e l IH]; intros s Hok; [done|].
  cbn [for_of fmap list_fmap]. unfold bind. rewrite remove_quiet by done.
  rewrite remove_keys_cons.
  rewrite IH by apply metadata_ok_remove_storage. done.
Qed.

Lemma expired_at_agree s s' t k :
  s' !! k = s !! k → expired_at s' t k = expired_at s t k.
Proof. intros Heq. unfold expired_at, item_at. by rewrite Heq. Qed.

(** The first pass: every tracked key whose entry has expired is removed. *)
Lemma expiry_pass ks s t :
  metadata_ok s →
  KEYS.CACHE_METADATA ∉ ks →
  NoDup ks →
  (∀ k, k ∈ ks → s !! k = None ∨ is_Some (item_at s k)) →
  for_of ks (fun key =>
     let* cached := AsyncStorage.getItem key in
     match cached with
     | None => ret tt
     | Some doc =>
         match item_of_json doc with
         | None => untyped
         | Some cacheItem =>
             let* expired := isCacheExpired cacheItem in
             if expired then remove key else ret tt
         end
     end) (mkWorld s t [])
  = (Ok tt,
     mkWorld (remove_keys (filter (λ k, expired_at s t k = true) ks) s) t []).
Proof.
  revert s. induction ks as [|k ks IH]; intros s Hok Hm Hnd Hty; [done|].
  apply not_elem_of_cons in Hm as [Hkm Hm].
  apply NoDup_cons in Hnd as [Hk Hnd].
  cbn [for_of]. unfold bind at 1. unfold bind at 1.
  unfold AsyncStorage.getItem at 1. unfold bind at 1, io at 1.
  cbn [faults storage clock].
  assert (Hcase : s !! k = None ∨ is_Some (item_at s k)) by (apply Hty; by left).
  destruct Hcase as [Hnone|[c Hc]].
  - assert (expired_at s t k = false) as Hb.
    { unfold expired_at, item_at. by rewrite Hnone. }
    rewrite filter_cons_False by (by rewrite Hb).
    rewrite Hnone. unfold ret at 1.
    apply IH; try done. intros k' Hk'. apply Hty. by right.
  - assert (expired_at s t k = expired_b t c) as Hb.
    { unfold expired_at. by rewrite Hc. }
    apply item_at_lookup in Hc as (doc & Hdoc & Hc).
    rewrite Hdoc, Hc.
    unfold bind at 1. rewrite isCacheExpired_spec. cbn [clock].
    destruct (expired_b t c) eqn:Hexp.
    + rewrite filter_cons_True by done. rewrite remove_quiet by done.
      rewrite remove_keys_cons.
      rewrite IH; try done.
      * do 3 f_equal. apply filter_agree. intros k' Hk'.
        rewrite (expired_at_agree s (remove_storage k s)); [done|].
        apply remove_storage_lookup_other; [|congruence].
        intros ->. done.
      * apply metadata_ok_remove_storage.
      * intros k' Hk'.
        assert (k' ≠ k) by (intros ->; done).
        assert (k' ≠ KEYS.CACHE_METADATA) by congruence.
        unfold item_at. rewrite remove_storage_lookup_other by done.
        apply Hty. by right.
    + rewrite filter_cons_False by (by rewrite Hb). unfold ret at 1.
      apply IH; try done. intros k' Hk'. apply Hty. by right.
Qed.

End Sweep.

Section Enforce.
Import CacheService.

Lemma entries_of_cons_inv k v o es :
  entries_of ((k, v) :: o) = Some es →
  ∃ n es', v = JNum n ∧ entries_of o = Some es' ∧ es = (k, n) :: es'.
Proof.
  cbn. destruct v as [| |n| | |]; try done.
  destruct (entries_of o) as [es'|]; cbn; [|done].
  intros [= <-]. eauto.
Qed.

Lemma entries_of_keys o es : entries_of o = Some es → obj_keys o = es.*1.
Proof.
  revert es. induction o as [|[k v] o IH]; intros es Hes.
  - by injection Hes as <-.
  - apply entries_of_cons_inv in Hes as (n & es' & -> & Hes' & ->).
    cbn. f_equal. by apply IH.
Qed.

Lemma entries_of_length o es : entries_of o = Some es → length o = length es.
Proof.
  intros Hes. apply entries_of_keys in Hes. unfold obj_keys in Hes.
  apply (f_equal length) in Hes. by rewrite length_map, length_fmap in Hes.
Qed.

Lemma entries_of_filter (P : string → Prop) `{∀ k, Decision (P k)} o es :
  entries_of o = Some es →
  entries_of (filter (λ kv, P kv.1) o) = Some (filter (λ e, P e.1) es).
Proof.
  revert es. induction o as [|[k v] o IH]; intros es Hes.
  - by injection Hes as <-.
  - apply entries_of_cons_inv in Hes as (n & es' & -> & Hes' & ->).
    rewrite !filter_cons. cbn [fst].
    destruct (decide (P k)); [|by apply IH].
    cbn [entries_of]. by rewrite (IH es').
Qed.

Lemma enforceCacheSize_quiet cfg s t o es :
  meta_fields s = Some o →
  entries_of o = Some es →
  enforceCacheSize cfg (mkWorld s t [])
  = (Ok tt,
     mkWorld
       (remove_keys
          (if Z.of_nat (length es) >? maxCacheSize cfg
           then (take (Z.to_nat (Z.of_nat (length es) - maxCacheSize cfg))
                   (sort_entries es)).*1
           else []) s) t []).
Proof.
  intros Ho Hes. unfold enforceCacheSize, try_catch, bind.
  rewrite getCacheMetadata_quiet, Ho.
  rewrite (entries_of_length _ _ Hes).
  destruct (Z.of_nat (length es) >? maxCacheSize cfg); [|done].
  rewrite Hes. rewrite for_of_remove_entries; [done|].
  unfold metadata_ok. by rewrite Ho.
Qed.

(** The keys the two passes remove. *)
Lemma cleanupExpiredItems_quiet cfg σ t o es :
  meta_fields σ = Some o →
  entries_of o = Some es →
  NoDup es.*1 →
  KEYS.CACHE_METADATA ∉ es.*1 →
  (∀ k, k ∈ es.*1 → σ !! k = None ∨ is_Some (item_at σ k)) →
  let X := filter (λ k, expired_at σ t k = true) es.*1 in
  let S := filter (λ e, e.1 ∉ X) es in
  let Y :=
    if Z.of_nat (length S) >? maxCacheSize cfg
    then (take (Z.to_nat (Z.of_nat (length S) - maxCacheSize cfg))
            (sort_entries S)).*1
    else [] in
  cleanupExpiredItems cfg (mkWorld σ t [])
  = (Ok tt, mkWorld (remove_keys Y (remove_keys X σ)) t []) ∧
  tracked (remove_keys Y (remove_keys X σ)) = filter (λ e, e.1 ∉ Y) S.
Proof.
  intros Ho Hes Hnd Hm Hty X S Y.
  assert (KEYS.CACHE_METADATA ∉ X) as HmX.
  { unfold X. rewrite list_elem_of_filter. tauto. }
  assert (meta_fields (remove_keys X σ) = Some (filter (λ kv, kv.1 ∉ X) o)) as Ho1.
  { by apply remove_keys_meta. }
  assert (entries_of (filter (λ kv, kv.1 ∉ X) o) = Some S) as HS.
  { exact (entries_of_filter (λ k, k ∉ X) o es Hes). }
  assert (S `sublist_of` es) as HSsub by apply sublist_filter.
  assert (KEYS.CACHE_METADATA ∉ Y) as HmY.
  { unfold Y. destruct (_ >? _); [|by apply not_elem_of_nil].
    intros Hin. apply Hm.
    apply list_elem_of_fmap in Hin as (e & -> & He).
    apply list_elem_of_fmap. exists e. split; [done|].
    eapply elem_of_sublist; [|exact HSsub].
    rewrite <- (sort_entries_perm S).
    eapply elem_of_sublist; [exact He | apply sublist_take]. }
  split.
  - unfold cleanupExpiredItems, try_catch. unfold bind at 1.
    rewrite getCacheMetadata_quiet, Ho.
    unfold bind at 1. rewrite (entries_of_keys _ _ Hes).
    rewrite expiry_pass; try done; [|unfold metadata_ok; by rewrite Ho].
    fold X. by rewrite (enforceCacheSize_quiet _ _ _ _ S Ho1 HS).
  - unfold tracked. rewrite (remove_keys_meta Y _ _ HmY Ho1).
    unfold mbind, option_bind.
    pose proof (entries_of_filter (λ k, k ∉ Y) _ S HS) as HY.
    cbv beta in HY. by rewrite HY.
Qed.

End Enforce.

(** ** Which entries the size limit evicts *)

Section Eviction.
Import CacheService.

Lemma NoDup_keys_inj {B} (l : list (string * B)) e e' :
  NoDup l.*1 → e ∈ l → e' ∈ l → e.1 = e'.1 → e = e'.
Proof.
  induction l as [|x l IH]; intros Hnd He He' Hk; [by inversion He|].
  cbn in Hnd. apply NoDup_cons in Hnd as [Hx Hnd].
  apply elem_of_cons in He as [->|He], He' as [->|He']; try done.
  - exfalso. apply Hx. rewrite Hk. by apply list_elem_of_fmap_2.
  - exfalso. apply Hx. rewrite <- Hk. by apply list_elem_of_fmap_2.
  - by apply IH.
Qed.

Lemma filter_none {A} (P : A → Prop) `{∀ x, Decision (P x)} (l : list A) :
  (∀ x, x ∈ l → ¬ P x) → filter P l = [].
Proof.
  induction l as [|x l IH]; intros Hp; [done|].
  rewrite filter_cons_False by (apply Hp; by left).
  apply IH. intros y Hy. apply Hp. by right.
Qed.

Section WithEntries.
Variable ents : list (string * Z).
Variable n : nat.
Hypothesis Hnd : NoDup ents.*1.

Lemma sorted_keys_NoDup : NoDup (sort_entries ents).*1.
Proof. by rewrite sort_entries_perm. Qed.

Lemma in_sorted e : e ∈ sort_entries ents ↔ e ∈ ents.
Proof. by rewrite sort_entries_perm. Qed.

Lemma evicted_key_iff e :
  e ∈ ents →
  e.1 ∈ (take n (sort_entries ents)).*1 ↔ e ∈ take n (sort_entries ents).
Proof.
  intros He. split.
  - intros (e0 & Hk & He0)%list_elem_of_fmap.
    assert (e0 ∈ sort_entries ents)
      by (eapply elem_of_sublist; [done | apply sublist_take]).
    assert (e = e0) as ->; [|done].
    apply (NoDup_keys_inj (sort_entries ents));
      [apply sorted_keys_NoDup | by apply in_sorted | done..].
  - intros Hin. by apply list_elem_of_fmap_2.
Qed.

Lemma kept_key_iff e :
  e ∈ ents →
  e.1 ∉ (take n (sort_entries ents)).*1 ↔ e ∈ drop n (sort_entries ents).
Proof.
  intros He. rewrite (evicted_key_iff e He).
  pose proof sorted_keys_NoDup as Hs.
  rewrite <- (take_drop n (sort_entries ents)), fmap_app in Hs.
  apply NoDup_app in Hs as (_ & Hdisj & _).
  apply in_sorted in He. rewrite <- (take_drop n (sort_entries ents)) in He.
  apply elem_of_app in He as [Ht|Hd].
  - split; [done|]. intros Hd _.
    apply (Hdisj e.1); by apply list_elem_of_fmap_2.
  - split; [done|]. intros _ Ht.
    apply (Hdisj e.1); by apply list_elem_of_fmap_2.
Qed.

Lemma kept_length :
  length (filter (λ e, e.1 ∉ (take n (sort_entries ents)).*1) ents)
  = (length ents - n)%nat.
Proof.
  rewrite <- (sort_entries_perm ents) at 1.
  rewrite <- (take_drop n (sort_entries ents)) at 1. rewrite filter_app.
  rewrite filter_none, filter_all; cbn.
  - rewrite length_drop. by rewrite sort_entries_perm.
  - intros e He. apply kept_key_iff; [|done].
    apply in_sorted. eapply elem_of_sublist; [done | apply sublist_drop].
  - intros e He Hk. apply Hk. by apply list_elem_of_fmap_2.
Qed.


End WithEntries.

End Eviction.



(** * Further properties *)

(** ** Which keys an operation can touch *)

Section Frame.

Lemma touches_only_ret {A} K (a : A) : touches_only K (ret a).
Proof. by intros w. Qed.

Lemma touches_only_throw {A} K e : touches_only K (@throw A e).
Proof. by intros w. Qed.

Lemma touches_only_untyped {A} K : touches_only K (@untyped A).
Proof. by intros w. Qed.

Lemma touches_only_Date_now K : touches_only K Date_now.
Proof. by intros w. Qed.

Lemma touches_only_io K : touches_only K io.
Proof. intros [σ t [|[] fs]]; by cbn. Qed.

Lemma touches_only_bind {A B} K (m : M A) (f : A → M B) :
  touches_only K m → (∀ a, touches_only K (f a)) → touches_only K (bind m f).
Proof.
  intros Hm Hf w. unfold bind. specialize (Hm w).
  destruct (m w) as [[a|e|] w1]; cbn in *; try done.
  specialize (Hf a w1). destruct Hm as [Hc Hs], Hf as [Hc' Hs'].
  split; [congruence|]. intros k Hk. rewrite Hs' by done. by apply Hs.
Qed.

Lemma touches_only_try_catch {A} K (m : M A) (h : Err → M A) :
  touches_only K m → (∀ e, touches_only K (h e)) →
  touches_only K (try_catch m h).
Proof.
  intros Hm Hh w. unfold try_catch. specialize (Hm w).
  destruct (m w) as [[a|e|] w1]; cbn in *; try done.
  specialize (Hh e w1). destruct Hm as [Hc Hs], Hh as [Hc' Hs'].
  split; [congruence|]. intros k Hk. rewrite Hs' by done. by apply Hs.
Qed.

Lemma touches_only_for_of {A} K (l : list A) (f : A → M unit) :
  (∀ x, x ∈ l → touches_only K (f x)) → touches_only K (for_of l f).
Proof.
  induction l as [|x l IH]; intros Hf; cbn; [apply touches_only_ret|].
  apply touches_only_bind; [apply Hf; by left|].
  intros _. apply IH. intros y Hy. apply Hf. by right.
Qed.

Lemma touches_only_weaken {A} (K K' : string → Prop) (m : M A) :
  (∀ k, K k → K' k) → touches_only K m → touches_only K' m.
Proof.
  intros HK Hm w. destruct (Hm w) as [Hc Hs]. split; [done|].
  intros k Hk. apply Hs. intros HKk. by apply Hk, HK.
Qed.

Lemma touches_only_getItem K k : touches_only K (AsyncStorage.getItem k).
Proof.
  apply touches_only_bind; [apply touches_only_io|]. by intros _ w.
Qed.

Lemma touches_only_setItem (K : string → Prop) k v :
  K k → touches_only K (AsyncStorage.setItem k v).
Proof.
  intros HK. apply touches_only_bind; [apply touches_only_io|].
  intros _ w. cbn. split; [done|]. intros k' Hk'.
  apply lookup_insert_ne. by intros ->.
Qed.

Lemma touches_only_removeItem (K : string → Prop) k :
  K k → touches_only K (AsyncStorage.removeItem k).
Proof.
  intros HK. apply touches_only_bind; [apply touches_only_io|].
  intros _ w. cbn. split; [done|]. intros k' Hk'.
  apply lookup_delete_ne. by intros ->.
Qed.

Lemma touches_only_getCacheMetadata K :
  touches_only K CacheService.getCacheMetadata.
Proof.
  apply touches_only_try_catch; [|intros; apply touches_only_ret].
  apply touches_only_bind; [apply touches_only_getItem|].
  intros [[| | | | |]|]; auto using touches_only_ret, touches_only_untyped.
Qed.

Lemma touches_only_updateCacheMetadata (K : string → Prop) k :
  K CacheService.KEYS.CACHE_METADATA →
  touches_only K (CacheService.updateCacheMetadata k).
Proof.
  intros HK.
  apply touches_only_try_catch; [|intros; apply touches_only_ret].
  apply touches_only_bind; [apply touches_only_getCacheMetadata|]. intros o.
  apply touches_only_bind; [apply touches_only_Date_now|]. intros now.
  by apply touches_only_setItem.
Qed.

Lemma touches_only_removeCacheMetadata (K : string → Prop) k :
  K CacheService.KEYS.CACHE_METADATA →
  touches_only K (CacheService.removeCacheMetadata k).
Proof.
  intros HK.
  apply touches_only_try_catch; [|intros; apply touches_only_ret].
  apply touches_only_bind; [apply touches_only_getCacheMetadata|]. intros o.
  by apply touches_only_setItem.
Qed.

Lemma touches_only_remove (K : string → Prop) k :
  K k → K CacheService.KEYS.CACHE_METADATA →
  touches_only K (CacheService.remove k).
Proof.
  intros Hk HK.
  apply touches_only_try_catch; [|intros; apply touches_only_ret].
  apply touches_only_bind; [by apply touches_only_removeItem|]. intros _.
  by apply touches_only_removeCacheMetadata.
Qed.

Lemma touches_only_set (K : string → Prop) cfg k v ttl :
  K k → K CacheService.KEYS.CACHE_METADATA →
  touches_only K (CacheService.set cfg k v ttl).
Proof.
  intros Hk HK.
  apply touches_only_try_catch; [|intros; apply touches_only_ret].
  apply touches_only_bind; [apply touches_only_Date_now|]. intros now.
  apply touches_only_bind; [by apply touches_only_setItem|]. intros _.
  by apply touches_only_updateCacheMetadata.
Qed.

Lemma touches_only_isCacheExpired K c :
  touches_only K (CacheService.isCacheExpired c).
Proof.
  unfold CacheService.isCacheExpired.
  destruct (CacheService.expiresIn c) as [e|]; [|apply touches_only_ret].
  destruct (e =? 0); [apply touches_only_ret|].
  apply touches_only_bind; [apply touches_only_Date_now|].
  intros; apply touches_only_ret.
Qed.

Lemma touches_only_get (K : string → Prop) k :
  K k → K CacheService.KEYS.CACHE_METADATA →
  touches_only K (CacheService.get k).
Proof.
  intros Hk HK.
  apply touches_only_try_catch; [|intros; apply touches_only_ret].
  apply touches_only_bind; [apply touches_only_getItem|].
  intros [doc|]; [|apply touches_only_ret].
  destruct (CacheService.item_of_json doc) as [c|]; [|apply touches_only_untyped].
  apply touches_only_bind; [apply touches_only_isCacheExpired|].
  intros [|]; [|apply touches_only_ret].
  apply touches_only_bind; [by apply touches_only_remove|].
  intros; apply touches_only_ret.
Qed.

End Frame.

(** X1. Whatever storage calls fail, [set], [get] and [remove] on a key
    leave the clock alone and change the storage only under that key and
    under the metadata key: no other entry is altered or deleted. *)
Theorem X1_cache_operations_touch_only_their_key
    (cfg : CacheService.CacheConfig) (k : string) (v : json) (ttl : option Z) :
  let K := λ k', k' = k ∨ k' = CacheService.KEYS.CACHE_METADATA in
  touches_only K (CacheService.set cfg k v ttl) ∧
  touches_only K (CacheService.get k) ∧
  touches_only K (CacheService.remove k).
Proof.
  intros K. repeat apply conj.
  - apply touches_only_set; unfold K; auto.
  - apply touches_only_get; unfold K; auto.
  - apply touches_only_remove; unfold K; auto.
Qed.

(** ** The sweep stays within the tracked keys *)

Section Confined.
Import CacheService.
Variable K : string → Prop.
Hypothesis K_meta : K KEYS.CACHE_METADATA.

Lemma confined_ret {A} (a : A) (Q : A → Prop) : Q a → confined K (ret a) Q.
Proof. intros HQ w Hw. cbn. repeat split; try done. by intros ? [= <-]. Qed.

Lemma confined_untyped {A} (Q : A → Prop) : confined K (@untyped A) Q.
Proof. intros w Hw. cbn. repeat split; done. Qed.

Lemma confined_bind {A B} (m : M A) (f : A → M B) Q R :
  confined K m Q → (∀ a, Q a → confined K (f a) R) → confined K (bind m f) R.
Proof.
  intros Hm Hf w Hw. unfold bind. destruct (Hm w Hw) as (Hi & Hc & Hs & HQ).
  destruct (m w) as [[a|e|] w1]; cbn in *; try done.
  destruct (Hf a (HQ a eq_refl) w1 Hi) as (Hi' & Hc' & Hs' & HR).
  repeat split; [done | congruence | | done].
  intros k Hk. rewrite Hs' by done. by apply Hs.
Qed.

Lemma confined_try_catch {A} (m : M A) (h : Err → M A) Q :
  confined K m Q → (∀ e, confined K (h e) Q) → confined K (try_catch m h) Q.
Proof.
  intros Hm Hh w Hw. unfold try_catch.
  destruct (Hm w Hw) as (Hi & Hc & Hs & HQ).
  destruct (m w) as [[a|e|] w1]; cbn in *; try done.
  destruct (Hh e w1 Hi) as (Hi' & Hc' & Hs' & HR).
  repeat split; [done | congruence | | done].
  intros k Hk. rewrite Hs' by done. by apply Hs.
Qed.

Lemma confined_weaken {A} (m : M A) (Q Q' : A → Prop) :
  (∀ a, Q a → Q' a) → confined K m Q → confined K m Q'.
Proof.
  intros HQ Hm w Hw. destruct (Hm w Hw) as (Hi & Hc & Hs & Hq).
  repeat split; try done. intros a Ha. by apply HQ, Hq.
Qed.

Lemma confined_for_of {A} (l : list A) (f : A → M unit) :
  (∀ x, x ∈ l → confined K (f x) (λ _, True)) →
  confined K (for_of l f) (λ _, True).
Proof.
  induction l as [|x l IH]; intros Hf; cbn; [by apply confined_ret|].
  eapply confined_bind; [apply Hf; by left|].
  intros _ _. apply IH. intros y Hy. apply Hf. by right.
Qed.

Lemma confined_io : confined K io (λ _, True).
Proof.
  intros [σ t [|[] fs]] Hw; unfold tracks_within in *; cbn in *;
    repeat split; done.
Qed.

Lemma confined_Date_now : confined K Date_now (λ _, True).
Proof. intros w Hw. cbn. repeat split; done. Qed.

Lemma confined_getItem k : confined K (AsyncStorage.getItem k) (λ _, True).
Proof.
  eapply confined_bind; [apply confined_io|]. intros _ _ w Hw. cbn.
  repeat split; done.
Qed.

Lemma confined_read_metadata :
  confined K (AsyncStorage.getItem KEYS.CACHE_METADATA)
    (λ r, match r with
          | Some (JObj o) => ∀ k, k ∈ obj_keys o → K k
          | _ => True
          end).
Proof.
  intros [σ t fs] Hw. unfold AsyncStorage.getItem, bind, io.
  unfold tracks_within in *. cbn in *.
  destruct fs as [|[] fs]; cbn; repeat split; try done;
    by intros a [= <-].
Qed.

Lemma confined_getCacheMetadata :
  confined K getCacheMetadata (λ o, ∀ k, k ∈ obj_keys o → K k).
Proof.
  apply confined_try_catch.
  - eapply confined_bind; [apply confined_read_metadata|].
    intros [[| | | | |o]|] Hr;
      try (apply confined_untyped); apply confined_ret; try done.
    intros k Hk. inversion Hk.
  - intros e. apply confined_ret. intros k Hk. inversion Hk.
Qed.

Lemma confined_set_metadata o :
  (∀ k, k ∈ obj_keys o → K k) →
  confined K (AsyncStorage.setItem KEYS.CACHE_METADATA (JObj o)) (λ _, True).
Proof.
  intros Ho. eapply confined_bind; [apply confined_io|]. intros _ _ w Hw.
  unfold tracks_within. cbn. rewrite lookup_insert_eq.
  repeat split; try done. intros k Hk. apply lookup_insert_ne.
  intros <-. by apply Hk.
Qed.

Lemma confined_removeItem k :
  K k → confined K (AsyncStorage.removeItem k) (λ _, True).
Proof.
  intros Hk. eapply confined_bind; [apply confined_io|]. intros _ _ w Hw.
  unfold tracks_within in *. cbn.
  repeat split; try done.
  - destruct (decide (k = KEYS.CACHE_METADATA)) as [->|Hne].
    + by rewrite lookup_delete_eq.
    + by rewrite lookup_delete_ne.
  - intros k' Hk'. apply lookup_delete_ne. by intros ->.
Qed.

Lemma obj_keys_delete_subset k k' o :
  k' ∈ obj_keys (obj_delete k o) → k' ∈ obj_keys o.
Proof.
  rewrite obj_keys_delete. intros Hin.
  apply list_elem_of_In, filter_In in Hin as [Hin _]. by apply list_elem_of_In.
Qed.

Lemma confined_remove k : K k → confined K (remove k) (λ _, True).
Proof.
  intros Hk. apply confined_try_catch; [|intros; by apply confined_ret].
  eapply confined_bind; [by apply confined_removeItem|]. intros _ _.
  apply confined_try_catch; [|intros; by apply confined_ret].
  eapply confined_bind; [apply confined_getCacheMetadata|]. intros o Ho.
  apply confined_set_metadata. intros k' Hk'.
  by eapply Ho, obj_keys_delete_subset.
Qed.

Lemma confined_isCacheExpired c : confined K (isCacheExpired c) (λ _, True).
Proof.
  intros w Hw. rewrite isCacheExpired_spec. cbn. repeat split; done.
Qed.

Lemma confined_enforceCacheSize cfg :
  confined K (enforceCacheSize cfg) (λ _, True).
Proof.
  apply confined_try_catch; [|intros; by apply confined_ret].
  eapply confined_bind; [apply confined_getCacheMetadata|]. intros o Ho.
  destruct (_ >? _); [|by apply confined_ret].
  destruct (entries_of o) as [es|] eqn:Hes; [|apply confined_untyped].
  apply confined_for_of. intros e He. apply confined_remove, Ho.
  rewrite (entries_of_keys _ _ Hes). apply list_elem_of_fmap_2.
  rewrite <- (sort_entries_perm es).
  eapply elem_of_sublist; [exact He | apply sublist_take].
Qed.

Lemma confined_cleanupExpiredItems cfg :
  confined K (cleanupExpiredItems cfg) (λ _, True).
Proof.
  apply confined_try_catch; [|intros; by apply confined_ret].
  eapply confined_bind; [apply confined_getCacheMetadata|]. intros o Ho.
  eapply confined_bind; [|intros; apply confined_enforceCacheSize].
  apply confined_for_of. intros k Hk.
  eapply confined_bind; [apply confined_getItem|].
  intros [doc|] _; [|by apply confined_ret].
  destruct (item_of_json doc) as [c|]; [|apply confined_untyped].
  eapply confined_bind; [apply confined_isCacheExpired|].
  intros [|] _; [|by apply confined_ret].
  by apply confined_remove, Ho.
Qed.

End Confined.

Lemma sweep_untracked_key cfg w k :
  k ≠ CacheService.KEYS.CACHE_METADATA →
  k ∉ obj_keys (default [] (meta_fields (storage w))) →
  storage (snd (CacheService.cleanupExpiredItems cfg w)) !! k = storage w !! k ∧
  clock (snd (CacheService.cleanupExpiredItems cfg w)) = clock w.
Proof.
  intros Hk Hout.
  set (K := λ k', k' = CacheService.KEYS.CACHE_METADATA ∨
                  k' ∈ obj_keys (default [] (meta_fields (storage w)))).
  assert (tracks_within K w) as Hw.
  { unfold tracks_within, K, meta_fields.
    destruct (storage w !! _) as [[| | | | |o]|]; try done.
    intros k' Hk'. by right. }
  destruct (confined_cleanupExpiredItems K (or_introl eq_refl) cfg w Hw)
    as (_ & Hc & Hs & _).
  split; [|done]. apply Hs. unfold K. intros [?|?]; done.
Qed.

(** X2. Whatever storage calls fail, the sweep leaves the clock alone and
    never alters or deletes a storage entry whose key the metadata document
    does not track at the start (the metadata key itself apart). *)
Theorem X2_sweep_touches_only_tracked_keys
    (cfg : CacheService.CacheConfig) (w : World) (k : string) :
  k ≠ CacheService.KEYS.CACHE_METADATA →
  k ∉ obj_keys (default [] (meta_fields (storage w))) →
  storage (snd (CacheService.cleanupExpiredItems cfg w)) !! k = storage w !! k ∧
  clock (snd (CacheService.cleanupExpiredItems cfg w)) = clock w.
Proof. apply sweep_untracked_key. Qed.

Lemma X2_sweep_touches_only_tracked_keys_witness :
  let σ : gmap string json :=
    <[ "@MovieBrowserApp:favorites" := movies_to_json [movie_n 7] ]>
    (<[ "cache_a" :=
          CacheService.item_to_json
            (CacheService.mkCacheItem (JStr "x") 0 (Some 10)) ]>
    {[ CacheService.KEYS.CACHE_METADATA := JObj [("cache_a", JNum 0)] ]}) in
  let w := mkWorld σ 100 [false; true; false] in
  storage (snd (CacheService.cleanupExpiredItems CacheService.default_config w))
    !! "@MovieBrowserApp:favorites"
  = Some (movies_to_json [movie_n 7]).
Proof.
  intros σ w.
  destruct (X2_sweep_touches_only_tracked_keys CacheService.default_config w
              "@MovieBrowserApp:favorites") as [Hs _].
  - by vm_compute.
  - apply (bool_decide_unpack _). by vm_compute.
  - rewrite Hs. by vm_compute.
Defined.

(** ** What [set] and [remove] record in the metadata *)

Section Tracking.
Import CacheService.



Lemma obj_get_delete_eq k o : obj_get k (obj_delete k o) = None.
Proof.
  induction o as [|[k' v'] o IH]; cbn; [done|].
  destruct (String.eqb k' k) eqn:E; [done|]. cbn. by rewrite E.
Qed.

Lemma obj_get_delete_ne k k' o :
  k ≠ k' → obj_get k' (obj_delete k o) = obj_get k' o.
Proof.
  intros Hne. induction o as [|[k0 v0] o IH]; cbn; [done|].
  destruct (String.eqb_spec k0 k) as [->|Hk0]; cbn.
  - rewrite IH. by destruct (String.eqb_spec k k').
  - by rewrite IH.
Qed.


Lemma get_quiet_absent k σ t fs :
  σ !! k = None →
  fst (get k (mkWorld σ t fs)) = Ok None ∧
  storage (snd (get k (mkWorld σ t fs))) = σ ∧
  (fs = [] → get k (mkWorld σ t []) = (Ok None, mkWorld σ t [])).
Proof.
  intros Hk. unfold get, try_catch, bind, AsyncStorage.getItem, io.
  destruct fs as [|[] fs]; cbn; rewrite ?Hk; done.
Qed.

End Tracking.



(** X4. With a working storage, [remove k] deletes the entry and its
    metadata record and keeps the other records; a following [get k] finds
    nothing, and removing again changes nothing more. *)
Theorem X4_remove_untracks_and_is_idempotent
    (k : string) (σ : gmap string json) (t : Z) (o : list (string * json)) :
  meta_fields σ = Some o →
  k ≠ CacheService.KEYS.CACHE_METADATA →
  let w' := snd (CacheService.remove k (mkWorld σ t [])) in
  storage w' !! k = None ∧
  meta_fields (storage w') = Some (obj_delete k o) ∧
  obj_get k (obj_delete k o) = None ∧
  (∀ k', k' ≠ k → obj_get k' (obj_delete k o) = obj_get k' o) ∧
  CacheService.get k w' = (Ok None, w') ∧
  CacheService.remove k w' = (Ok tt, w').
Proof.
  intros Ho Hk w'. subst w'.
  assert (metadata_ok σ) as Hok by (unfold metadata_ok; by rewrite Ho).
  rewrite remove_quiet by done. cbn [snd storage].
  rewrite (remove_storage_ne k σ o) by done.
  set (σ1 := <[_ := _]> (delete k σ)).
  assert (σ1 !! k = None) as Hgone.
  { unfold σ1. by rewrite lookup_insert_ne, lookup_delete_eq. }
  assert (meta_fields σ1 = Some (obj_delete k o)) as Ho1
    by apply meta_fields_insert_meta.
  repeat apply conj; try done.
  - apply obj_get_delete_eq.
  - intros k' Hk'. by apply obj_get_delete_ne.
  - by apply (get_quiet_absent k σ1 t []).
  - rewrite remove_quiet by (unfold metadata_ok; by rewrite Ho1).
    do 2 f_equal. rewrite (remove_storage_ne k σ1 _ Hk Ho1).
    rewrite delete_id by done.
    rewrite obj_delete_absent.
    + unfold σ1. by rewrite insert_insert_eq.
    + rewrite obj_keys_delete. intros Hin%list_elem_of_In%filter_In.
      destruct Hin as [_ Hne]. by rewrite String.eqb_refl in Hne.
Qed.

Lemma X4_remove_untracks_and_is_idempotent_witness :
  let σ : gmap string json :=
    <[ "cache_a" := JStr "payload" ]>
    {[ CacheService.KEYS.CACHE_METADATA := JObj [("cache_a", JNum 5)] ]} in
  let w' := snd (CacheService.remove "cache_a" (mkWorld σ 9 [])) in
  storage w' !! "cache_a" = None ∧
  CacheService.get "cache_a" w' = (Ok None, w').
Proof.
  intros σ w'.
  destruct (X4_remove_untracks_and_is_idempotent "cache_a" σ 9
              [("cache_a", JNum 5)]) as (H1 & _ & _ & _ & H5 & _).
  - by vm_compute.
  - discriminate.
  - split; [exact H1 | exact H5].
Defined.

(** ** Partial failures of [set] and [remove] *)

(** X5. When [set] writes the payload but the metadata write fails (the
    metadata read before it may fail or not), [set] still completes: the
    entry is stored and readable, the metadata document is unchanged, so an
    entry that was not tracked before stays untracked and no later sweep,
    whatever its failures, removes it. *)
Theorem X5_failed_metadata_write_leaves_entry_untracked
    (cfg cfg' : CacheService.CacheConfig) (k : string) (v : json)
    (ttl : option Z) (σ : gmap string json) (t : Z) (b : bool)
    (fs : list bool) :
  k ≠ CacheService.KEYS.CACHE_METADATA →
  b = true ∨ metadata_ok σ →
  let item :=
    CacheService.item_to_json
      (CacheService.mkCacheItem v t
         (Some (CacheService.or_default ttl
                  (CacheService.defaultExpirationTime cfg)))) in
  CacheService.set cfg k v ttl (mkWorld σ t (false :: b :: true :: fs))
  = (Ok tt, mkWorld (<[k := item]> σ) t fs) ∧
  (k ∉ obj_keys (default [] (meta_fields σ)) →
   ∀ d fs',
     storage (snd (CacheService.cleanupExpiredItems cfg'
                     (mkWorld (<[k := item]> σ) (t + d) fs'))) !! k
     = Some item).
Proof.
  intros Hk Hb item. split.
  - unfold CacheService.set, try_catch, bind, Date_now, AsyncStorage.setItem,
      io. cbn. fold item.
    unfold CacheService.updateCacheMetadata, CacheService.getCacheMetadata,
      try_catch, bind, AsyncStorage.getItem, AsyncStorage.setItem, io,
      Date_now. cbn.
    destruct b; cbn; [done|].
    destruct Hb as [?|[o Ho]]; [done|].
    rewrite lookup_insert_ne by done.
    unfold meta_fields in Ho.
    destruct (σ !! CacheService.KEYS.CACHE_METADATA) as [[| | | | |o']|];
      by try done.
  - intros Hout d fs'.
    destruct (sweep_untracked_key cfg'
                (mkWorld (<[k := item]> σ) (t + d) fs') k) as [Hs _];
      [done | | ].
    + cbn. by rewrite meta_fields_insert_ne.
    + rewrite Hs. cbn. apply lookup_insert_eq.
Qed.

Lemma X5_failed_metadata_write_leaves_entry_untracked_witness :
  let cfg := CacheService.default_config in
  let item :=
    CacheService.item_to_json
      (CacheService.mkCacheItem (JStr "x") 0 (Some 1000)) in
  CacheService.set cfg "cache_a" (JStr "x") (Some 1000)
    (mkWorld ∅ 0 [false; false; true])
  = (Ok tt, mkWorld (<["cache_a" := item]> ∅) 0 []) ∧
  storage (snd (CacheService.cleanupExpiredItems cfg
                  (mkWorld (<["cache_a" := item]> ∅) (0 + 5000) [])))
    !! "cache_a" = Some item.
Proof.
  intros cfg item.
  destruct (X5_failed_metadata_write_leaves_entry_untracked cfg cfg "cache_a"
              (JStr "x") (Some 1000) ∅ 0 false []) as [Hset Hsweep].
  - discriminate.
  - right. unfold metadata_ok. vm_compute. eauto.
  - split; [exact Hset|]. apply Hsweep.
    apply (bool_decide_unpack _). by vm_compute.
Defined.



(** ** Running the sweep again *)

Section SweepAgain.
Import CacheService.

(** A store in which nothing tracked has expired and the count is within the
    limit is left as it is. *)
Lemma sweep_nothing_to_do cfg σ t o es :
  meta_fields σ = Some o →
  entries_of o = Some es →
  NoDup es.*1 →
  KEYS.CACHE_METADATA ∉ es.*1 →
  (∀ k, k ∈ es.*1 → σ !! k = None ∨ is_Some (item_at σ k)) →
  (∀ k, k ∈ es.*1 → expired_at σ t k = false) →
  Z.of_nat (length es) ≤ maxCacheSize cfg →
  cleanupExpiredItems cfg (mkWorld σ t []) = (Ok tt, mkWorld σ t []).
Proof.
  intros Ho Hes Hnd Hm Hty Hfresh Hlen.
  destruct (cleanupExpiredItems_quiet cfg σ t o es Ho Hes Hnd Hm Hty)
    as [Hrun _]. cbv zeta in Hrun. rewrite Hrun. clear Hrun.
  assert (filter (λ k, expired_at σ t k = true) es.*1 = []) as ->.
  { apply filter_none. intros k Hk. by rewrite (Hfresh k Hk). }
  assert (filter (λ e : string * Z, e.1 ∉ []) es = es) as ->.
  { apply filter_all. intros e _ Hin. inversion Hin. }
  destruct (Z.gtb_spec (Z.of_nat (length es)) (maxCacheSize cfg)); [lia|].
  reflexivity.
Qed.

End SweepAgain.

(** X7. The sweep is idempotent at a given instant: with a working storage
    and a well-formed store (the metadata tracks distinct keys with numeric
    timestamps and not its own key, tracked payloads are cache items, the
    size limit is not negative), a second sweep right after the first
    changes nothing. *)
Theorem X7_sweep_is_idempotent
    (cfg : CacheService.CacheConfig) (σ : gmap string json) (t : Z)
    (es : list (string * Z)) :
  meta_fields σ ≫= CacheService.entries_of = Some es →
  NoDup es.*1 →
  CacheService.KEYS.CACHE_METADATA ∉ es.*1 →
  (∀ k, k ∈ es.*1 → σ !! k = None ∨ is_Some (item_at σ k)) →
  0 ≤ CacheService.maxCacheSize cfg →
  let w1 := snd (CacheService.cleanupExpiredItems cfg (mkWorld σ t [])) in
  CacheService.cleanupExpiredItems cfg w1 = (Ok tt, w1).
Proof.
  intros Hmeta Hnd Hm Hty Hmax.
  destruct (meta_fields σ) as [o|] eqn:Ho; [|done]. cbn in Hmeta.
  destruct (cleanupExpiredItems_quiet cfg σ t o es Ho Hmeta Hnd Hm Hty)
    as [Hrun Htracked]. cbv zeta in Hrun, Htracked.
  set (X := filter (λ k, expired_at σ t k = true) es.*1) in *.
  set (S0 := filter (λ e : string * Z, e.1 ∉ X) es) in *.
  set (N := CacheService.maxCacheSize cfg) in *.
  set (Y := if Z.of_nat (length S0) >? N
            then (take (Z.to_nat (Z.of_nat (length S0) - N))
                    (CacheService.sort_entries S0)).*1
            else []) in *.
  intros w1. subst w1. rewrite Hrun. cbn [snd].
  set (σ1 := remove_keys Y (remove_keys X σ)) in *.
  assert (S0 `sublist_of` es) as HSsub by apply sublist_filter.
  assert (NoDup S0.*1) as HndS.
  { eapply sublist_NoDup; [exact Hnd | by apply fmap_sublist]. }
  assert (KEYS_X : CacheService.KEYS.CACHE_METADATA ∉ X).
  { unfold X. rewrite list_elem_of_filter. tauto. }
  assert (KEYS_Y : CacheService.KEYS.CACHE_METADATA ∉ Y).
  { unfold Y. destruct (_ >? _); [|apply not_elem_of_nil].
    intros (e & Hk & He)%list_elem_of_fmap. apply Hm. rewrite Hk.
    apply list_elem_of_fmap_2. eapply elem_of_sublist; [|exact HSsub].
    apply (in_sorted S0). eapply elem_of_sublist; [done | apply sublist_take]. }
  set (es1 := filter (λ e : string * Z, e.1 ∉ Y) S0) in *.
  assert (es1 `sublist_of` es) as Hsub1.
  { etrans; [apply sublist_filter | done]. }
  assert (Hkeys1 : ∀ k, k ∈ es1.*1 → k ∈ es.*1 ∧ (k ∉ X) ∧ (k ∉ Y)).
  { intros k (e & -> & He)%list_elem_of_fmap.
    apply list_elem_of_filter in He as [HeY He]. split; [|split; [|done]].
    - apply list_elem_of_fmap_2. by eapply elem_of_sublist.
    - by apply list_elem_of_filter in He as [HeX _]. }
  assert (Hsame : ∀ k, k ∈ es1.*1 → σ1 !! k = σ !! k).
  { intros k Hk. apply Hkeys1 in Hk as (Hk & HnX & HnY). unfold σ1.
    rewrite !remove_keys_lookup_out by (done || congruence). done. }
  assert (meta_fields σ1
          = Some (filter (λ kv : string * json, kv.1 ∉ Y)
                    (filter (λ kv : string * json, kv.1 ∉ X) o))) as Ho1.
  { unfold σ1. apply remove_keys_meta; [done|]. by apply remove_keys_meta. }
  assert (CacheService.entries_of
            (filter (λ kv : string * json, kv.1 ∉ Y)
               (filter (λ kv : string * json, kv.1 ∉ X) o)) = Some es1) as Hes1.
  { pose proof (entries_of_filter (λ k, k ∉ X) o es Hmeta) as H1.
    cbv beta in H1.
    pose proof (entries_of_filter (λ k, k ∉ Y) _ _ H1) as H2.
    cbv beta in H2. exact H2. }
  apply (sweep_nothing_to_do cfg σ1 t _ es1 Ho1 Hes1).
  - eapply sublist_NoDup; [exact Hnd | by apply fmap_sublist].
  - intros Hin. by apply Hkeys1 in Hin as (Hin & _).
  - intros k Hk. unfold item_at. rewrite (Hsame k Hk).
    apply Hty. by apply Hkeys1 in Hk as (Hk & _).
  - intros k Hk. rewrite (expired_at_agree σ σ1 t k (Hsame k Hk)).
    apply Hkeys1 in Hk as (Hk & HnX & _).
    destruct (expired_at σ t k) eqn:E; [|done].
    exfalso. apply HnX. unfold X. by apply list_elem_of_filter.
  - unfold es1, Y.
    destruct (Z.gtb_spec (Z.of_nat (length S0)) N) as [Hgt|Hle].
    + rewrite kept_length by done. lia.
    + rewrite filter_all; [lia|]. intros e _ Hin. inversion Hin.
Qed.

Lemma X7_sweep_is_idempotent_witness :
  let cfg := CacheService.mkCacheConfig 1000 1 3600000 in
  let item ts ttl :=
    CacheService.item_to_json (CacheService.mkCacheItem (JStr "x") ts (Some ttl)) in
  let σ : gmap string json :=
    <[ "cache_a" := item 0 10 ]>
    (<[ "cache_b" := item 50 1000 ]>
    (<[ "cache_c" := item 60 1000 ]>
    {[ CacheService.KEYS.CACHE_METADATA :=
         JObj [("cache_a", JNum 0); ("cache_b", JNum 50); ("cache_c", JNum 60)] ]})) in
  let w1 := snd (CacheService.cleanupExpiredItems cfg (mkWorld σ 100 [])) in
  CacheService.cleanupExpiredItems cfg w1 = (Ok tt, w1).
Proof.
  intros cfg item σ.
  apply (X7_sweep_is_idempotent cfg σ 100
           [("cache_a", 0); ("cache_b", 50); ("cache_c", 60)]).
  - by vm_compute.
  - apply (bool_decide_unpack _). by vm_compute.
  - apply (bool_decide_unpack _). by vm_compute.
  - intros k Hk. right.
    repeat (apply elem_of_cons in Hk as [->|Hk]; [vm_compute; eauto|]).
    inversion Hk.
  - cbn. lia.
Defined.

(** ** Clearing *)

Section Clearing.

Lemma elem_of_keys (σ : gmap string json) k :
  k ∈ map fst (map_to_list σ) ↔ is_Some (σ !! k).
Proof.
  rewrite list_elem_of_In, in_map_iff. split.
  - intros ([k' x] & <- & Hin). cbn.
    apply list_elem_of_In, elem_of_map_to_list in Hin. eauto.
  - intros [x Hx]. exists (k, x). split; [done|].
    by apply list_elem_of_In, elem_of_map_to_list.
Qed.

(** Removing the keys that satisfy a test. *)
Lemma lookup_remove_matching (p : string → bool) (σ : gmap string json) k :
  foldr delete σ (List.filter p (map fst (map_to_list σ))) !! k
  = if p k then None else σ !! k.
Proof.
  destruct (p k) eqn:Hp.
  - destruct (σ !! k) as [x|] eqn:Hk.
    + apply lookup_foldr_delete, list_elem_of_In, filter_In. split; [|done].
      apply list_elem_of_In, elem_of_keys. eauto.
    + rewrite lookup_foldr_delete_not_elem_of; [done|].
      intros Hin%list_elem_of_In%filter_In. destruct Hin as [Hin _].
      apply list_elem_of_In, elem_of_keys in Hin as [x Hx]. congruence.
  - apply lookup_foldr_delete_not_elem_of.
    intros Hin%list_elem_of_In%filter_In. destruct Hin as [_ Hin]. congruence.
Qed.

Lemma clear_lookup σ t k :
  storage (snd (CacheService.clear (mkWorld σ t []))) !! k
  = if startsWith "cache_" k then None else σ !! k.
Proof.
  unfold CacheService.clear, try_catch, bind, AsyncStorage.getAllKeys,
    AsyncStorage.multiRemove, AsyncStorage.removeItem, io. cbn.
  destruct (decide (k = CacheService.KEYS.CACHE_METADATA)) as [->|Hne].
  - by rewrite lookup_delete_eq.
  - rewrite lookup_delete_ne by done.
    apply (lookup_remove_matching (λ key, startsWith "cache_" key)).
Qed.

End Clearing.

(** X8. With a working storage [clear] removes every entry whose key starts
    with [cache_] (the metadata document and the favourites and recently
    viewed lists of the favourites provider among them) and leaves every
    other entry, such as the storage service's favourites, as it was.  When
    listing the keys or the bulk removal fails, nothing is removed and no
    error is thrown. *)
Theorem X8_clear_removes_exactly_the_cache_keys
    (σ : gmap string json) (t : Z) (fs : list bool) :
  fst (CacheService.clear (mkWorld σ t [])) = Ok tt ∧
  (∀ k, storage (snd (CacheService.clear (mkWorld σ t []))) !! k
        = if startsWith "cache_" k then None else σ !! k) ∧
  storage (snd (CacheService.clear (mkWorld σ t []))) !! CacheService.KEYS.FAVORITES
    = None ∧
  storage (snd (CacheService.clear (mkWorld σ t [])))
    !! CacheService.KEYS.RECENTLY_VIEWED = None ∧
  storage (snd (CacheService.clear (mkWorld σ t [])))
    !! StorageService.KEYS.FAVORITES = σ !! StorageService.KEYS.FAVORITES ∧
  CacheService.clear (mkWorld σ t (true :: fs)) = (Ok tt, mkWorld σ t fs) ∧
  CacheService.clear (mkWorld σ t (false :: true :: fs))
  = (Ok tt, mkWorld σ t fs).
Proof.
  repeat apply conj; try done.
  - apply clear_lookup.
  - by rewrite clear_lookup.
  - by rewrite clear_lookup.
  - by rewrite clear_lookup.
Qed.

(** X9. With a working storage [clearAllData] removes exactly the entries
    whose key starts with [@MovieBrowserApp:] (favourites, search history,
    preferences) and keeps the cache entries; when listing the keys or the
    removal fails it throws [Error "Failed to clear all data"] and removes
    nothing.  So neither [clearAllData] nor the cache service's [clear]
    removes what the other one owns. *)
Theorem X9_clearAllData_removes_exactly_the_app_keys
    (σ : gmap string json) (t : Z) (fs : list bool) :
  fst (StorageService.clearAllData (mkWorld σ t [])) = Ok tt ∧
  (∀ k, storage (snd (StorageService.clearAllData (mkWorld σ t []))) !! k
        = if startsWith "@MovieBrowserApp:" k then None else σ !! k) ∧
  (∀ k, startsWith "cache_" k = true →
        storage (snd (StorageService.clearAllData (mkWorld σ t []))) !! k
        = σ !! k) ∧
  (∀ k, startsWith "@MovieBrowserApp:" k = true →
        storage (snd (CacheService.clear (mkWorld σ t []))) !! k = σ !! k) ∧
  StorageService.clearAllData (mkWorld σ t (true :: fs))
  = (Throw (Error "Failed to clear all data"), mkWorld σ t fs) ∧
  StorageService.clearAllData (mkWorld σ t (false :: true :: fs))
  = (Throw (Error "Failed to clear all data"), mkWorld σ t fs).
Proof.
  assert (∀ k, storage (snd (StorageService.clearAllData (mkWorld σ t []))) !! k
               = if startsWith "@MovieBrowserApp:" k then None else σ !! k)
    as Hall.
  { intros k.
    unfold StorageService.clearAllData, try_catch, bind,
      AsyncStorage.getAllKeys, AsyncStorage.multiRemove, io. cbn.
    apply (lookup_remove_matching (λ key, startsWith "@MovieBrowserApp:" key)). }
  assert (∀ k, startsWith "cache_" k = true →
               startsWith "@MovieBrowserApp:" k = false) as Hdisj.
  { intros [|c k'] Hk; [done|]. unfold startsWith in *.
    cbn [String.prefix] in *.
    destruct (Ascii.ascii_dec "c" c) as [<-|]; [|done].
    by destruct (Ascii.ascii_dec "@" "c"). }
  repeat apply conj; try done.
  - intros k Hk. by rewrite Hall, (Hdisj k Hk).
  - intros k Hk.
    rewrite clear_lookup.
    destruct (startsWith "cache_" k) eqn:E; [|done].
    apply Hdisj in E. congruence.
Qed.

Lemma X9_clearAllData_removes_exactly_the_app_keys_witness :
  let σ : gmap string json :=
    <[ "@MovieBrowserApp:favorites" := movies_to_json [movie_n 7] ]>
    {[ "cache_genres" := JStr "g" ]} in
  storage (snd (StorageService.clearAllData (mkWorld σ 0 []))) !! "cache_genres"
  = Some (JStr "g") ∧
  storage (snd (CacheService.clear (mkWorld σ 0 [])))
    !! "@MovieBrowserApp:favorites" = Some (movies_to_json [movie_n 7]).
Proof.
  intros σ.
  destruct (X9_clearAllData_removes_exactly_the_app_keys σ 0 [])
    as (_ & _ & H3 & H4 & _).
  split.
  - rewrite H3; by vm_compute.
  - rewrite H4; by vm_compute.
Defined.

(** ** Entries under different keys *)

Section Independence.
Import CacheService.

Lemma get_outcome k σ t :
  metadata_ok σ →
  fst (get k (mkWorld σ t []))
  = match σ !! k with
    | None => Ok None
    | Some doc =>
        match item_of_json doc with
        | None => Untyped
        | Some c => if expired_b t c then Ok None else Ok (Some (data c))
        end
    end.
Proof.
  intros Hok. unfold get, try_catch, bind, AsyncStorage.getItem, io. cbn.
  destruct (σ !! k) as [doc|]; [|done].
  destruct (item_of_json doc) as [c|]; [|done].
  rewrite isCacheExpired_spec. cbn.
  destruct (expired_b t c); [|done]. by rewrite remove_quiet.
Qed.

Lemma get_after_other_set cfg k k' v ttl σ t d :
  metadata_ok σ →
  k ≠ k' → k ≠ KEYS.CACHE_METADATA → k' ≠ KEYS.CACHE_METADATA →
  fst (get k (elapse d (snd (set cfg k' v ttl (mkWorld σ t [])))))
  = fst (get k (mkWorld σ (t + d) [])).
Proof.
  intros Hok Hkk Hk Hk'. rewrite set_quiet by (by right).
  unfold elapse. cbn [snd storage clock faults].
  rewrite !get_outcome by (done || apply metadata_ok_set_storage).
  unfold set_storage. by rewrite !lookup_insert_ne.
Qed.

Lemma get_movies_outcome k w1 w2 :
  fst (get k w1) = fst (get k w2) →
  fst (get_movies k w1) = fst (get_movies k w2).
Proof.
  unfold get_movies, bind.
  destruct (get k w1) as [r1 w1'], (get k w2) as [r2 w2']. cbn.
  intros ->. destruct r2 as [[j|]| |]; try done.
  by destruct (movies_of_json j).
Qed.

Lemma or_default_some e dflt : e ≠ 0 → or_default (Some e) dflt = e.
Proof. intros He. unfold or_default. by destruct (Z.eqb_spec e 0). Qed.

Lemma keyMap_inj c c' : keyMap c = keyMap c' → c = c'.
Proof. by destruct c, c'. Qed.

Lemma keyMap_not_metadata c : keyMap c ≠ KEYS.CACHE_METADATA.
Proof. by destruct c. Qed.

End Independence.

(** X10. Movie lists are cached per category for fifteen minutes: with a
    working storage, a list cached for a category is returned for that
    category up to fifteen minutes later and no longer afterwards, and
    caching it does not change what is returned for any other category. *)
Theorem X10_movie_lists_cached_per_category
    (cfg : CacheService.CacheConfig) (c c' : CacheService.Category)
    (ms : list Movie) (σ : gmap string json) (t d : Z) :
  metadata_ok σ →
  let w1 :=
    elapse d (snd (CacheService.cacheMovieList cfg c ms (mkWorld σ t []))) in
  (d ≤ 15 * 60 * 1000 →
   fst (CacheService.getCachedMovieList c w1) = Ok (Some ms)) ∧
  (d > 15 * 60 * 1000 →
   fst (CacheService.getCachedMovieList c w1) = Ok None) ∧
  (c' ≠ c →
   fst (CacheService.getCachedMovieList c' w1)
   = fst (CacheService.getCachedMovieList c' (mkWorld σ (t + d) []))).
Proof.
  intros Hok w1. subst w1.
  unfold CacheService.getCachedMovieList, CacheService.cacheMovieList.
  repeat apply conj.
  - intros Hd. erewrite get_movies_after_get; [done|].
    apply set_then_early_get;
      [by right | rewrite or_default_some; lia].
  - intros Hd. apply get_movies_none, set_then_late_get;
      [by right | | ]; rewrite or_default_some; lia.
  - intros Hc. apply get_movies_outcome, get_after_other_set; try done.
    + intros Heq. by apply Hc, keyMap_inj.
    + apply keyMap_not_metadata.
    + apply keyMap_not_metadata.
Qed.

Lemma X10_movie_lists_cached_per_category_witness :
  let w1 :=
    elapse 1000
      (snd (CacheService.cacheMovieList CacheService.default_config
              CacheService.popular [movie_n 1] (mkWorld ∅ 0 []))) in
  fst (CacheService.getCachedMovieList CacheService.popular w1)
  = Ok (Some [movie_n 1]) ∧
  fst (CacheService.getCachedMovieList CacheService.upcoming w1) = Ok None.
Proof.
  intros w1.
  destruct (X10_movie_lists_cached_per_category CacheService.default_config
              CacheService.popular CacheService.upcoming [movie_n 1] ∅ 0 1000)
    as (H1 & _ & H3).
  - unfold metadata_ok. vm_compute. eauto.
  - split; [apply H1; lia|]. etrans; [by apply H3 | by vm_compute].
Defined.

(** X11. Movie details and credits are cached per movie id for one hour:
    with a working storage, details cached for an id are returned for that
    id up to one hour later and no longer afterwards; caching them changes
    neither the details cached for another id nor the credits of any id. *)
Theorem X11_movie_details_cached_per_id
    (cfg : CacheService.CacheConfig) (a b : Z) (details : json)
    (σ : gmap string json) (t d : Z) :
  metadata_ok σ →
  let w1 :=
    elapse d (snd (CacheService.cacheMovieDetails cfg a details
                     (mkWorld σ t []))) in
  (d ≤ 60 * 60 * 1000 →
   fst (CacheService.getCachedMovieDetails a w1) = Ok (Some details)) ∧
  (d > 60 * 60 * 1000 →
   fst (CacheService.getCachedMovieDetails a w1) = Ok None) ∧
  (b ≠ a →
   fst (CacheService.getCachedMovieDetails b w1)
   = fst (CacheService.getCachedMovieDetails b (mkWorld σ (t + d) []))) ∧
  fst (CacheService.getCachedMovieCredits b w1)
  = fst (CacheService.getCachedMovieCredits b (mkWorld σ (t + d) [])).
Proof.
  intros Hok w1. subst w1.
  unfold CacheService.getCachedMovieDetails, CacheService.getCachedMovieCredits,
    CacheService.cacheMovieDetails.
  repeat apply conj.
  - intros Hd. rewrite set_then_early_get;
      [done | by right | rewrite or_default_some; lia].
  - intros Hd. apply set_then_late_get; [by right | | ];
      rewrite or_default_some; lia.
  - intros Hb. apply get_after_other_set; [done | | done | done].
    intros Heq. apply Hb. unfold number_to_string in Heq.
    by apply (inj _), (inj pretty) in Heq.
  - by apply get_after_other_set.
Qed.

Lemma X11_movie_details_cached_per_id_witness :
  let w1 :=
    elapse 1000
      (snd (CacheService.cacheMovieDetails CacheService.default_config 42
              (JStr "details") (mkWorld ∅ 0 []))) in
  fst (CacheService.getCachedMovieDetails 42 w1) = Ok (Some (JStr "details")) ∧
  fst (CacheService.getCachedMovieDetails 43 w1) = Ok None.
Proof.
  intros w1.
  destruct (X11_movie_details_cached_per_id CacheService.default_config
              42 43 (JStr "details") ∅ 0 1000) as (H1 & _ & H3 & _).
  - unfold metadata_ok. vm_compute. eauto.
  - split; [apply H1; lia|]. etrans; [by apply H3 | by vm_compute].
Defined.

(** X12. Search results are cached for ten minutes under the lower-cased
    query: with a working storage, results cached for a query are returned
    for every query equal to it ignoring letter case, up to ten minutes
    later and no longer afterwards; queries that differ after lower-casing
    are independent. *)
Theorem X12_search_results_cached_ignoring_case
    `{StringPrims} (cfg : CacheService.CacheConfig) (q q' : string)
    (ms : list Movie) (σ : gmap string json) (t d : Z) :
  metadata_ok σ →
  let w1 :=
    elapse d (snd (SearchResultsCache.cacheSearchResults cfg q ms
                     (mkWorld σ t []))) in
  (toLowerCase q' = toLowerCase q → d ≤ 10 * 60 * 1000 →
   fst (SearchResultsCache.getCachedSearchResults q' w1) = Ok (Some ms)) ∧
  (toLowerCase q' = toLowerCase q → d > 10 * 60 * 1000 →
   fst (SearchResultsCache.getCachedSearchResults q' w1) = Ok None) ∧
  (toLowerCase q' ≠ toLowerCase q →
   fst (SearchResultsCache.getCachedSearchResults q' w1)
   = fst (SearchResultsCache.getCachedSearchResults q'
            (mkWorld σ (t + d) []))).
Proof.
  intros Hok w1. subst w1.
  unfold SearchResultsCache.getCachedSearchResults,
    SearchResultsCache.cacheSearchResults.
  repeat apply conj.
  - intros -> Hd. erewrite get_movies_after_get; [done|].
    apply set_then_early_get;
      [by right | rewrite or_default_some; lia].
  - intros -> Hd. apply get_movies_none, set_then_late_get;
      [by right | | ]; rewrite or_default_some; lia.
  - intros Hq. apply get_movies_outcome, get_after_other_set;
      [done | | done | done].
    intros Heq. apply Hq. by apply (inj _) in Heq.
Qed.

Lemma X12_search_results_cached_ignoring_case_witness :
  let w1 :=
    elapse 1000
      (snd (@SearchResultsCache.cacheSearchResults ascii_prims
              CacheService.default_config "Matrix" [movie_n 603]
              (mkWorld ∅ 0 []))) in
  fst (@SearchResultsCache.getCachedSearchResults ascii_prims "MATRIX" w1)
  = Ok (Some [movie_n 603]).
Proof.
  intros w1.
  destruct (@X12_search_results_cached_ignoring_case ascii_prims
              CacheService.default_config "Matrix" "MATRIX" [movie_n 603]
              ∅ 0 1000) as (H1 & _).
  - unfold metadata_ok. vm_compute. eauto.
  - apply H1; [by vm_compute | lia].
Defined.

(** ** The storage service: favourites *)

Section StoredFavorites.
Import StorageService.

Lemma getFavorites_quiet σ t l :
  stored_favorites σ = Some l →
  getFavorites (mkWorld σ t []) = (Ok l, mkWorld σ t []).
Proof.
  unfold stored_favorites, getFavorites, try_catch, bind,
    AsyncStorage.getItem, io. cbn.
  destruct (σ !! KEYS.FAVORITES) as [doc|]; cbn.
  - by intros ->.
  - by intros [= <-].
Qed.

Lemma stored_favorites_insert l σ :
  stored_favorites (<[KEYS.FAVORITES := movies_to_json l]> σ) = Some l.
Proof.
  unfold stored_favorites. rewrite lookup_insert_eq. apply movies_roundtrip.
Qed.

Lemma storage_addToFavorites_quiet m σ t l :
  stored_favorites σ = Some l →
  addToFavorites m (mkWorld σ t []) =
  if some_id (id m) l then (Ok l, mkWorld σ t [])
  else (Ok (m :: l),
        mkWorld (<[KEYS.FAVORITES := movies_to_json (m :: l)]> σ) t []).
Proof.
  intros Hl. unfold addToFavorites, try_catch. unfold bind at 1.
  rewrite (getFavorites_quiet _ _ _ Hl).
  by destruct (some_id (id m) l).
Qed.

Lemma storage_removeFromFavorites_quiet i σ t l :
  stored_favorites σ = Some l →
  removeFromFavorites i (mkWorld σ t []) =
  (Ok (filter_id_ne i l),
   mkWorld (<[KEYS.FAVORITES := movies_to_json (filter_id_ne i l)]> σ) t []).
Proof.
  intros Hl. unfold removeFromFavorites, try_catch. unfold bind at 1.
  by rewrite (getFavorites_quiet _ _ _ Hl).
Qed.

Lemma storage_isFavorite_quiet i σ t l :
  stored_favorites σ = Some l →
  isFavorite i (mkWorld σ t []) = (Ok (some_id i l), mkWorld σ t []).
Proof.
  intros Hl. unfold isFavorite, try_catch. unfold bind.
  by rewrite (getFavorites_quiet _ _ _ Hl).
Qed.

Lemma some_id_filter_id_ne i l : some_id i (filter_id_ne i l) = false.
Proof.
  apply not_true_is_false. rewrite some_id_elem. apply ids_filter_absent.
Qed.

Lemma filter_id_ne_cons_absent m l :
  some_id (id m) l = false → filter_id_ne (id m) (m :: l) = l.
Proof.
  intros Hm. unfold filter_id_ne. cbn. rewrite Z.eqb_refl. cbn.
  apply filter_id_ne_absent. rewrite <- some_id_elem. by rewrite Hm.
Qed.

End StoredFavorites.

(** X13. The storage service's [addToFavorites] guards against a movie that
    is already a favourite: with a working storage it returns and stores a
    list that contains the movie, keeps a duplicate-free list duplicate-free,
    and a second call with the same movie returns the same list and leaves
    the storage as the first call left it. *)
Theorem X13_storage_add_favorite_is_idempotent
    (m : Movie) (l : list Movie) (σ : gmap string json) (t : Z) :
  stored_favorites σ = Some l →
  ∃ l1 w1,
    StorageService.addToFavorites m (mkWorld σ t []) = (Ok l1, w1) ∧
    stored_favorites (storage w1) = Some l1 ∧
    some_id (id m) l1 = true ∧
    (NoDup (ids l) → NoDup (ids l1)) ∧
    StorageService.addToFavorites m w1 = (Ok l1, w1) ∧
    fst (StorageService.isFavorite (id m) w1) = Ok true.
Proof.
  intros Hl. rewrite (storage_addToFavorites_quiet _ _ _ _ Hl).
  destruct (some_id (id m) l) eqn:Hm.
  - exists l, (mkWorld σ t []). repeat apply conj; try done.
    + by rewrite (storage_addToFavorites_quiet _ _ _ _ Hl), Hm.
    + by rewrite (storage_isFavorite_quiet _ _ _ _ Hl), Hm.
  - pose proof (stored_favorites_insert (m :: l) σ) as Hl1.
    assert (some_id (id m) (m :: l) = true) as Hm1.
    { unfold some_id. cbn. by rewrite Z.eqb_refl. }
    eexists (m :: l), _. repeat apply conj; try done.
    + intros Hnd. unfold ids. cbn. apply NoDup_cons. split; [|done].
      fold (ids l). rewrite <- some_id_elem. by rewrite Hm.
    + by rewrite (storage_addToFavorites_quiet _ _ _ _ Hl1), Hm1.
    + by rewrite (storage_isFavorite_quiet _ _ _ _ Hl1), Hm1.
Qed.

Lemma X13_storage_add_favorite_is_idempotent_witness :
  ∃ l1 w1,
    StorageService.addToFavorites (movie_n 42)
      (mkWorld {[ StorageService.KEYS.FAVORITES := movies_to_json [movie_n 7] ]}
         0 []) = (Ok l1, w1) ∧
    StorageService.addToFavorites (movie_n 42) w1 = (Ok l1, w1).
Proof.
  destruct (X13_storage_add_favorite_is_idempotent (movie_n 42) [movie_n 7]
              {[ StorageService.KEYS.FAVORITES := movies_to_json [movie_n 7] ]} 0)
    as (l1 & w1 & H1 & _ & _ & _ & H2 & _).
  - by vm_compute.
  - by exists l1, w1.
Defined.

(** X14. The storage service's [removeFromFavorites]: with a working storage
    it returns and stores the favourites without the given identifier, in
    their previous order; the identifier is no favourite afterwards;
    removing an identifier that is no favourite changes nothing in the list;
    and removing a movie right after adding it, when it was no favourite
    before, gives the previous list back. *)
Theorem X14_storage_remove_favorite
    (m : Movie) (l : list Movie) (σ : gmap string json) (t : Z) :
  stored_favorites σ = Some l →
  let r := StorageService.removeFromFavorites (id m) (mkWorld σ t []) in
  (∃ l1, fst r = Ok l1 ∧
         stored_favorites (storage (snd r)) = Some l1 ∧
         (id m ∉ ids l1) ∧
         ids l1 `sublist_of` ids l ∧
         (id m ∉ ids l → l1 = l)) ∧
  fst (StorageService.isFavorite (id m) (snd r)) = Ok false ∧
  (some_id (id m) l = false →
   let w1 := snd (StorageService.addToFavorites m (mkWorld σ t [])) in
   fst (StorageService.removeFromFavorites (id m) w1) = Ok l ∧
   stored_favorites (storage (snd (StorageService.removeFromFavorites (id m) w1)))
   = Some l).
Proof.
  intros Hl r. subst r.
  rewrite (storage_removeFromFavorites_quiet _ _ _ _ Hl). cbn [fst snd storage].
  pose proof (stored_favorites_insert (filter_id_ne (id m) l) σ) as Hl1.
  repeat apply conj.
  - exists (filter_id_ne (id m) l). repeat apply conj; try done.
    + apply ids_filter_absent.
    + apply ids_filter_sublist.
    + apply filter_id_ne_absent.
  - by rewrite (storage_isFavorite_quiet _ _ _ _ Hl1), some_id_filter_id_ne.
  - intros Hm.
    rewrite (storage_addToFavorites_quiet _ _ _ _ Hl), Hm. cbn [snd].
    pose proof (stored_favorites_insert (m :: l) σ) as Hl2.
    rewrite (storage_removeFromFavorites_quiet _ _ _ _ Hl2).
    cbn [fst snd storage]. rewrite filter_id_ne_cons_absent by done.
    split; [done|]. apply stored_favorites_insert.
Qed.

Lemma X14_storage_remove_favorite_witness :
  let σ : gmap string json :=
    {[ StorageService.KEYS.FAVORITES := movies_to_json [movie_n 7] ]} in
  let w1 := snd (StorageService.addToFavorites (movie_n 42) (mkWorld σ 0 [])) in
  fst (StorageService.removeFromFavorites 42 w1) = Ok [movie_n 7].
Proof.
  intros σ w1.
  destruct (X14_storage_remove_favorite (movie_n 42) [movie_n 7] σ 0)
    as (_ & _ & H3).
  - by vm_compute.
  - by destruct H3 as [H3 _].
Defined.

(** X15. A failed read is taken for an empty list and then written back:
    when the read of the stored favourites fails and the write that follows
    succeeds, [addToFavorites m] stores the one-element list [m] and
    [removeFromFavorites] stores the empty list, whatever favourites the
    storage held. *)
Theorem X15_failed_read_overwrites_stored_favorites
    (m : Movie) (i : Z) (σ : gmap string json) (t : Z) (fs : list bool) :
  StorageService.addToFavorites m (mkWorld σ t (true :: false :: fs))
  = (Ok [m],
     mkWorld (<[StorageService.KEYS.FAVORITES := movies_to_json [m]]> σ) t fs) ∧
  StorageService.removeFromFavorites i (mkWorld σ t (true :: false :: fs))
  = (Ok [],
     mkWorld (<[StorageService.KEYS.FAVORITES := movies_to_json []]> σ) t fs) ∧
  stored_favorites
    (storage (snd (StorageService.addToFavorites m
                     (mkWorld σ t (true :: false :: fs))))) = Some [m] ∧
  stored_favorites
    (storage (snd (StorageService.removeFromFavorites i
                     (mkWorld σ t (true :: false :: fs))))) = Some [].
Proof.
  assert (StorageService.addToFavorites m (mkWorld σ t (true :: false :: fs))
          = (Ok [m],
             mkWorld (<[StorageService.KEYS.FAVORITES := movies_to_json [m]]> σ)
               t fs)) as Hadd by reflexivity.
  assert (StorageService.removeFromFavorites i
            (mkWorld σ t (true :: false :: fs))
          = (Ok [],
             mkWorld (<[StorageService.KEYS.FAVORITES := movies_to_json []]> σ)
               t fs)) as Hrem by reflexivity.
  rewrite Hadd, Hrem. cbn [snd storage].
  repeat apply conj; try done; apply stored_favorites_insert.
Qed.

(** ** What is thrown, and by whom *)

Section Throwing.

Lemma never_throws_try_catch {A} (m : M A) (h : Err → M A) :
  (∀ e, never_throws (h e)) → never_throws (try_catch m h).
Proof.
  intros Hh w e. apply try_catch_never_throws. intros e0 w' e'. apply Hh.
Qed.

Lemma never_throws_ret {A} (a : A) : never_throws (ret a).
Proof. by intros w e. Qed.

Lemma never_throws_untyped {A} : never_throws (@untyped A).
Proof. by intros w e. Qed.

Lemma never_throws_bind {A B} (m : M A) (f : A → M B) :
  never_throws m → (∀ a, never_throws (f a)) → never_throws (bind m f).
Proof.
  intros Hm Hf w e. unfold bind. specialize (Hm w).
  destruct (m w) as [[a|e'|] w']; cbn in *; [apply Hf | by destruct (Hm e') | done].
Qed.

(** A body that does not throw is not affected by its handler. *)
Lemma try_catch_unused {A} (m : M A) (h : Err → M A) :
  never_throws m → ∀ w, try_catch m h w = m w.
Proof.
  intros Hm w. unfold try_catch. specialize (Hm w).
  destruct (m w) as [[a|e|] w']; cbn in *; [done | by destruct (Hm e) | done].
Qed.

(** A handler that throws one fixed error lets no other error out. *)
Lemma try_catch_throws_only {A} (m : M A) (e0 : Err) w e :
  fst (try_catch m (fun _ => throw e0) w) = Throw e → e = e0.
Proof.
  unfold try_catch, throw. destruct (m w) as [[a|e'|] w']; cbn; congruence.
Qed.

Lemma never_throws_get k : never_throws (CacheService.get k).
Proof. apply never_throws_try_catch. intros e. apply never_throws_ret. Qed.

Lemma never_throws_set cfg k v ttl : never_throws (CacheService.set cfg k v ttl).
Proof. apply never_throws_try_catch. intros e. apply never_throws_ret. Qed.

Lemma never_throws_get_movies k : never_throws (CacheService.get_movies k).
Proof.
  apply never_throws_bind; [apply never_throws_get|].
  intros [j|]; [|apply never_throws_ret].
  destruct (movies_of_json j); [apply never_throws_ret | apply never_throws_untyped].
Qed.

Lemma never_throws_getFavorites : never_throws StorageService.getFavorites.
Proof. apply never_throws_try_catch. intros e. apply never_throws_ret. Qed.

Lemma never_throws_getSearchHistory :
  never_throws StorageService.getSearchHistory.
Proof. apply never_throws_try_catch. intros e. apply never_throws_ret. Qed.

End Throwing.

Create HintDb fail_soft.
#[local] Hint Resolve never_throws_get never_throws_set never_throws_get_movies
  never_throws_ret never_throws_untyped never_throws_getFavorites
  never_throws_getSearchHistory : fail_soft.
#[local] Hint Extern 1 (never_throws (try_catch _ (fun _ => ret _))) =>
  apply never_throws_try_catch; intros ?; apply never_throws_ret : fail_soft.

(** X16. No operation of the cache service throws, whichever storage calls
    fail: removal, clearing, the sweep and the size limit, and every typed
    wrapper for movie lists, details, credits, search results, genres,
    preferences, favourites and recently viewed movies. *)
Theorem X16_cache_service_never_throws `{StringPrims}
    (cfg : CacheService.CacheConfig) :
  (∀ k, never_throws (CacheService.remove k)) ∧
  never_throws CacheService.clear ∧
  never_throws (CacheService.cleanupExpiredItems cfg) ∧
  never_throws (CacheService.enforceCacheSize cfg) ∧
  (∀ c ms, never_throws (CacheService.cacheMovieList cfg c ms)) ∧
  (∀ c, never_throws (CacheService.getCachedMovieList c)) ∧
  (∀ i d, never_throws (CacheService.cacheMovieDetails cfg i d)) ∧
  (∀ i, never_throws (CacheService.getCachedMovieDetails i)) ∧
  (∀ i c, never_throws (CacheService.cacheMovieCredits cfg i c)) ∧
  (∀ i, never_throws (CacheService.getCachedMovieCredits i)) ∧
  (∀ q ms, never_throws (SearchResultsCache.cacheSearchResults cfg q ms)) ∧
  (∀ q, never_throws (SearchResultsCache.getCachedSearchResults q)) ∧
  (∀ gs, never_throws (CacheService.cacheGenres cfg gs)) ∧
  never_throws CacheService.getCachedGenres ∧
  (∀ p, never_throws (CacheService.cacheUserPreferences cfg p)) ∧
  never_throws CacheService.getCachedUserPreferences ∧
  (∀ l, never_throws (CacheService.cacheFavorites cfg l)) ∧
  never_throws CacheService.getCachedFavorites ∧
  (∀ l, never_throws (CacheService.cacheRecentlyViewed cfg l)) ∧
  never_throws CacheService.getCachedRecentlyViewed.
Proof.
  repeat apply conj; intros;
    try (unfold CacheService.remove, CacheService.clear,
           CacheService.cleanupExpiredItems, CacheService.enforceCacheSize;
         by auto with fail_soft);
    try (by apply never_throws_set);
    try (by apply never_throws_get);
    try (by apply never_throws_get_movies).
  apply never_throws_bind; [apply never_throws_get|].
  intros [j|]; [|apply never_throws_ret].
  destruct (genres_of_json j); auto with fail_soft.
Qed.

(** X17. What the storage service lets out.  Its readers and its cache
    functions never throw, whichever storage calls fail.  Each of its
    writers throws nothing but an [Error] with the writer's own fixed
    message, so the cause of the failure does not reach the caller;
    [addToFavorites], for instance, reports a failed [saveFavorites] as
    'Failed to add to favorites'. *)
Theorem X17_storage_service_errors `{StringPrims} :
  never_throws StorageService.getFavorites ∧
  (∀ i, never_throws (StorageService.isFavorite i)) ∧
  never_throws StorageService.getSearchHistory ∧
  never_throws StorageService.getUserPreferences ∧
  (∀ k v c, never_throws (StorageService.cacheData k v c)) ∧
  (∀ k c, never_throws (StorageService.getCachedData k c)) ∧
  never_throws StorageService.clearCache ∧
  (∀ l w e, fst (StorageService.saveFavorites l w) = Throw e →
            e = Error "Failed to save favorites") ∧
  (∀ m w e, fst (StorageService.addToFavorites m w) = Throw e →
            e = Error "Failed to add to favorites") ∧
  (∀ i w e, fst (StorageService.removeFromFavorites i w) = Throw e →
            e = Error "Failed to remove from favorites") ∧
  (∀ l w e, fst (StorageService.saveSearchHistory l w) = Throw e →
            e = Error "Failed to save search history") ∧
  (∀ q w e, fst (StorageService.addToSearchHistory q w) = Throw e →
            e = Error "Failed to add to search history") ∧
  (∀ w e, fst (StorageService.clearSearchHistory w) = Throw e →
          e = Error "Failed to clear search history") ∧
  (∀ p w e, fst (StorageService.saveUserPreferences p w) = Throw e →
            e = Error "Failed to save user preferences") ∧
  (∀ w e, fst (StorageService.clearAllData w) = Throw e →
          e = Error "Failed to clear all data").
Proof.
  repeat apply conj; intros;
    try (by eapply try_catch_throws_only);
    try (unfold StorageService.isFavorite, StorageService.getUserPreferences,
           StorageService.cacheData, StorageService.getCachedData,
           StorageService.clearCache;
         by auto with fail_soft).
Qed.

Lemma X17_storage_service_errors_witness :
  fst (StorageService.removeFromFavorites 7 (mkWorld ∅ 0 [false; true]))
  = Throw (Error "Failed to remove from favorites").
Proof.
  destruct (fst (StorageService.removeFromFavorites 7
                   (mkWorld ∅ 0 [false; true]))) as [l|e|] eqn:E.
  - by vm_compute in E.
  - f_equal.
    exact (proj1 (proj2 (proj2 (proj2 (proj2 (proj2 (proj2 (proj2 (proj2 (proj2
             (@X17_storage_service_errors ascii_prims))))))))))
             7 (mkWorld ∅ 0 [false; true]) e E).
  - by vm_compute in E.
Defined.

(** ** The storage service: search history, preferences and cached data *)

Section StoredData.
Import StorageService.

Lemma stored_history_insert l σ :
  stored_history (<[KEYS.SEARCH_HISTORY := strings_to_json l]> σ) = Some l.
Proof.
  unfold stored_history. rewrite lookup_insert_eq. apply strings_roundtrip.
Qed.

Lemma stored_history_delete σ :
  stored_history (delete KEYS.SEARCH_HISTORY σ) = Some [].
Proof. unfold stored_history. by rewrite lookup_delete_eq. Qed.

Lemma theme_roundtrip th : theme_of_json (theme_to_json th) = Some th.
Proof. by destruct th. Qed.

Lemma preferences_roundtrip p :
  preferences_of_json (preferences_to_json p) = Some p.
Proof.
  destruct p as [th gs lang]. unfold preferences_of_json, preferences_to_json.
  cbn. rewrite theme_roundtrip. cbn.
  by rewrite (decode_list_encode JNum as_num gs).
Qed.

Lemma or_key_nonempty c k : c ≠ "" → or_key (Some c) k = c.
Proof. intros Hc. unfold or_key. by destruct (String.eqb_spec c ""). Qed.

Lemma cacheData_quiet key data customKey σ t :
  cacheData key data customKey (mkWorld σ t []) =
  (Ok tt,
   mkWorld (<[or_key customKey key :=
                JObj [("data", data); ("timestamp", JNum t)]]> σ) t []).
Proof. reflexivity. Qed.

Lemma clearCache_quiet σ t :
  clearCache (mkWorld σ t []) =
  (Ok tt,
   mkWorld
     (foldr delete σ
        (List.filter (λ key, includes "@MovieBrowserApp:movieCache" key)
           (map fst (map_to_list σ)))) t []).
Proof. reflexivity. Qed.

Lemma getCachedData_fresh key customKey data ts σ t :
  σ !! or_key customKey key
  = Some (JObj [("data", data); ("timestamp", JNum ts)]) →
  t - ts ≤ CACHE_EXPIRY →
  getCachedData key customKey (mkWorld σ t []) = (Ok (Some data), mkWorld σ t []).
Proof.
  intros Hσ Ht.
  unfold getCachedData, try_catch, bind, AsyncStorage.getItem, Date_now, io. cbn.
  rewrite Hσ. cbn.
  by rewrite Z.gtb_ltb, (proj2 (Z.ltb_ge _ _) Ht).
Qed.

End StoredData.

(** X18. The search history of the storage service, with a working storage:
    a blank query is not recorded ([addToSearchHistory] then is
    [getSearchHistory], whichever storage calls fail); [saveSearchHistory]
    keeps the first ten entries only; after [clearSearchHistory] the history
    is empty and the next query recorded is alone in it. *)
Theorem X18_search_history_blank_save_clear `{StringPrims}
    (q : string) (l : list string) (σ : gmap string json) (t : Z) :
  (trim q = "" →
   ∀ w, StorageService.addToSearchHistory q w
        = StorageService.getSearchHistory w) ∧
  (let w1 := snd (StorageService.saveSearchHistory l (mkWorld σ t [])) in
   StorageService.getSearchHistory w1 = (Ok (take 10 l), w1)) ∧
  (let w2 := snd (StorageService.clearSearchHistory (mkWorld σ t [])) in
   StorageService.getSearchHistory w2 = (Ok [], w2) ∧
   (trim q ≠ "" → fst (StorageService.addToSearchHistory q w2) = Ok [q])).
Proof.
  repeat apply conj.
  - intros Hq w. unfold StorageService.addToSearchHistory.
    rewrite Hq. cbn [String.eqb].
    apply try_catch_unused, never_throws_getSearchHistory.
  - cbn. apply getSearchHistory_quiet, stored_history_insert.
  - cbn. apply getSearchHistory_quiet, stored_history_delete.
  - intros Hq. cbn.
    by rewrite (addToSearchHistory_quiet q [] _ _ Hq (stored_history_delete σ)).
Qed.

Lemma X18_search_history_blank_save_clear_witness :
  @StorageService.addToSearchHistory ascii_prims "  "
    (mkWorld {[ StorageService.KEYS.SEARCH_HISTORY := strings_to_json ["dune"] ]}
       0 [])
  = (Ok ["dune"],
     mkWorld {[ StorageService.KEYS.SEARCH_HISTORY := strings_to_json ["dune"] ]}
       0 []) ∧
  fst (@StorageService.addToSearchHistory ascii_prims "alien"
         (snd (StorageService.clearSearchHistory
                 (mkWorld {[ StorageService.KEYS.SEARCH_HISTORY :=
                               strings_to_json ["dune"] ]} 0 []))))
  = Ok ["alien"].
Proof.
  destruct (@X18_search_history_blank_save_clear ascii_prims "  " []
              {[ StorageService.KEYS.SEARCH_HISTORY := strings_to_json ["dune"] ]}
              0) as (Hblank & _).
  destruct (@X18_search_history_blank_save_clear ascii_prims "alien" []
              {[ StorageService.KEYS.SEARCH_HISTORY := strings_to_json ["dune"] ]}
              0) as (_ & _ & _ & Hnext).
  split.
  - rewrite Hblank by (by vm_compute). by vm_compute.
  - apply Hnext. by vm_compute.
Defined.

(** X19. User preferences.  When none are stored, [getUserPreferences]
    returns the defaults (system theme, no favourite genres, en-US) and
    stores them; if that write fails, or if the read fails, it still returns
    the defaults and the storage is unchanged.  Preferences saved with
    [saveUserPreferences] are the ones [getUserPreferences] returns. *)
Theorem X19_user_preferences_default_and_round_trip
    (p : UserPreferences) (σ : gmap string json) (t : Z) (fs : list bool) :
  (σ !! StorageService.KEYS.USER_PREFERENCES = None →
   StorageService.getUserPreferences (mkWorld σ t [])
   = (Ok StorageService.defaultPreferences,
      mkWorld (<[StorageService.KEYS.USER_PREFERENCES :=
                   preferences_to_json StorageService.defaultPreferences]> σ)
        t []) ∧
   StorageService.getUserPreferences (mkWorld σ t (false :: true :: fs))
   = (Ok StorageService.defaultPreferences, mkWorld σ t fs)) ∧
  StorageService.getUserPreferences (mkWorld σ t (true :: fs))
  = (Ok StorageService.defaultPreferences, mkWorld σ t fs) ∧
  (let w1 := snd (StorageService.saveUserPreferences p (mkWorld σ t [])) in
   StorageService.getUserPreferences w1 = (Ok p, w1)).
Proof.
  repeat apply conj.
  - intros Hσ.
    unfold StorageService.getUserPreferences, StorageService.saveUserPreferences,
      try_catch, bind, AsyncStorage.getItem, AsyncStorage.setItem, io. cbn.
    rewrite Hσ. by cbn.
  - reflexivity.
  - cbn.
    unfold StorageService.getUserPreferences, try_catch, bind,
      AsyncStorage.getItem, io. cbn.
    by rewrite lookup_insert_eq, preferences_roundtrip.
Qed.

Lemma X19_user_preferences_default_and_round_trip_witness :
  fst (StorageService.getUserPreferences (mkWorld ∅ 0 []))
  = Ok StorageService.defaultPreferences ∧
  fst (StorageService.getUserPreferences
         (snd (StorageService.getUserPreferences (mkWorld ∅ 0 []))))
  = Ok StorageService.defaultPreferences.
Proof.
  destruct (X19_user_preferences_default_and_round_trip
              StorageService.defaultPreferences ∅ 0 []) as (H1 & _ & _).
  destruct H1 as [H1 _]; [done|].
  rewrite H1. split; [done|]. by vm_compute.
Defined.

(** X20. The storage service's timed cache.  [cacheData key data customKey]
    stores the data under the custom key when one is given (and not empty)
    and under [key] otherwise, so with a custom key the [key] argument plays
    no part.  With a working storage, [getCachedData] with the same
    arguments returns the data up to twenty-four hours later; later than
    that it returns nothing and deletes the entry. *)
Theorem X20_cached_data_round_trip_and_expiry
    (key key' : string) (customKey : option string) (data : json)
    (σ : gmap string json) (t d : Z) :
  let w1 :=
    elapse d (snd (StorageService.cacheData key data customKey
                     (mkWorld σ t []))) in
  (d ≤ 24 * 60 * 60 * 1000 →
   StorageService.getCachedData key customKey w1 = (Ok (Some data), w1)) ∧
  (d > 24 * 60 * 60 * 1000 →
   fst (StorageService.getCachedData key customKey w1) = Ok None ∧
   storage (snd (StorageService.getCachedData key customKey w1))
   = delete (StorageService.or_key customKey key) (storage w1)) ∧
  (∀ c, customKey = Some c → c ≠ "" →
        StorageService.cacheData key data customKey
        = StorageService.cacheData key' data customKey ∧
        StorageService.getCachedData key customKey
        = StorageService.getCachedData key' customKey).
Proof.
  intros w1. subst w1.
  assert (∀ b : bool,
            (24 * 60 * 60 * 1000 <? d) = b →
            StorageService.getCachedData key customKey
              (elapse d (snd (StorageService.cacheData key data customKey
                                (mkWorld σ t []))))
            = if b
              then (Ok None,
                    mkWorld
                      (delete (StorageService.or_key customKey key)
                         (<[StorageService.or_key customKey key :=
                              JObj [("data", data); ("timestamp", JNum t)]]> σ))
                      (t + d) [])
              else (Ok (Some data),
                    mkWorld
                      (<[StorageService.or_key customKey key :=
                           JObj [("data", data); ("timestamp", JNum t)]]> σ)
                      (t + d) [])) as Hrun.
  { intros b Hb.
    unfold StorageService.getCachedData, StorageService.cacheData, try_catch,
      bind, AsyncStorage.getItem, AsyncStorage.setItem,
      AsyncStorage.removeItem, Date_now, elapse, io. cbn.
    rewrite lookup_insert_eq. cbn.
    unfold StorageService.CACHE_EXPIRY.
    replace (t + d - t) with d by lia. rewrite Z.gtb_ltb, Hb.
    by destruct b. }
  repeat apply conj.
  - intros Hd. rewrite (Hrun false) by (apply Z.ltb_ge; lia). reflexivity.
  - intros Hd. rewrite (Hrun true) by (apply Z.ltb_lt; lia). by split.
  - intros c -> Hc.
    unfold StorageService.cacheData, StorageService.getCachedData.
    by rewrite !(or_key_nonempty c) by done.
Qed.

Lemma X20_cached_data_round_trip_and_expiry_witness :
  let w1 :=
    elapse 1000 (snd (StorageService.cacheData "genres" (JStr "v") None
                        (mkWorld ∅ 0 []))) in
  StorageService.getCachedData "genres" None w1 = (Ok (Some (JStr "v")), w1).
Proof.
  intros w1.
  destruct (X20_cached_data_round_trip_and_expiry "genres" "" None (JStr "v")
              ∅ 0 1000) as (H1 & _).
  apply H1. lia.
Defined.

(** X21. With a working storage, the storage service's [clearCache] removes
    exactly the entries whose key contains [@MovieBrowserApp:movieCache].
    Favourites, search history and preferences are kept, and so is an entry
    that [cacheData] wrote under a key that does not contain that text:
    [cacheData] stores under the key it is given, without a prefix. *)
Theorem X21_clearCache_removes_only_movie_cache_keys
    (key : string) (data : json) (σ : gmap string json) (t : Z) :
  (∀ k, storage (snd (StorageService.clearCache (mkWorld σ t []))) !! k
        = if includes "@MovieBrowserApp:movieCache" k then None else σ !! k) ∧
  (∀ k, k ∈ [StorageService.KEYS.FAVORITES; StorageService.KEYS.SEARCH_HISTORY;
             StorageService.KEYS.USER_PREFERENCES] →
        storage (snd (StorageService.clearCache (mkWorld σ t []))) !! k
        = σ !! k) ∧
  (includes "@MovieBrowserApp:movieCache" key = false →
   let w1 := snd (StorageService.cacheData key data None (mkWorld σ t [])) in
   fst (StorageService.getCachedData key None
          (snd (StorageService.clearCache w1))) = Ok (Some data)).
Proof.
  assert (∀ σ' t' k,
            storage (snd (StorageService.clearCache (mkWorld σ' t' []))) !! k
            = if includes "@MovieBrowserApp:movieCache" k then None
              else σ' !! k) as Hall.
  { intros σ' t' k. rewrite clearCache_quiet. cbn [snd storage].
    apply (lookup_remove_matching
             (λ key, includes "@MovieBrowserApp:movieCache" key)). }
  repeat apply conj.
  - apply Hall.
  - intros k Hk. rewrite Hall.
    repeat (apply elem_of_cons in Hk as [->|Hk]; [by vm_compute|]).
    by apply elem_of_nil in Hk.
  - intros Hkey. rewrite cacheData_quiet. cbn [snd].
    rewrite clearCache_quiet. cbn [fst snd].
    rewrite (getCachedData_fresh key None data t);
      [done | | unfold StorageService.CACHE_EXPIRY; lia].
    cbn [StorageService.or_key].
    rewrite (lookup_remove_matching
               (λ key, includes "@MovieBrowserApp:movieCache" key)), Hkey.
    by rewrite lookup_insert_eq.
Qed.

Lemma X21_clearCache_removes_only_movie_cache_keys_witness :
  let w1 :=
    snd (StorageService.cacheData "genres" (JStr "v") None (mkWorld ∅ 0 [])) in
  fst (StorageService.getCachedData "genres" None
         (snd (StorageService.clearCache w1))) = Ok (Some (JStr "v")).
Proof.
  intros w1.
  destruct (X21_clearCache_removes_only_movie_cache_keys "genres" (JStr "v")
              ∅ 0) as (_ & _ & H3).
  apply H3. by vm_compute.
Defined.

(** ** The favourites provider: the other callbacks *)

Section Provider.
Import FavoritesContext.

Lemma set_total cfg k v ttl σ t fs :
  k = CacheService.KEYS.CACHE_METADATA ∨ metadata_ok σ →
  ∃ w', CacheService.set cfg k v ttl (mkWorld σ t fs) = (Ok tt, w').
Proof.
  intros Hok. unfold CacheService.set, try_catch, AsyncStorage.setItem, bind,
    Date_now. cbv beta iota.
  destruct (io_cases (mkWorld σ t fs)) as [[fs' ->]|[fs' ->]]; cbn; [|eauto].
  set (item := CacheService.item_to_json _).
  destruct (updateCacheMetadata_total k (<[k := item]> σ) t fs') as [w' ->];
    [|eauto].
  destruct (decide (k = CacheService.KEYS.CACHE_METADATA)) as [->|Hne].
  - unfold metadata_ok, item, CacheService.item_to_json.
    by rewrite meta_fields_insert_meta.
  - unfold metadata_ok. rewrite meta_fields_insert_ne by done. by destruct Hok.
Qed.


Lemma get_movies_set_storage cfg k l σ t :
  0 ≤ CacheService.defaultExpirationTime cfg →
  fst (CacheService.get_movies k
         (mkWorld (set_storage cfg k (movies_to_json l) None t σ) t []))
  = Ok (Some l).
Proof.
  intros Hd.
  erewrite get_movies_after_get; [done|].
  pose proof (set_storage_item cfg k (movies_to_json l) None t σ) as Hitem.
  rewrite (get_quiet_fresh _ _ _ _ Hitem); [done|].
  apply expired_b_fresh. cbn [CacheService.or_default]. lia.
Qed.

Lemma cacheFavorites_persists cfg l state' h σ t :
  metadata_ok σ →
  0 ≤ CacheService.defaultExpirationTime cfg →
  FavoritesContext.favorites state' = l →
  persists_favorites
    (try_catch
       (let* _ := CacheService.cacheFavorites cfg l in
        let* _ := ret tt in ret state') h)
    (mkWorld σ t []).
Proof.
  intros Hok Hd Hl. unfold persists_favorites, CacheService.cacheFavorites,
    try_catch, bind.
  rewrite set_quiet by (by right). cbn.
  eexists _, _. split; [done|].
  rewrite Hl. by apply get_movies_set_storage.
Qed.

Lemma import_list_NoDup (favs ms : list Movie) :
  NoDup (ids favs) → NoDup (ids ms) →
  NoDup (ids (favs ++
              List.filter (fun movie => negb (some_id (id movie) favs)) ms)).
Proof.
  intros Hf Hm. unfold ids. rewrite map_app. apply NoDup_app. repeat apply conj.
  - done.
  - intros i Hi Hin.
    apply list_elem_of_In, in_map_iff in Hin as (x & <- & Hx).
    apply filter_In in Hx as [_ Hx]. apply negb_true_iff in Hx.
    apply (proj2 (some_id_elem _ _)) in Hi. congruence.
  - eapply sublist_NoDup; [exact Hm|].
    clear. induction ms as [|x ms IH]; cbn; [constructor|].
    destruct (negb (some_id (id x) favs)); cbn; by constructor.
Qed.

Lemma some_id_app i l1 l2 : some_id i (l1 ++ l2) = some_id i l1 || some_id i l2.
Proof. unfold some_id. apply existsb_app. Qed.

Lemma some_id_In x l : In x l → some_id (id x) l = true.
Proof.
  intros Hx. unfold some_id. apply existsb_exists. exists x.
  split; [done | apply Z.eqb_refl].
Qed.

Lemma list_filter_none {A} (p : A → bool) l :
  (∀ x, In x l → p x = false) → List.filter p l = [].
Proof.
  induction l as [|x l IH]; [done|]. intros Hp. cbn.
  rewrite (Hp x) by (by left). apply IH. intros y Hy. apply Hp. by right.
Qed.

(** Every movie of the batch is a favourite after the import. *)
Lemma import_list_covers (favs ms : list Movie) x :
  In x ms →
  some_id (id x)
    (favs ++ List.filter (fun movie => negb (some_id (id movie) favs)) ms) = true.
Proof.
  intros Hx. rewrite some_id_app.
  destruct (some_id (id x) favs) eqn:E; [done|]. cbn.
  apply some_id_In, filter_In. split; [done|]. by rewrite E.
Qed.

Lemma import_list_again (favs ms : list Movie) :
  List.filter
    (fun movie =>
       negb (some_id (id movie)
               (favs ++
                List.filter (fun movie => negb (some_id (id movie) favs)) ms)))
    ms = [].
Proof.
  apply list_filter_none. intros x Hx.
  by rewrite (import_list_covers favs ms x Hx).
Qed.

End Provider.



(** X23. Apart from [addToFavorites], the callbacks of the favourites
    provider persist the list they put in memory: with a working storage
    and a default expiration time that is not negative, after
    [removeFromFavorites], [clearFavorites], [importFavorites] and after
    [toggleFavorite] (which adds only a movie that is no favourite yet) the
    cached favourites are the favourites of the new state. *)
Theorem X23_provider_callbacks_persist_memory
    (cfg : CacheService.CacheConfig) (state : FavoritesContext.FavoritesState)
    (m : Movie) (i : Z) (ms : list Movie) (σ : gmap string json) (t : Z) :
  metadata_ok σ →
  0 ≤ CacheService.defaultExpirationTime cfg →
  let w := mkWorld σ t [] in
  persists_favorites (FavoritesContext.removeFromFavorites cfg state i) w ∧
  persists_favorites (FavoritesContext.clearFavorites cfg state) w ∧
  persists_favorites (FavoritesContext.importFavorites cfg state ms) w ∧
  persists_favorites (FavoritesContext.toggleFavorite cfg state m) w.
Proof.
  intros Hok Hd w. subst w.
  assert (persists_favorites
            (FavoritesContext.removeFromFavorites cfg state i)
            (mkWorld σ t [])) as Hremove.
  { intros. by apply cacheFavorites_persists. }
  repeat apply conj.
  - exact Hremove.
  - by apply cacheFavorites_persists.
  - unfold persists_favorites, FavoritesContext.importFavorites,
      CacheService.cacheFavorites, try_catch, bind.
    rewrite set_quiet by (by right). cbn.
    eexists _, _. split; [done|]. by apply get_movies_set_storage.
  - unfold FavoritesContext.toggleFavorite, FavoritesContext.isFavorite.
    destruct (some_id (id m) (FavoritesContext.favorites state)) eqn:E.
    + by apply cacheFavorites_persists.
    + apply cacheFavorites_persists; [done..|]. cbn. by rewrite E.
Qed.

Lemma X23_provider_callbacks_persist_memory_witness :
  persists_favorites
    (FavoritesContext.toggleFavorite CacheService.default_config
       (FavoritesContext.mkFavoritesState [movie_n 7] [] false None)
       (movie_n 42))
    (mkWorld ∅ 0 []).
Proof.
  destruct (X23_provider_callbacks_persist_memory CacheService.default_config
              (FavoritesContext.mkFavoritesState [movie_n 7] [] false None)
              (movie_n 42) 0 [] ∅ 0) as (_ & _ & _ & H4).
  - unfold metadata_ok. vm_compute. eauto.
  - cbn. lia.
  - exact H4.
Defined.

(** X24. [importFavorites] merges a batch into the favourites: whichever
    storage calls fail, the previous favourites stay in front in their
    order, every movie of the batch is a favourite afterwards, no other
    identifier appears, a duplicate-free list stays duplicate-free when the
    batch itself has no repeated identifier, and importing the same batch
    once more changes nothing. *)
Theorem X24_import_merges_without_duplicates
    (cfg : CacheService.CacheConfig) (state : FavoritesContext.FavoritesState)
    (ms : list Movie) (σ : gmap string json) (t : Z) (fs : list bool) :
  metadata_ok σ →
  ∃ state',
    fst (FavoritesContext.importFavorites cfg state ms (mkWorld σ t fs))
    = Ok state' ∧
    FavoritesContext.favorites state `prefix_of`
      FavoritesContext.favorites state' ∧
    (∀ x, x ∈ ms → FavoritesContext.isFavorite state' (id x) = true) ∧
    (∀ j, j ∈ ids (FavoritesContext.favorites state') →
          j ∈ ids (FavoritesContext.favorites state) ∨ j ∈ ids ms) ∧
    (NoDup (ids (FavoritesContext.favorites state)) → NoDup (ids ms) →
     NoDup (ids (FavoritesContext.favorites state'))) ∧
    (∀ σ1 t1 fs1, metadata_ok σ1 →
       fst (FavoritesContext.importFavorites cfg state' ms (mkWorld σ1 t1 fs1))
       = Ok state').
Proof.
  intros Hok.
  assert (∀ st σ0 t0 fs0, metadata_ok σ0 →
            fst (FavoritesContext.importFavorites cfg st ms (mkWorld σ0 t0 fs0))
            = Ok (FavoritesContext.mkFavoritesState
                    (FavoritesContext.favorites st ++
                     List.filter
                       (fun movie =>
                          negb (some_id (id movie) (FavoritesContext.favorites st)))
                       ms)
                    (FavoritesContext.recentlyViewed st) false
                    (FavoritesContext.error st))) as Hrun.
  { intros st σ0 t0 fs0 Hok0.
    unfold FavoritesContext.importFavorites, CacheService.cacheFavorites,
      try_catch, bind.
    match goal with
    | |- context [CacheService.set cfg ?k ?v None _] =>
        destruct (set_total cfg k v None σ0 t0 fs0 (or_intror Hok0)) as [w' ->]
    end. reflexivity. }
  eexists. split; [by apply Hrun|]. cbn [FavoritesContext.favorites].
  repeat apply conj.
  - by eexists.
  - intros x Hx. unfold FavoritesContext.isFavorite. cbn.
    apply import_list_covers. by apply list_elem_of_In.
  - intros j. unfold ids. rewrite map_app, elem_of_app.
    intros [Hj|Hj]; [by left|right].
    apply list_elem_of_In, in_map_iff in Hj as (x & <- & Hx).
    apply filter_In in Hx as [Hx _].
    apply list_elem_of_In, in_map. exact Hx.
  - apply import_list_NoDup.
  - intros σ1 t1 fs1 Hok1. rewrite Hrun by done.
    cbn [FavoritesContext.favorites FavoritesContext.recentlyViewed
         FavoritesContext.error].
    by rewrite import_list_again, app_nil_r.
Qed.

Lemma X24_import_merges_without_duplicates_witness :
  ∃ state',
    fst (FavoritesContext.importFavorites CacheService.default_config
           (FavoritesContext.mkFavoritesState [movie_n 7] [] false None)
           [movie_n 7; movie_n 42] (mkWorld ∅ 0 [])) = Ok state' ∧
    NoDup (ids (FavoritesContext.favorites state')).
Proof.
  destruct (X24_import_merges_without_duplicates CacheService.default_config
              (FavoritesContext.mkFavoritesState [movie_n 7] [] false None)
              [movie_n 7; movie_n 42] ∅ 0 [])
    as (state' & Hrun & _ & _ & _ & Hnd & _).
  - unfold metadata_ok. vm_compute. eauto.
  - exists state'. split; [exact Hrun|].
    apply Hnd; apply (bool_decide_unpack _); by vm_compute.
Defined.

(** X25. Toggling twice: with a working storage, when a movie is no
    favourite, [toggleFavorite] makes it the first favourite and a second
    [toggleFavorite], from the state the first one produced, gives back the
    previous favourites. *)
Theorem X25_toggle_twice_restores_favorites
    (cfg : CacheService.CacheConfig) (state : FavoritesContext.FavoritesState)
    (m : Movie) (σ : gmap string json) (t : Z) :
  metadata_ok σ →
  FavoritesContext.isFavorite state (id m) = false →
  ∃ state1 w1 state2 w2,
    FavoritesContext.toggleFavorite cfg state m (mkWorld σ t []) = (Ok state1, w1) ∧
    FavoritesContext.favorites state1 = m :: FavoritesContext.favorites state ∧
    FavoritesContext.toggleFavorite cfg state1 m w1 = (Ok state2, w2) ∧
    FavoritesContext.favorites state2 = FavoritesContext.favorites state ∧
    FavoritesContext.isFavorite state2 (id m) = false.
Proof.
  intros Hok Hm. unfold FavoritesContext.isFavorite in Hm.
  set (state1 := FavoritesContext.favoritesReducer state
                   (FavoritesContext.ADD_FAVORITE m)).
  assert (FavoritesContext.favorites state1
          = m :: FavoritesContext.favorites state) as Hadd
    by (by apply add_favorite_absent).
  set (σ1 := set_storage cfg CacheService.KEYS.FAVORITES
               (movies_to_json (m :: FavoritesContext.favorites state))
               None t σ).
  assert (FavoritesContext.toggleFavorite cfg state m (mkWorld σ t [])
          = (Ok state1, mkWorld σ1 t [])) as H1.
  { unfold FavoritesContext.toggleFavorite, FavoritesContext.isFavorite.
    rewrite Hm. by apply addToFavorites_quiet. }
  assert (FavoritesContext.toggleFavorite cfg state1 m (mkWorld σ1 t [])
          = (Ok (FavoritesContext.favoritesReducer state1
                   (FavoritesContext.REMOVE_FAVORITE (id m))),
             mkWorld
               (set_storage cfg CacheService.KEYS.FAVORITES
                  (movies_to_json
                     (filter_id_ne (id m) (FavoritesContext.favorites state1)))
                  None t σ1) t [])) as H2.
  { unfold FavoritesContext.toggleFavorite, FavoritesContext.isFavorite.
    rewrite Hadd.
    assert (some_id (id m) (m :: FavoritesContext.favorites state) = true) as ->.
    { unfold some_id. cbn. by rewrite Z.eqb_refl. }
    unfold FavoritesContext.removeFromFavorites, CacheService.cacheFavorites,
      try_catch, bind.
    rewrite set_quiet by (right; apply metadata_ok_set_storage).
    by rewrite Hadd. }
  eexists _, _, _, _. repeat apply conj; [exact H1 | exact Hadd | exact H2 | |].
  - change (filter_id_ne (id m) (FavoritesContext.favorites state1)
            = FavoritesContext.favorites state).
    by rewrite Hadd, filter_id_ne_cons_absent.
  - unfold FavoritesContext.isFavorite.
    change (some_id (id m)
              (filter_id_ne (id m) (FavoritesContext.favorites state1)) = false).
    apply some_id_filter_id_ne.
Qed.

Lemma X25_toggle_twice_restores_favorites_witness :
  ∃ state1 w1 state2 w2,
    FavoritesContext.toggleFavorite CacheService.default_config
      (FavoritesContext.mkFavoritesState [movie_n 7] [] false None) (movie_n 42)
      (mkWorld ∅ 0 []) = (Ok state1, w1) ∧
    FavoritesContext.toggleFavorite CacheService.default_config state1
      (movie_n 42) w1 = (Ok state2, w2) ∧
    FavoritesContext.favorites state2 = [movie_n 7].
Proof.
  destruct (X25_toggle_twice_restores_favorites CacheService.default_config
              (FavoritesContext.mkFavoritesState [movie_n 7] [] false None)
              (movie_n 42) ∅ 0)
    as (state1 & w1 & state2 & w2 & H1 & _ & H2 & H3 & _).
  - unfold metadata_ok. vm_compute. eauto.
  - reflexivity.
  - by exists state1, w1, state2, w2.
Defined.

(** ** The movie provider: pagination, failures and favourites *)

Section Pagination.
Import MovieContext.

Lemma movieReducer_pagination_ok s a :
  pagination_ok s → pagination_ok (movieReducer s a).
Proof. unfold pagination_ok. by destruct s, a. Qed.

Lemma fetch_list_pagination_ok request set_action append_action fallback page s :
  pagination_ok s →
  pagination_ok (fetch_list request set_action append_action fallback page s).
Proof.
  intros Hs. unfold fetch_list.
  destruct (request page), (page =? 1);
    repeat apply movieReducer_pagination_ok; done.
Qed.

(** A fetch of a later page leaves the pagination fields alone. *)
Lemma fetch_list_later_page request set_action append_action fallback page s :
  page ≠ 1 →
  (∀ st l, currentPage (movieReducer st (append_action l)) = currentPage st ∧
           totalPages (movieReducer st (append_action l)) = totalPages st ∧
           hasMorePages (movieReducer st (append_action l)) = hasMorePages st) →
  let s' := fetch_list request set_action append_action fallback page s in
  currentPage s' = currentPage s ∧ totalPages s' = totalPages s ∧
  hasMorePages s' = hasMorePages s.
Proof.
  intros Hp Happ. unfold fetch_list.
  apply Z.eqb_neq in Hp. rewrite Hp.
  destruct (request page); [apply Happ | by destruct s].
Qed.

End Pagination.

(** X26. The pagination fields stay in agreement: [hasMorePages] holds
    exactly when [currentPage < totalPages] in the initial state, and every
    reducer action, every list fetch (whatever the remote end answers),
    [setSelectedCategory] and [clearSearch] keep it so. *)
Theorem X26_pagination_fields_agree
    (remote : TMDBService.Remote) (s : MovieContext.MovieState)
    (a : MovieContext.MovieAction) (page : Z) (category : string) :
  pagination_ok MovieContext.initialState ∧
  (pagination_ok s →
   pagination_ok (MovieContext.movieReducer s a) ∧
   pagination_ok (MovieContext.fetchPopularMovies remote page s) ∧
   pagination_ok (MovieContext.fetchTopRatedMovies remote page s) ∧
   pagination_ok (MovieContext.fetchUpcomingMovies remote page s) ∧
   pagination_ok (MovieContext.fetchNowPlayingMovies remote page s) ∧
   pagination_ok (MovieContext.fetchGenres remote s) ∧
   pagination_ok (MovieContext.setSelectedCategory s category) ∧
   pagination_ok (MovieContext.clearSearch s)).
Proof.
  split; [reflexivity|]. intros Hs.
  repeat apply conj;
    try (by apply fetch_list_pagination_ok);
    try (by repeat apply movieReducer_pagination_ok).
  unfold MovieContext.fetchGenres.
  destruct (TMDBService.getGenres remote);
    [by apply movieReducer_pagination_ok | done].
Qed.

Lemma X26_pagination_fields_agree_witness :
  pagination_ok
    (MovieContext.movieReducer MovieContext.initialState
       (MovieContext.SET_POPULAR_MOVIES
          (MovieContext.mkPagePayload [movie_n 1] 1 5))).
Proof.
  destruct (X26_pagination_fields_agree
              (TMDBService.mkRemote
                 (fun _ => TMDBService.HttpOk (TMDBService.mkMovieResponse 1 [] 1 0))
                 (fun _ => TMDBService.HttpOk (TMDBService.mkMovieResponse 1 [] 1 0))
                 (fun _ => TMDBService.HttpOk (TMDBService.mkMovieResponse 1 [] 1 0))
                 (fun _ => TMDBService.HttpOk (TMDBService.mkMovieResponse 1 [] 1 0))
                 (fun _ _ => TMDBService.HttpOk (TMDBService.mkMovieResponse 1 [] 1 0))
                 (TMDBService.HttpOk []))
              MovieContext.initialState
              (MovieContext.SET_POPULAR_MOVIES
                 (MovieContext.mkPagePayload [movie_n 1] 1 5))
              1 "popular") as [Hinit Hstep].
  exact (proj1 (Hstep Hinit)).
Defined.

(** X27. Loading more never advances the page.  In the popular category,
    with more pages to load and no load in progress, [loadMoreMovies]
    requests page [currentPage + 1] and appends the answer, but
    [APPEND_POPULAR_MOVIES] leaves [currentPage] as it was; so the next
    [loadMoreMovies] requests the same page again and appends the same
    movies a second time. *)
Theorem X27_load_more_requests_the_same_page_again `{StringPrims}
    (remote : TMDBService.Remote) (s : MovieContext.MovieState)
    (r : TMDBService.MovieResponse) (w : World) :
  MovieContext.selectedCategory s = "popular" →
  MovieContext.hasMorePages s = true →
  MovieContext.loading s = false →
  MovieContext.currentPage s ≠ 0 →
  TMDBService.movie_popular remote (MovieContext.currentPage s + 1)
  = TMDBService.HttpOk r →
  ∃ s1 s2,
    MovieContext.loadMoreMovies remote s w = (Ok s1, w) ∧
    MovieContext.popularMovies s1
    = (MovieContext.popularMovies s ++ TMDBService.results r)%list ∧
    MovieContext.currentPage s1 = MovieContext.currentPage s ∧
    MovieContext.loadMoreMovies remote s1 w = (Ok s2, w) ∧
    MovieContext.popularMovies s2
    = (MovieContext.popularMovies s ++ TMDBService.results r
       ++ TMDBService.results r)%list ∧
    MovieContext.currentPage s2 = MovieContext.currentPage s.
Proof.
  intros Hcat Hmore Hload Hcur Hr.
  assert (∀ st,
            MovieContext.selectedCategory st = "popular" →
            MovieContext.hasMorePages st = true →
            MovieContext.loading st = false →
            MovieContext.currentPage st = MovieContext.currentPage s →
            MovieContext.loadMoreMovies remote st w
            = (Ok (MovieContext.movieReducer st
                     (MovieContext.APPEND_POPULAR_MOVIES (TMDBService.results r))),
               w)) as Hstep.
  { intros st Hc Hm Hl Hp.
    unfold MovieContext.loadMoreMovies, MovieContext.fetchPopularMovies,
      MovieContext.fetch_list, TMDBService.getPopularMovies,
      TMDBService.request.
    rewrite Hc, Hm, Hl, Hp, Hr. cbn [negb orb String.eqb Ascii.eqb Bool.eqb].
    by rewrite (proj2 (Z.eqb_neq _ 1)) by lia. }
  exists (MovieContext.movieReducer s
            (MovieContext.APPEND_POPULAR_MOVIES (TMDBService.results r))),
         (MovieContext.movieReducer
            (MovieContext.movieReducer s
               (MovieContext.APPEND_POPULAR_MOVIES (TMDBService.results r)))
            (MovieContext.APPEND_POPULAR_MOVIES (TMDBService.results r))).
  destruct s as [popular topRated upcoming nowPlaying results gs ld err sld
                   cur tot more favs query history category].
  cbn in Hcat, Hmore, Hload. subst category more ld.
  repeat apply conj.
  - by apply Hstep.
  - reflexivity.
  - reflexivity.
  - by apply Hstep.
  - cbn. by rewrite <- app_assoc.
  - reflexivity.
Qed.

Lemma X27_load_more_requests_the_same_page_again_witness :
  let remote :=
    TMDBService.mkRemote
      (fun p => TMDBService.HttpOk
                  (TMDBService.mkMovieResponse p [movie_n p] 5 100))
      (fun _ => TMDBService.HttpFail (TMDBService.mkAxiosError None ""))
      (fun _ => TMDBService.HttpFail (TMDBService.mkAxiosError None ""))
      (fun _ => TMDBService.HttpFail (TMDBService.mkAxiosError None ""))
      (fun _ _ => TMDBService.HttpFail (TMDBService.mkAxiosError None ""))
      (TMDBService.HttpOk []) in
  let s := MovieContext.fetchPopularMovies remote 1 MovieContext.initialState in
  ∃ s1 s2,
    @MovieContext.loadMoreMovies remote ascii_prims s (mkWorld ∅ 0 [])
    = (Ok s1, mkWorld ∅ 0 []) ∧
    @MovieContext.loadMoreMovies remote ascii_prims s1 (mkWorld ∅ 0 [])
    = (Ok s2, mkWorld ∅ 0 []) ∧
    MovieContext.popularMovies s2 = [movie_n 1; movie_n 2; movie_n 2].
Proof.
  intros remote s.
  destruct (@X27_load_more_requests_the_same_page_again ascii_prims remote s
              (TMDBService.mkMovieResponse 2 [movie_n 2] 5 100)
              (mkWorld ∅ 0 []))
    as (s1 & s2 & H1 & _ & _ & H2 & H3 & _); try reflexivity.
  - cbn. lia.
  - by exists s1, s2.
Defined.



Section MovieFavorites.
Import MovieContext.


End MovieFavorites.



(** X30. Searching from the movie provider.  A blank query on page 1 is
    answered without a request: whatever the remote end would say, the
    search results are empty, the pagination is page 1 of 0 with no more
    pages, and neither the search history nor the storage is touched.  When
    the request for a query that is not blank fails, the error is stored,
    the search is no longer loading, and the history and the storage are
    untouched as well. *)
Theorem X30_search_blank_and_failed `{StringPrims}
    (remote : TMDBService.Remote) (s : MovieContext.MovieState)
    (q : string) (err : TMDBService.AxiosError) (w : World) :
  (trim q = "" →
   ∃ s',
     (∀ remote', MovieContext.searchMovies remote' q 1 s w = (Ok s', w)) ∧
     MovieContext.searchResults s' = [] ∧
     MovieContext.searchQuery s' = q ∧
     MovieContext.currentPage s' = 1 ∧
     MovieContext.totalPages s' = 0 ∧
     MovieContext.hasMorePages s' = false ∧
     MovieContext.searchLoading s' = false ∧
     MovieContext.searchHistory s' = MovieContext.searchHistory s) ∧
  (trim q ≠ "" →
   TMDBService.search_movie remote (trim q) 1 = TMDBService.HttpFail err →
   ∃ s',
     MovieContext.searchMovies remote q 1 s w = (Ok s', w) ∧
     MovieContext.error s'
     = Some (MovieContext.rejection_message
               (TMDBService.responseInterceptor err) "Failed to search movies") ∧
     MovieContext.searchLoading s' = false ∧
     MovieContext.searchResults s' = MovieContext.searchResults s ∧
     MovieContext.searchHistory s' = MovieContext.searchHistory s).
Proof.
  destruct s as [popular topRated upcoming nowPlaying results gs ld err0 sld
                   cur tot more favs query history category].
  split.
  - intros Hq. eexists. split.
    + intros remote'.
      unfold MovieContext.searchMovies, TMDBService.searchMovies.
      rewrite Hq. cbn. reflexivity.
    + by cbn.
  - intros Hq Herr. apply String.eqb_neq in Hq. eexists. split.
    + unfold MovieContext.searchMovies, TMDBService.searchMovies,
        TMDBService.request.
      rewrite Hq, Herr. cbn. reflexivity.
    + by cbn.
Qed.

Lemma X30_search_blank_and_failed_witness :
  let remote :=
    TMDBService.mkRemote
      (fun _ => TMDBService.HttpFail (TMDBService.mkAxiosError None ""))
      (fun _ => TMDBService.HttpFail (TMDBService.mkAxiosError None ""))
      (fun _ => TMDBService.HttpFail (TMDBService.mkAxiosError None ""))
      (fun _ => TMDBService.HttpFail (TMDBService.mkAxiosError None ""))
      (fun _ _ => TMDBService.HttpFail
                    (TMDBService.mkAxiosError (Some 404) "Request failed"))
      (TMDBService.HttpOk []) in
  (∃ s', @MovieContext.searchMovies remote ascii_prims "   " 1
           MovieContext.initialState (mkWorld ∅ 0 []) = (Ok s', mkWorld ∅ 0 []) ∧
         MovieContext.totalPages s' = 0) ∧
  (∃ s', @MovieContext.searchMovies remote ascii_prims "dune" 1
           MovieContext.initialState (mkWorld ∅ 0 []) = (Ok s', mkWorld ∅ 0 []) ∧
         MovieContext.error s' = Some "Resource not found.").
Proof.
  intros remote. split.
  - destruct (@X30_search_blank_and_failed ascii_prims remote
                MovieContext.initialState "   "
                (TMDBService.mkAxiosError None "") (mkWorld ∅ 0 []))
      as [Hblank _].
    destruct Hblank as (s' & Hrun & _ & _ & _ & Htot & _); [by vm_compute|].
    exists s'. split; [apply Hrun | exact Htot].
  - destruct (@X30_search_blank_and_failed ascii_prims remote
                MovieContext.initialState "dune"
                (TMDBService.mkAxiosError (Some 404) "Request failed")
                (mkWorld ∅ 0 [])) as [_ Hfail].
    destruct Hfail as (s' & Hrun & Herr & _); [by vm_compute | reflexivity |].
    exists s'. split; [exact Hrun | exact Herr].
Defined.
